(** * AutoPress: the scrape-and-publish pipeline, embedded and verified

    A shallow embedding of the press-release automation
    (utils.js, scraper.js, webflow.js, index.js and their earlier variants)
    together with the properties its specification states about it, and
    further properties read off the code.

    Strings are sequences of UTF-16 code units, dates are time values,
    and code with effects runs in a state-and-exception monad over the
    world it acts on: the network, the clock, the listing page, the CMS
    collection, the browsers and the state file.  What the JavaScript
    engine leaves open (date parsing, collation, the time zone) is a
    parameter.  Logging is left out: it changes nothing the program reads. *)

From Stdlib Require Import ZArith NArith Bool Ascii String List Lia Arith.
From Stdlib Require Import Permutation Sorted.
Import ListNotations.
Open Scope list_scope.

(* ================================================================== *)
(** * Part I. The program                                              *)
(* ================================================================== *)

(** ** JavaScript strings and the built-ins the program calls *)

Module JS.

(** A JavaScript string is a sequence of UTF-16 code units. *)
Definition cunit := N.
Definition jsstring := list cunit.

(** Literals of the source are written as Rocq strings and read as code
    units. *)
Definition js (s : string) : jsstring :=
  map N_of_ascii (list_ascii_of_string s).

Definition ch (a : ascii) : cunit := N_of_ascii a.

Definition chSp : cunit := ch " ".
Definition chGt : cunit := ch ">".
Definition chLt : cunit := ch "<".
Definition chDash : cunit := ch "-".
Definition chNl : cunit := 10%N.

Fixpoint eqs (a b : jsstring) : bool :=
  match a, b with
  | [], [] => true
  | x :: a', y :: b' => N.eqb x y && eqs a' b'
  | _, _ => false
  end.

(** [\s] of a regular expression and the characters [trim] strips:
    ECMAScript's WhiteSpace and LineTerminator code points. *)
Definition isSpace (c : cunit) : bool :=
  ((9 <=? c) && (c <=? 13) || (c =? 32) || (c =? 160) || (c =? 5760)
   || (8192 <=? c) && (c <=? 8202) || (c =? 8232) || (c =? 8233)
   || (c =? 8239) || (c =? 8287) || (c =? 12288) || (c =? 65279))%N.

(** Length of the longest prefix whose units all satisfy [p]: what a
    greedy [p+] consumes. *)
Fixpoint run (p : cunit -> bool) (s : jsstring) : nat :=
  match s with
  | c :: r => if p c then S (run p r) else 0
  | [] => 0
  end.

Fixpoint dropWhile (p : cunit -> bool) (s : jsstring) : jsstring :=
  match s with
  | c :: r => if p c then dropWhile p r else s
  | [] => []
  end.

(** [s.replace(/re/g, rep)].  The pattern is given by its matcher [m]: at a
    position, the length of the match that starts there, if any.  The scan
    goes left to right; after a match it resumes behind the match ([skip]
    counts the units of the match still to pass).  None of the program's
    patterns matches the empty string. *)
Fixpoint replace_go (m : jsstring -> option nat) (rep : jsstring)
  (skip : nat) (s : jsstring) : jsstring :=
  match s with
  | [] => []
  | c :: r =>
    match skip with
    | S k => replace_go m rep k r
    | O =>
      match m s with
      | Some (S n) => rep ++ replace_go m rep n r
      | _ => c :: replace_go m rep 0 r
      end
    end
  end.

Definition replaceAll (m : jsstring -> option nat) (rep s : jsstring) : jsstring :=
  replace_go m rep 0 s.

(** Matcher of [p+], for a character class [p]. *)
Definition re_plus (p : cunit -> bool) (s : jsstring) : option nat :=
  match run p s with
  | O => None
  | n => Some n
  end.

(** Matcher of a single character of class [p]. *)
Definition re_one (p : cunit -> bool) (s : jsstring) : option nat :=
  match s with
  | c :: _ => if p c then Some 1 else None
  | [] => None
  end.

(** Matcher of [a p+ b]: the unit [a], a greedy non-empty run of [p], the
    unit [b].  Giving back units of the run never helps: what follows a
    shorter run is a unit of class [p], and [b] is none ([<] is no white
    space in [/>\s+</]). *)
Definition re_between (a : cunit) (p : cunit -> bool) (b : cunit) (s : jsstring)
  : option nat :=
  match s with
  | c :: r =>
    if (c =? a)%N then
      match run p r with
      | O => None
      | n => match nth_error r n with
             | Some d => if (d =? b)%N then Some (n + 2) else None
             | None => None
             end
      end
    else None
  | [] => None
  end.

(** Matcher of [a p+]: the unit [a] and a greedy non-empty run of [p]. *)
Definition re_then_plus (a : cunit) (p : cunit -> bool) (s : jsstring) : option nat :=
  match s with
  | c :: r =>
    if (c =? a)%N then
      match run p r with
      | O => None
      | n => Some (S n)
      end
    else None
  | [] => None
  end.

Definition trimStart (s : jsstring) : jsstring := dropWhile isSpace s.

Fixpoint trimEnd (s : jsstring) : jsstring :=
  match s with
  | [] => []
  | c :: r =>
    match trimEnd r with
    | [] => if isSpace c then [] else [c]
    | t => c :: t
    end
  end.

(** [s.trim()]; an argument, as in [trim('-')], is ignored by the engine. *)
Definition trim (s : jsstring) : jsstring := trimEnd (trimStart s).

(** [s.substring(0, n)] for a non-negative [n]. *)
Definition substring0 (n : nat) (s : jsstring) : jsstring := firstn n s.

(** [s.toLowerCase()].  The table holds the code units whose lower-case
    form contains an ASCII unit: the Latin capitals, U+0130 (dotted capital
    I, which becomes [i] and U+0307) and U+212A (the Kelvin sign, which
    becomes [k]).  Every other unit is mapped by the engine to a unit
    outside ASCII, or to itself, and is left alone here: the program hands
    the result only to replacements that treat all units outside ASCII
    alike. *)
Definition lowerUnit (c : cunit) : jsstring :=
  if ((65 <=? c) && (c <=? 90))%N then [(c + 32)%N]
  else if (c =? 304)%N then [105%N; 775%N]
  else if (c =? 8490)%N then [107%N]
  else [c].

Definition toLowerCase (s : jsstring) : jsstring := flat_map lowerUnit s.

Definition isLower (c : cunit) : bool := ((97 <=? c) && (c <=? 122))%N.
Definition isDigit (c : cunit) : bool := ((48 <=? c) && (c <=? 57))%N.

(** [a || b] on strings: the empty string is falsy. *)
Definition orElse (a b : jsstring) : jsstring :=
  match a with [] => b | _ => a end.

Definition nonEmpty {A} (l : list A) : bool :=
  match l with [] => false | _ => true end.

(** [s.startsWith(p)] *)
Fixpoint startsWith (p s : jsstring) : bool :=
  match p, s with
  | [], _ => true
  | x :: p', y :: s' => (x =? y)%N && startsWith p' s'
  | _ :: _, [] => false
  end.

(** [a.sort(cmp)], as a stable insertion sort: the next element [x] moves
    to the left past each neighbour [y] of the sorted front part for which
    [cmp(x, y) < 0]; [front] holds that part last element first.  On two
    elements this is the one call [cmp(second, first)] that V8 makes.  The
    language fixes the outcome for a consistent comparator, where every
    stable sort agrees with this one; for others the outcome is the
    engine's own. *)
Fixpoint sort_insert {A} (cmp : A -> A -> Z) (x : A) (front : list A) : list A :=
  match front with
  | [] => [x]
  | y :: rest =>
    if (cmp x y <? 0)%Z then y :: sort_insert cmp x rest
    else x :: front
  end.

Definition sort {A} (cmp : A -> A -> Z) (a : list A) : list A :=
  rev (fold_left (fun front x => sort_insert cmp x front) a []).

(** [a.slice(-n)]: the last [n] elements. *)
Definition lastn {A} (n : nat) (a : list A) : list A :=
  skipn (length a - n) a.

(** [s.includes(c)] for a one-unit needle. *)
Definition includes1 (c : cunit) (s : jsstring) : bool :=
  existsb (N.eqb c) s.

(** [s.split(c)[0]]: the part before the first [c], all of [s] without. *)
Fixpoint before (c : cunit) (s : jsstring) : jsstring :=
  match s with
  | [] => []
  | x :: r => if (x =? c)%N then [] else x :: before c r
  end.

(** *** Dates

    A valid [Date] is its time value, milliseconds since the epoch; an
    invalid one ([NaN]) is [None]. *)

Local Open Scope Z_scope.

Definition msPerDay : Z := 86400000.

(** Day number of a civil date and back (proleptic Gregorian calendar, day
    0 is 1970-01-01), as [MakeDay] and [YearFromTime], [MonthFromTime],
    [DateFromTime] of ECMAScript compute them. *)
Definition days_from_civil (y m d : Z) : Z :=
  let y' := if m <=? 2 then y - 1 else y in
  let era := y' / 400 in
  let yoe := y' - era * 400 in
  let mp := if 2 <? m then m - 3 else m + 9 in
  let doy := (153 * mp + 2) / 5 + d - 1 in
  let doe := yoe * 365 + yoe / 4 - yoe / 100 + doy in
  era * 146097 + doe - 719468.

Definition civil_from_days (z : Z) : Z * Z * Z :=
  let z' := z + 719468 in
  let era := z' / 146097 in
  let doe := z' - era * 146097 in
  let yoe := (doe - doe / 1460 + doe / 36524 - doe / 146096) / 365 in
  let doy := doe - (365 * yoe + yoe / 4 - yoe / 100) in
  let mp := (5 * doy + 2) / 153 in
  let d := doy - (153 * mp + 2) / 5 + 1 in
  let m := if mp <? 10 then mp + 3 else mp - 9 in
  let y := yoe + era * 400 in
  ((if m <=? 2 then y + 1 else y), m, d).

(** The last [n] decimal digits of [z], most significant first. *)
Fixpoint digits (n : nat) (z : Z) : jsstring :=
  match n with
  | O => []
  | S k => digits k (z / 10) ++ [(48 + Z.to_N (z mod 10))%N]
  end.

(** [String(z).padStart(2, '0')] for a month or a day of the month. *)
Definition pad2 (z : Z) : jsstring := digits 2 z.

(** The year as [toISOString] prints it: four digits from 0 to 9999, a
    sign and six digits outside. *)
Definition isoYear (y : Z) : jsstring :=
  if (0 <=? y) && (y <=? 9999) then digits 4 y
  else (if y <? 0 then ch "-" else ch "+") :: digits 6 (Z.abs y).

(** The year as [String(date.getFullYear())] prints it. *)
Fixpoint decimal_go (fuel : nat) (z : Z) (acc : jsstring) : jsstring :=
  match fuel with
  | O => acc
  | S k =>
    let acc' := (48 + Z.to_N (z mod 10))%N :: acc in
    if z <? 10 then acc' else decimal_go k (z / 10) acc'
  end.

Definition decimal (z : Z) : jsstring :=
  if z <? 0 then ch "-" :: decimal_go 20 (- z) []
  else decimal_go 20 z [].

(** [new Date(t).toISOString().split('T')[0]] *)
Definition isoDate (t : Z) : jsstring :=
  let '(y, m, d) := civil_from_days (t / msPerDay) in
  isoYear y ++ [chDash] ++ pad2 m ++ [chDash] ++ pad2 d.

(** What the engine and its locale leave open:
    - [Date_parse s] is [new Date(s).getTime()]; outside the ISO format the
      reading of a date string is up to the engine;
    - [localeCompare a b] is [a.localeCompare(b)], the locale's collation;
    - [tzOffset t] is the local zone's distance from UTC, in milliseconds,
      at the instant [t]: the local-time getters read [t + tzOffset t]. *)
Class Host := {
  Date_parse : jsstring -> option Z;
  localeCompare : jsstring -> jsstring -> Z;
  tzOffset : Z -> Z
}.

(** *** A sample host

    UTC as the local zone, comparison of strings unit by unit, and a date
    parser for the two formats the program meets: the ISO date
    [YYYY-MM-DD] (read as UTC) and [D Mon YYYY] as the listing prints it
    (read as local time).  Everything else is an invalid date on this
    host. *)

Definition digitVal (c : cunit) : option Z :=
  if isDigit c then Some (Z.of_N c - 48) else None.

Fixpoint number_go (s : jsstring) (acc : Z) : option Z :=
  match s with
  | [] => Some acc
  | c :: r =>
    match digitVal c with
    | Some v => number_go r (10 * acc + v)
    | None => None
    end
  end.

Definition number (s : jsstring) : option Z :=
  match s with
  | [] => None
  | _ => number_go s 0
  end.

Definition daysInMonth (y m : Z) : Z :=
  if m =? 2 then
    (if ((y mod 4 =? 0) && negb (y mod 100 =? 0)) || (y mod 400 =? 0)
     then 29 else 28)
  else if (m =? 4) || (m =? 6) || (m =? 9) || (m =? 11) then 30
  else 31.

Definition civil (y m d : Z) : option Z :=
  if (1 <=? m) && (m <=? 12) && (1 <=? d) && (d <=? daysInMonth y m)
  then Some (days_from_civil y m d * msPerDay)
  else None.

Definition monthNames : list (string * Z) :=
  [("Jan", 1); ("Feb", 2); ("Mar", 3); ("Apr", 4); ("May", 5); ("Jun", 6);
   ("Jul", 7); ("Aug", 8); ("Sep", 9); ("Oct", 10); ("Nov", 11); ("Dec", 12)]%string.

Fixpoint monthOf (names : list (string * Z)) (s : jsstring) : option Z :=
  match names with
  | [] => None
  | (n, m) :: rest => if eqs (js n) s then Some m else monthOf rest s
  end.

Definition parseIso (s : jsstring) : option Z :=
  match s with
  | [y1; y2; y3; y4; h1; m1; m2; h2; d1; d2] =>
    if (h1 =? chDash)%N && (h2 =? chDash)%N then
      match number [y1; y2; y3; y4], number [m1; m2], number [d1; d2] with
      | Some y, Some m, Some d => civil y m d
      | _, _, _ => None
      end
    else None
  | _ => None
  end.

Definition parseDayMonYear (s : jsstring) : option Z :=
  let day := before chSp s in
  let rest := skipn (S (length day)) s in
  let mon := before chSp rest in
  let year := skipn (S (length mon)) rest in
  if ((length day <=? 2) && (length year =? 4))%nat then
    match number day, monthOf monthNames mon, number year with
    | Some d, Some m, Some y => civil y m d
    | _, _, _ => None
    end
  else None.

Definition sample_parse (s : jsstring) : option Z :=
  match parseIso s with
  | Some t => Some t
  | None => parseDayMonYear s
  end.

Fixpoint compareUnits (a b : jsstring) : Z :=
  match a, b with
  | [], [] => 0
  | [], _ :: _ => -1
  | _ :: _, [] => 1
  | x :: a', y :: b' =>
    if (x <? y)%N then -1 else if (y <? x)%N then 1 else compareUnits a' b'
  end.

Definition sample_host : Host := {|
  Date_parse := sample_parse;
  localeCompare := compareUnits;
  tzOffset := fun _ => 0
|}.

End JS.

(** ** Effects: state that survives exceptions *)

Module Eff.

Inductive Result (A : Type) : Type :=
| Ok (a : A)
| Throw (e : string).
Arguments Ok {A} a.
Arguments Throw {A} e.

(** A computation over a mutable state [S]: it returns or throws, and the
    state it leaves is kept in both cases, as the mutations of a JavaScript
    function are when it throws. *)
Definition M (S A : Type) : Type := S -> Result A * S.

Definition ret {S A} (a : A) : M S A := fun s => (Ok a, s).

Definition throw {S A} (e : string) : M S A := fun s => (Throw e, s).

Definition bind {S A B} (m : M S A) (k : A -> M S B) : M S B :=
  fun s =>
    match m s with
    | (Ok a, s') => k a s'
    | (Throw e, s') => (Throw e, s')
    end.

Definition get {S} : M S S := fun s => (Ok s, s).

Definition modify {S} (f : S -> S) : M S unit := fun s => (Ok tt, f s).

(** [try { m } catch (e) { h e }] *)
Definition try_catch {S A} (m : M S A) (h : string -> M S A) : M S A :=
  fun s =>
    match m s with
    | (Ok a, s') => (Ok a, s')
    | (Throw e, s') => h e s'
    end.

(** [try { m } finally { fin }]: [fin] runs on both exits; when it throws,
    its exception replaces the outcome of [m]. *)
Definition try_finally {S A} (m : M S A) (fin : M S unit) : M S A :=
  fun s =>
    match m s with
    | (r, s') =>
      match fin s' with
      | (Ok _, s'') => (r, s'')
      | (Throw e, s'') => (Throw e, s'')
      end
    end.

(** A computation over the system state, run where a local variable [L]
    is in scope as well. *)
Definition lift {S L A} (m : M S A) : M (S * L) A :=
  fun sl =>
    match m (fst sl) with
    | (r, s') => (r, (s', snd sl))
    end.

(** Assignment to the local variable. *)
Definition update {S L} (f : L -> L) : M (S * L) unit :=
  fun sl => (Ok tt, (fst sl, f (snd sl))).

(** Run a block that declares a local variable, initialised to [l0]. *)
Definition scope {S L A} (l0 : L) (m : M (S * L) A) : M S A :=
  fun s =>
    match m (s, l0) with
    | (r, (s', _)) => (r, s')
    end.

(** The value of the local variable. *)
Definition local {S L} : M (S * L) L := fun sl => (Ok (snd sl), sl).

Declare Scope eff_scope.
Delimit Scope eff_scope with eff.
Notation "x <- c ;; k" := (bind c (fun x => k))
  (at level 61, c at next level, right associativity) : eff_scope.
Notation "c ;; k" := (bind c (fun _ => k))
  (at level 61, right associativity) : eff_scope.

(** [for (const x of l) { body x }]; a [continue] ends the body early. *)
Fixpoint for_of {S A} (l : list A) (body : A -> M S unit) : M S unit :=
  match l with
  | [] => ret tt
  | x :: r => (body x ;; for_of r body)%eff
  end.

End Eff.

(** ** The data the pipeline passes around *)

Module Model.
Import JS.

(** A press release: the record the list parser builds, with the fields
    the content step adds ([undefined] before it). *)
Record Release := {
  title : jsstring;
  dateText : jsstring;
  url : jsstring;
  nodeId : option jsstring;
  id : jsstring;
  rawDate : jsstring;
  content : option jsstring;
  publishDate : option jsstring;
  scrapedAt : option Z
}.

(** An item of the CMS collection, with the fields of [fieldData] that the
    client reads back or searches; [date-2] and [read-more-link] travel
    with the request and are never looked at again. *)
Record Item := {
  item_id : nat;
  item_isDraft : bool;
  item_name : jsstring;
  item_slug : jsstring;
  item_body : option jsstring;
  item_live : bool
}.

(** data/processed.json *)
Record Processed := {
  p_id : jsstring;
  p_title : jsstring;
  p_url : jsstring;
  p_webflowId : nat;
  p_processedAt : Z
}.

Record ErrorEntry := {
  e_title : option jsstring;
  e_error : string;
  e_timestamp : Z;
  e_fatal : bool
}.

(** [stats]; [stats_errors] is its field [errors]. *)
Record Stats := {
  totalProcessed : nat;
  lastRunTime : option Z;
  stats_errors : list ErrorEntry
}.

Record Store := {
  lastProcessed : option Z;
  processedReleases : list Processed;
  stats : Stats
}.

(** What [createItems] returns. *)
Record Created := {
  release : Release;
  webflowItem : option Item      (* [None] is [undefined] *)
}.

Record Failed := {
  failed_release : Release;
  error : string
}.

Record Results := {
  created : list Created;
  skipped : list Release;
  errors : list Failed
}.

(** config/schedule.json.  A retry count left out of the file is
    [undefined], and [retry] then takes its default. *)
Record Config := {
  listUrl : jsstring;
  baseUrl : jsstring;
  onlyAfterDate : option jsstring;
  euronext_retryAttempts : option nat;
  euronext_retryDelayMs : Z;
  publishImmediately : bool;
  webflow_retryAttempts : option nat;
  webflow_retryDelayMs : Z;
  startHour : Z;
  endHour : Z
}.

(** The listing page as cheerio shows it.  Nodes are numbered; [query] is
    [$(selector)], [find] is [$(node).find(selector)], both in document
    order. *)
Record Cheerio := {
  query : string -> list nat;
  find : nat -> string -> list nat;
  text : nat -> jsstring;
  attr : nat -> string -> option jsstring
}.

(** What one browser session does when driven: which calls go through,
    and what the function evaluated in the page returns ([Ok None] is
    [null]). *)
Record Session := {
  launch_ok : bool;
  newPage_ok : bool;
  setUserAgent_ok : bool;
  setViewport_ok : bool;
  goto_ok : bool;
  waitForTimeout_ok : bool;
  waitLink_ok : bool;
  click_ok : bool;
  waitModal_ok : bool;
  evaluate : Eff.Result (option jsstring);
  evaluate_title : jsstring;   (* title and date the page shows, which *)
  evaluate_date : jsstring;    (* the direct-navigation variant reads  *)
  close_ok : bool
}.

(** The world a run acts on. *)
Record Sys := {
  net : nat -> bool;           (* is the k-th HTTP request answered? *)
  reqs : nat;                  (* HTTP requests sent so far *)
  clock : Z;                   (* Date.now() *)
  page : Cheerio;              (* what the listing URL serves *)
  items : list Item;           (* the CMS collection *)
  strict_slugs : bool;         (* does the CMS refuse a slug it holds? *)
  sessions : nat -> Session;   (* the k-th browser session *)
  launches : nat;              (* browsers asked for so far *)
  browsers : list nat;         (* browsers running *)
  disk : option Store;         (* processed.json, if readable *)
  disk_writable : bool
}.

Definition set_reqs (s : Sys) (n : nat) : Sys :=
  {| net := net s; reqs := n; clock := clock s; page := page s;
     items := items s; strict_slugs := strict_slugs s;
     sessions := sessions s; launches := launches s;
     browsers := browsers s; disk := disk s;
     disk_writable := disk_writable s |}.

Definition set_clock (s : Sys) (t : Z) : Sys :=
  {| net := net s; reqs := reqs s; clock := t; page := page s;
     items := items s; strict_slugs := strict_slugs s;
     sessions := sessions s; launches := launches s;
     browsers := browsers s; disk := disk s;
     disk_writable := disk_writable s |}.

Definition set_items (s : Sys) (l : list Item) : Sys :=
  {| net := net s; reqs := reqs s; clock := clock s; page := page s;
     items := l; strict_slugs := strict_slugs s;
     sessions := sessions s; launches := launches s;
     browsers := browsers s; disk := disk s;
     disk_writable := disk_writable s |}.

Definition set_browsers (s : Sys) (n : nat) (l : list nat) : Sys :=
  {| net := net s; reqs := reqs s; clock := clock s; page := page s;
     items := items s; strict_slugs := strict_slugs s;
     sessions := sessions s; launches := n;
     browsers := l; disk := disk s;
     disk_writable := disk_writable s |}.

Definition set_disk (s : Sys) (d : option Store) : Sys :=
  {| net := net s; reqs := reqs s; clock := clock s; page := page s;
     items := items s; strict_slugs := strict_slugs s;
     sessions := sessions s; launches := launches s;
     browsers := browsers s; disk := d;
     disk_writable := disk_writable s |}.

End Model.

(** ** HTTP requests *)

Module Axios.
Import Eff Model.

(** One request: the network answers it or not; [answer] is what the
    server does and returns when it is reached. *)
Definition request {A} (answer : M Sys A) : M Sys A :=
  fun s =>
    let s' := set_reqs s (S (reqs s)) in
    if net s (reqs s) then answer s'
    else (Throw "Request failed", s').

End Axios.

(** ** utils.js *)

Module Utils.
Import JS Eff Model.
Local Open Scope eff_scope.

(** [sleep(ms)]: time passes. *)
Definition sleep (ms : Z) : M Sys unit :=
  modify (fun s => set_clock s (clock s + ms)%Z).

(** [retry(fn, attempts = 3, delay = 1000)]:
    [for (let i = 0; i < attempts; i++)
       try { return await fn() }
       catch (error) { if (i === attempts - 1) throw error; await sleep(delay) }]
    Counting down, [S k] attempts are left at index [attempts - S k].  With
    no attempt to make the loop body never runs and the call returns
    [undefined], here [None]. *)
Fixpoint retry_loop {A} (fn : M Sys A) (left : nat) (delay : Z) : M Sys (option A) :=
  match left with
  | O => ret None
  | S k =>
    try_catch (a <- fn ;; ret (Some a))
      (fun error =>
         match k with
         | O => throw error
         | S _ => sleep delay ;; retry_loop fn k delay
         end)
  end.

Definition retry {A} (fn : M Sys A) (attempts : option nat) (delay : Z)
  : M Sys (option A) :=
  retry_loop fn (match attempts with Some n => n | None => 3 end) delay.

(** [isWithinScheduledHours(config)] when the clock reads [t]; [getHours]
    is the hour of the local day. *)
Definition isWithinScheduledHours `{Host} (config : Config) (t : Z) : bool :=
  let currentHour := (((t + tzOffset t) mod msPerDay) / 3600000)%Z in
  ((startHour config <=? currentHour) && (currentHour <? endHour config))%Z.

(** [html.replace(/\s+/g, ' ').replace(/>\s+</g, '><').trim()] *)
Definition cleanHtmlContent (html : jsstring) : jsstring :=
  trim
    (replaceAll (re_between chGt isSpace chLt) [chGt; chLt]
       (replaceAll (re_plus isSpace) [chSp] html)).

(** [generateReleaseId(title, date)], called when the clock reads [now].
    [new Date(date)] does not throw on a string and [toISOString] does not
    throw on a valid date, so the [catch] arm, which repeats the fallback,
    is never entered. *)
Definition cleanTitle (title : jsstring) : jsstring :=
  replaceAll (re_one (fun c => negb (isLower c || isDigit c))) [chDash]
    (toLowerCase title).

Definition generateReleaseId `{Host} (now : Z) (title date : jsstring) : jsstring :=
  let dateStr :=
    match Date_parse date with
    | None => isoDate now          (* If date parsing fails, use current date *)
    | Some t => isoDate t
    end in
  substring0 100 (dateStr ++ [chDash] ++ cleanTitle title).

End Utils.

(** ** scraper.js *)

Module Scraper.
Import JS Eff Model Utils.
Local Open Scope eff_scope.

Section WithHost.
Context `{Host}.
Variable config : Config.

(** *** The list parser *)

(** Selectors are passed to cheerio as they are and stay Rocq strings; the
    two attribute selectors are written without their inner quotes. *)
Definition selectors : list string :=
  ["tr"; "tbody tr"; ".table-row"; ".list-item"; ".press-release-item";
   "[data-testid=table-row]"; ".row"; "tr[role=row]"]%string.

Definition titleSelectors : list string :=
  ["td:nth-child(3)"; "td:nth-child(2)"; "td:nth-child(4)";
   ".title"; ".press-release-title"; "h3"; "h4"; "a[title]";
   "td a"; ".link-title"]%string.

Definition dateSelectors : list string :=
  ["td:first-child"; "td:nth-child(1)"; ".date"; ".time"; ".release-date"]%string.

(** A cheerio selection is the list of its nodes.  [.first()] keeps the
    first, [.text()] joins the texts, [.attr(name)] reads the first node,
    [.find(sel)] searches below every node. *)
Definition first (sel : list nat) : list nat := firstn 1 sel.

Definition textOf (D : Cheerio) (sel : list nat) : jsstring :=
  flat_map (text D) sel.

Definition attrOf (D : Cheerio) (sel : list nat) (name : string) : option jsstring :=
  match sel with
  | [] => None
  | n :: _ => attr D n name
  end.

Definition findIn (D : Cheerio) (sel : list nat) (s : string) : list nat :=
  flat_map (fun n => find D n s) sel.

(** [a || b] where [a] is a string or [undefined]. *)
Definition orU (a b : option jsstring) : option jsstring :=
  match a with
  | Some (_ :: _) => a
  | _ => b
  end.

(** The loop over [titleSelectors]: title, link and node id of the first
    selector with a non-blank text. *)
Fixpoint findTitle (D : Cheerio) (el : nat) (sels : list string)
  : jsstring * option jsstring * jsstring :=
  match sels with
  | [] => ([], None, [])
  | titleSel :: rest =>
    let titleEl := first (find D el titleSel) in
    if nonEmpty titleEl && nonEmpty (trim (textOf D titleEl)) then
      let title := trim (textOf D titleEl) in
      let link :=
        orU (orU (attrOf D titleEl "href")
                 (attrOf D (findIn D titleEl "a") "href"))
            (attrOf D (first (find D el "a")) "href") in
      let dataNodeNid :=
        orU (attrOf D titleEl "data-node-nid")
            (attrOf D (findIn D titleEl "a") "data-node-nid") in
      match dataNodeNid with
      | Some (c :: r) =>
        (title, Some (js "https://live.euronext.com/en/pd_press/" ++ c :: r), c :: r)
      | _ => (title, link, [])
      end
    else findTitle D el rest
  end.

Fixpoint findDate (D : Cheerio) (el : nat) (sels : list string) : jsstring :=
  match sels with
  | [] => []
  | dateSel :: rest =>
    let dateEl := first (find D el dateSel) in
    if nonEmpty dateEl && nonEmpty (trim (textOf D dateEl)) then
      trim (textOf D dateEl)
    else findDate D el rest
  end.

(** The callback of [.each]: the record a row yields, if it yields one. *)
Definition parseRow (D : Cheerio) (now : Z) (el : nat) : option Release :=
  if nonEmpty (find D el "th") then None        (* Skip header rows *)
  else
    let '(title, link, nodeId) := findTitle D el titleSelectors in
    let dateText := findDate D el dateSelectors in
    if nonEmpty title && (10 <? length title) then
      Some {| title := title;
              dateText := orElse dateText (js "Unknown date");
              url := match link with
                     | Some (c :: r) =>
                       if startsWith (js "http") (c :: r) then c :: r
                       else baseUrl config ++ c :: r
                     | _ => js "#"
                     end;
              nodeId := match nodeId with [] => None | _ => Some nodeId end;
              id := generateReleaseId now title (orElse dateText (js "unknown"));
              rawDate := dateText;
              content := None;
              publishDate := None;
              scrapedAt := None |}
    else None.

(** [$(selector).each(...)]: [foundReleases] and [releases] after the rows. *)
Fixpoint eachRow (D : Cheerio) (now : Z) (rows : list nat)
  (st : bool * list Release) : bool * list Release :=
  match rows with
  | [] => st
  | el :: rest =>
    eachRow D now rest
      match parseRow D now el with
      | Some r => (true, snd st ++ [r])
      | None => st
      end
  end.

(** The loop over [selectors].  [asked] lists the selectors handed to [$]. *)
Fixpoint trySelectors (D : Cheerio) (now : Z) (sels : list string)
  (st : bool * list Release) (asked : list string)
  : bool * list Release * list string :=
  match sels with
  | [] => (st, asked)
  | selector :: rest =>
    if fst st then (st, asked)                  (* if (foundReleases) break *)
    else trySelectors D now rest
           (eachRow D now (query D selector) st) (asked ++ [selector])
  end.

Definition parseListing (D : Cheerio) (now : Z) : bool * list Release * list string :=
  trySelectors D now selectors (false, []) [].

(** *** The cutoff filter *)

(** [release.rawDate || release.dateText] *)
Definition rawDateOrText (r : Release) : jsstring :=
  orElse (rawDate r) (dateText r).

(** The listing prints a date as ["27 Jun 2025\n07:45 CEST"]: keep the part
    before the line break. *)
Definition dateOnly (dateStr : jsstring) : jsstring :=
  if includes1 chNl dateStr then trim (before chNl dateStr) else dateStr.

(** The callback of [releases.filter]; [cutoffDate] is a valid date here,
    since [cutoffDate.toISOString()] has gone through before. *)
Definition isRecent (cutoffDate : Z) (release : Release) : bool :=
  let dateStr := dateOnly (rawDateOrText release) in
  match Date_parse dateStr with
  | Some releaseDate => (cutoffDate <=? releaseDate)%Z
  | None => false                     (* Exclude if date parsing fails *)
  end.

(** *** The sort *)

(** The comparator handed to [recentReleases.sort]; it parses the text as
    it is, line break and time included. *)
Definition compareReleases (a b : Release) : Z :=
  match Date_parse (rawDateOrText a), Date_parse (rawDateOrText b) with
  | Some dateA, Some dateB => (dateB - dateA)%Z           (* Newest first *)
  | _, _ => localeCompare (rawDateOrText b) (rawDateOrText a)
  end.

(** *** fetchPressReleaseList *)

(** [axios.get(listUrl)] and [cheerio.load] *)
Definition axios_get_page : M Sys Cheerio :=
  Axios.request (fun s => (Ok (page s), s)).

Definition now : M Sys Z := fun s => (Ok (clock s), s).

Definition fetchPressReleaseList : M Sys (option (list Release)) :=
  retry
    (D <- axios_get_page ;;
     t <- now ;;
     let releases := snd (fst (parseListing D t)) in
     let cutoffDateStr := orElse
       (match onlyAfterDate config with Some v => v | None => [] end)
       (js "2025-06-27") in
     match Date_parse cutoffDateStr with
     | None => throw "RangeError: Invalid time value"
     | Some cutoffDate =>
       let recentReleases := filter (isRecent cutoffDate) releases in
       ret (sort compareReleases recentReleases)
     end)
    (euronext_retryAttempts config) (euronext_retryDelayMs config).

(** *** fetchPressReleaseContent *)

Definition quote : cunit := 34%N.

Definition fallbackContent (release : Release) : jsstring :=
  js "<h2>" ++ title release ++ js "</h2><p>Press release content from "
  ++ dateText release ++ js ". <a href=" ++ [quote] ++ url release ++ [quote]
  ++ js ">Read full article</a></p>".

Definition withContent (release : Release) (c : jsstring) (t : Z) : Release :=
  {| title := title release; dateText := dateText release;
     url := url release; nodeId := nodeId release; id := id release;
     rawDate := rawDate release;
     content := Some c;
     publishDate := Some (dateText release);
     scrapedAt := Some t |}.

Definition fallback (release : Release) : M Sys Release :=
  t <- now ;; ret (withContent release (fallbackContent release) t).

(** [puppeteer.launch()] *)
Definition launch : M Sys nat :=
  fun s =>
    let k := launches s in
    if launch_ok (sessions s k)
    then (Ok k, set_browsers s (S k) (browsers s ++ [k]))
    else (Throw "Failed to launch the browser process", set_browsers s (S k) (browsers s)).

(** A call on the page of browser [k] that returns nothing. *)
Definition step (ok : Session -> bool) (what : string) (k : nat) : M Sys unit :=
  fun s => if ok (sessions s k) then (Ok tt, s) else (Throw what, s).

Definition page_evaluate (k : nat) : M Sys (option jsstring) :=
  fun s => (evaluate (sessions s k), s).

(** [browser.close()] *)
Definition close (k : nat) : M Sys unit :=
  fun s =>
    if close_ok (sessions s k)
    then (Ok tt, set_browsers s (launches s) (remove Nat.eq_dec k (browsers s)))
    else (Throw "close failed", s).

(** The inner [try] block returns from the function when it has content:
    [Some] of the value returned, [None] to go on behind the block. *)
Definition fetchPressReleaseContent (release : Release) : M Sys Release :=
  match nodeId release with
  | None => fallback release
  | Some _ =>
    try_catch
      (browser <- launch ;;
       step newPage_ok "newPage" browser ;;
       step setUserAgent_ok "setUserAgent" browser ;;
       step setViewport_ok "setViewport" browser ;;
       step goto_ok "Navigation timeout of 30000 ms exceeded" browser ;;
       sleep 3000 ;;
       returned <-
         try_catch
           (step waitLink_ok "Waiting for selector failed" browser ;;
            step click_ok "No element found for selector" browser ;;
            step waitModal_ok "Waiting for selector failed" browser ;;
            sleep 2000 ;;
            content <- page_evaluate browser ;;
            close browser ;;
            match content with
            | Some (c :: r) =>
              t <- now ;; ret (Some (withContent release (c :: r) t))
            | _ => ret None
            end)
           (fun selectorError => ret None) ;;
       match returned with
       | Some full => ret full
       | None => close browser ;; fallback release
       end)
      (fun error => fallback release)
  end.

(** *** getLatestReleases *)

(** The body of the loop; [releasesWithContent] is the local variable. *)
Definition collect (release : Release) : M (Sys * list Release) unit :=
  try_catch
    (fullRelease <- lift (fetchPressReleaseContent release) ;;
     update (fun releasesWithContent => releasesWithContent ++ [fullRelease]) ;;
     lift (sleep 1000))
    (fun error => ret tt).

Definition getLatestReleases (limit : nat) : M Sys (list Release) :=
  try_catch
    (releases <- fetchPressReleaseList ;;
     match releases with
     | None => throw "TypeError: Cannot read properties of undefined (reading 'slice')"
     | Some releases =>
       let latestReleases := firstn limit releases in
       scope [] (for_of latestReleases collect ;; local)
     end)
    (fun error => throw error).

End WithHost.
End Scraper.

(** ** scraper.js, the direct-navigation variant

    The earlier [fetchPressReleaseContent] opens the release's own page.
    Its list parser differs from the one above in the acceptance test of a
    row only, and its [getLatestReleases] is the same. *)

Module ScraperDirect.
Import JS Eff Model Utils.
Local Open Scope eff_scope.

Section WithConfig.
Variable config : Config.

(** The function handed to [retry]: one attempt, in a browser of its own. *)
Definition attempt (release : Release) : M Sys Release :=
    (browser <- Scraper.launch ;;
     try_finally
       (Scraper.step newPage_ok "newPage" browser ;;
        Scraper.step setUserAgent_ok "setUserAgent" browser ;;
        Scraper.step goto_ok "Navigation timeout of 30000 ms exceeded" browser ;;
        Scraper.step waitForTimeout_ok "waitForTimeout" browser ;;
        mainContent <- Scraper.page_evaluate browser ;;
        s <- get ;;
        let c := match mainContent with Some c => c | None => [] end in
        if negb (nonEmpty c) || (length (trim c) <? 50) then
          throw "Could not extract substantial content from press release"
        else
          ret {| title := orElse (evaluate_title (sessions s browser)) (title release);
                 dateText := dateText release;
                 url := url release; nodeId := nodeId release;
                 id := id release; rawDate := rawDate release;
                 content := Some (cleanHtmlContent c);
                 publishDate :=
                   Some (orElse (evaluate_date (sessions s browser)) (dateText release));
                 scrapedAt := Some (clock s) |})
       (Scraper.close browser)).

Definition fetchPressReleaseContent (release : Release) : M Sys (option Release) :=
  retry (attempt release)
    (euronext_retryAttempts config) (euronext_retryDelayMs config).

End WithConfig.
End ScraperDirect.

(** ** webflow.js *)

Module Webflow.
Import JS Eff Model Utils.
Local Open Scope eff_scope.

(** *** The CMS behind the API

    The collection answers a listing request with all its items, stores a
    new item under the slug it is given, and, when it is strict about
    slugs, refuses a slug it already holds. *)

Definition get_collection : M Sys unit :=
  Axios.request (ret tt).

Definition get_items : M Sys (list Item) :=
  Axios.request (fun s => (Ok (items s), s)).

Definition holds (slug : jsstring) (l : list Item) : bool :=
  existsb (fun item => eqs (item_slug item) slug) l.

Definition post_item (isDraft : bool) (name slug : jsstring)
  (body : option jsstring) : M Sys Item :=
  Axios.request
    (fun s =>
       if strict_slugs s && holds slug (items s)
       then (Throw "Request failed with status code 400", s)
       else
         let item := {| item_id := length (items s); item_isDraft := isDraft;
                        item_name := name; item_slug := slug;
                        item_body := body; item_live := false |} in
         (Ok item, set_items s (items s ++ [item]))).

Definition go_live (itemId : nat) (item : Item) : Item :=
  if Nat.eqb (item_id item) itemId then
    {| item_id := item_id item; item_isDraft := item_isDraft item;
       item_name := item_name item; item_slug := item_slug item;
       item_body := item_body item; item_live := true |}
  else item.

Definition post_publish (itemId : nat) : M Sys unit :=
  Axios.request
    (fun s =>
       if existsb (fun item => Nat.eqb (item_id item) itemId) (items s)
       then (Ok tt, set_items s (map (go_live itemId) (items s)))
       else (Throw "Request failed with status code 404", s)).

(** [a.b.push(x)] on the results object. *)
Definition push_created (c : Created) (r : Results) : Results :=
  {| created := created r ++ [c]; skipped := skipped r; errors := errors r |}.

Definition push_skipped (x : Release) (r : Results) : Results :=
  {| created := created r; skipped := skipped r ++ [x]; errors := errors r |}.

Definition push_errors (f : Failed) (r : Results) : Results :=
  {| created := created r; skipped := skipped r; errors := errors r ++ [f] |}.

(** The loop of [createItems], which the two variants of the client share
    word for word but for the existence check they call and the pause
    after a creation.  [bulk_step] is the body of the loop; [results] is
    the local variable. *)
Definition bulk_step (itemExists : Release -> M Sys bool)
  (createItem : Release -> M Sys (option Item)) (pause : Z)
  (release : Release) : M (Sys * Results) unit :=
  try_catch
    (exists_ <- lift (itemExists release) ;;
     if exists_ : bool then
       update (push_skipped release)                        (* continue *)
     else
       createdItem <- lift (createItem release) ;;
       update (push_created {| release := release;
                               webflowItem := createdItem |}) ;;
       lift (sleep pause))
    (fun error =>
       update (push_errors {| failed_release := release; error := error |})).

Definition bulk (itemExists : Release -> M Sys bool)
  (createItem : Release -> M Sys (option Item)) (pause : Z)
  (pressReleases : list Release) : M Sys Results :=
  scope {| created := []; skipped := []; errors := [] |}
    (for_of pressReleases (bulk_step itemExists createItem pause) ;;
     local).

Section WithHost.
Context `{Host}.
Variable config : Config.

(** [title.toLowerCase().replace(/[^a-z0-9\\s-]/g, '').replace(/\\s+/g, '-')
      .replace(/-+/g, '-').trim('-').substring(0, 100)].
    In these literals [\\] is a backslash and [s] the letter: the class
    keeps lower-case letters, digits, the backslash and the hyphen, and
    the second pattern is a backslash followed by letters [s]. *)
Definition backslash : cunit := 92%N.

Definition generateSlug (title : jsstring) : jsstring :=
  substring0 100
    (trim
       (replaceAll (re_plus (N.eqb chDash)) [chDash]
          (replaceAll (re_then_plus backslash (N.eqb (ch "s"))) [chDash]
             (replaceAll
                (re_one (fun c => negb (isLower c || isDigit c
                                        || (c =? backslash)%N || (c =? chDash)%N)))
                []
                (toLowerCase title))))).

(** [new Date(publishDate)] does not throw, so [datePart] is empty when
    the date does not parse and the [catch] arm with [Date.now()] is never
    entered.  The getters read local time. *)
Definition generateUniqueSlug (title : jsstring) (publishDate : option jsstring)
  : jsstring :=
  let date := match publishDate with
              | Some d => Date_parse d
              | None => None
              end in
  let datePart :=
    match date with
    | Some t =>
      let '(y, m, d) := civil_from_days ((t + tzOffset t) / msPerDay) in
      [chDash] ++ decimal y ++ [chDash] ++ pad2 m ++ [chDash] ++ pad2 d
    | None => []
    end in
  let baseSlug := generateSlug title in
  substring0 100 (baseSlug ++ datePart).

Definition publishItem (itemId : nat) : M Sys (option unit) :=
  retry (post_publish itemId)
    (webflow_retryAttempts config) (webflow_retryDelayMs config).

(** [createItem], with the slug it puts into [fieldData]: the one
    expression in which the two variants of the function differ.  The id
    the CMS gives an item is never falsy, so [createdItem.id] adds nothing
    to the test before [publishItem]. *)
Definition createItemAs (slug : jsstring) (pressRelease : Release)
  : M Sys (option Item) :=
  retry
    (createdItem <-
       post_item (negb (publishImmediately config)) (title pressRelease)
         slug (content pressRelease) ;;
     (if publishImmediately config
      then publishItem (item_id createdItem) ;; ret tt
      else ret tt) ;;
     ret createdItem)
    (webflow_retryAttempts config) (webflow_retryDelayMs config).

Definition createItem (pressRelease : Release) : M Sys (option Item) :=
  createItemAs
    (generateUniqueSlug (title pressRelease) (publishDate pressRelease))
    pressRelease.

Definition itemExists (pressRelease : Release) : M Sys bool :=
  try_catch
    (l <- get_items ;;
     let uniqueSlug :=
       generateUniqueSlug (title pressRelease) (publishDate pressRelease) in
     ret (holds uniqueSlug l))
    (fun error => ret false).

Definition getCollectionInfo : M Sys unit :=
  try_catch get_collection (fun error => throw error).

Definition testConnection : M Sys bool :=
  try_catch (getCollectionInfo ;; ret true) (fun error => ret false).

Definition createItems (pressReleases : list Release) : M Sys Results :=
  bulk itemExists createItem 2000 pressReleases.

End WithHost.
End Webflow.

(** ** webflow.js, the earlier variant

    Slugs come from the title alone, and the existence check is handed the
    release id. *)

Module WebflowLegacy.
Import JS Eff Model Utils.
Local Open Scope eff_scope.

Section WithHost.
Context `{Host}.
Variable config : Config.

Definition createItem (pressRelease : Release) : M Sys (option Item) :=
  Webflow.createItemAs config
    (Webflow.generateSlug (title pressRelease)) pressRelease.

(** Check if any item has the same slug (which is generated from title) *)
Definition itemExists (pressReleaseId : jsstring) : M Sys bool :=
  try_catch
    (l <- Webflow.get_items ;;
     let slug := Webflow.generateSlug pressReleaseId in
     ret (Webflow.holds slug l))
    (fun error => ret false).

Definition createItems (pressReleases : list Release) : M Sys Results :=
  Webflow.bulk (fun release => itemExists (id release)) createItem 1000
    pressReleases.

End WithHost.
End WebflowLegacy.

(** ** index.js *)

Module Index.
Import JS Eff Model Utils.
Local Open Scope eff_scope.

(** How a run ends.  A run that completes reports the releases it
    extracted, those it found new, and the outcome of the publication, the
    figures of its closing log lines; [Exit1] is [process.exit(1)]. *)
Inductive Outcome :=
| OutsideHours
| NothingFound
| NothingNew
| Completed (allReleases newReleases : list Release) (results : Results)
| Exit1 (message : string).

Section WithHost.
Context `{Host}.
Variable config : Config.

Definition freshStore : Store := {|
  lastProcessed := None;
  processedReleases := [];
  stats := {| totalProcessed := 0; lastRunTime := None; stats_errors := [] |}
|}.

(** A file that is missing or does not parse gives the fresh store. *)
Definition loadProcessedData : M Sys Store :=
  fun s => (Ok (match disk s with Some data => data | None => freshStore end), s).

(** A write that fails is logged and otherwise ignored. *)
Definition saveProcessedData (data : Store) : M Sys unit :=
  fun s => (Ok tt, if disk_writable s then set_disk s (Some data) else s).

Definition filterNewReleases (releases : list Release) (processedData : Store)
  : list Release :=
  let processedIds := map p_id (processedReleases processedData) in
  filter (fun release => negb (existsb (eqs (id release)) processedIds)) releases.

(** [results.created.map(item => ({ ..., webflowId: item.webflowItem.id, ... }))];
    reading [id] of an [undefined] item throws. *)
Fixpoint processedEntries (t : Z) (l : list Created) : option (list Processed) :=
  match l with
  | [] => Some []
  | item :: rest =>
    match webflowItem item, processedEntries t rest with
    | Some w, Some entries =>
      Some ({| p_id := id (release item); p_title := title (release item);
               p_url := url (release item); p_webflowId := item_id w;
               p_processedAt := t |} :: entries)
    | _, _ => None
    end
  end.

Definition publishError (t : Z) (err : Failed) : ErrorEntry :=
  {| e_title := Some (title (failed_release err)); e_error := error err;
     e_timestamp := t; e_fatal := false |}.

Definition fatalError (t : Z) (message : string) : ErrorEntry :=
  {| e_title := None; e_error := message; e_timestamp := t; e_fatal := true |}.

Definition updatedProcessedData (processedData : Store) (t : Z)
  (entries : list Processed) (results : Results) : Store :=
  {| lastProcessed := Some t;
     processedReleases := processedReleases processedData ++ entries;
     stats :=
       {| totalProcessed :=
            totalProcessed (stats processedData) + length (created results);
          lastRunTime := Some t;
          stats_errors :=
            lastn 10
              (lastn 10 (stats_errors (stats processedData))    (* Keep last 10 errors *)
               ++ map (publishError t) (errors results)) |} |}.

(** [processedData.stats.errors.push({ error, timestamp, fatal: true })] *)
Definition withFatalError (processedData : Store) (t : Z) (message : string) : Store :=
  {| lastProcessed := lastProcessed processedData;
     processedReleases := processedReleases processedData;
     stats :=
       {| totalProcessed := totalProcessed (stats processedData);
          lastRunTime := lastRunTime (stats processedData);
          stats_errors :=
            stats_errors (stats processedData) ++ [fatalError t message] |} |}.

(** The [try] block of [run]. *)
Definition runSteps (testMode : bool) : M Sys Outcome :=
  processedData <- loadProcessedData ;;
  t <- Scraper.now ;;
  if negb testMode && negb (isWithinScheduledHours config t) then
    ret OutsideHours
  else
    webflowConnected <- Webflow.testConnection ;;
    if negb webflowConnected then throw "Failed to connect to Webflow API"
    else
      let limit := if testMode then 3 else 10 in
      allReleases <- Scraper.getLatestReleases config limit ;;
      if length allReleases =? 0 then ret NothingFound
      else
        let newReleases := filterNewReleases allReleases processedData in
        if length newReleases =? 0 then ret NothingNew
        else
          results <- Webflow.createItems config newReleases ;;
          t <- Scraper.now ;;
          match processedEntries t (created results) with
          | None =>
            throw "TypeError: Cannot read properties of undefined (reading 'id')"
          | Some entries =>
            saveProcessedData
              (updatedProcessedData processedData t entries results) ;;
            ret (Completed allReleases newReleases results)
          end.

(** The [catch] block of [run]: save the error, best effort, and exit. *)
Definition onFatal (message : string) : M Sys Outcome :=
  try_catch
    (processedData <- loadProcessedData ;;
     t <- Scraper.now ;;
     saveProcessedData (withFatalError processedData t message))
    (fun saveError => ret tt) ;;
  ret (Exit1 message).

Definition run (testMode : bool) : M Sys Outcome :=
  try_catch (runSteps testMode) onFatal.

End WithHost.
End Index.

(** ** Sample data *)

Module Sample.
Import JS Eff Model.
Local Open Scope string_scope.

Definition config : Config := {|
  listUrl := js "https://live.euronext.com/en/listview/company-press-release/62020";
  baseUrl := js "https://live.euronext.com";
  onlyAfterDate := Some (js "2025-06-27");
  euronext_retryAttempts := Some 3%nat;
  euronext_retryDelayMs := 2000;
  publishImmediately := false;
  webflow_retryAttempts := Some 3%nat;
  webflow_retryDelayMs := 1000;
  startHour := 6;
  endHour := 24
|}.

(** A listing whose rows are [.table-row] blocks: a header (node 1), a
    release (node 2), a row with too short a title (node 3); the page also
    has a [.row] layout block (node 4) with a heading. *)
Definition listing : Cheerio := {|
  query := fun sel =>
    if String.eqb sel ".table-row" then [1; 2; 3]%nat
    else if String.eqb sel ".row" then [4]%nat
    else [];
  find := fun n sel =>
    if Nat.eqb n 1 then (if String.eqb sel "th" then [10]%nat else [])
    else if Nat.eqb n 2 then
      (if String.eqb sel "td:nth-child(3)" then [20]%nat
       else if String.eqb sel "td:first-child" then [22]%nat
       else if String.eqb sel "a" then [21]%nat
       else [])
    else if Nat.eqb n 3 then
      (if String.eqb sel "td:nth-child(3)" then [30]%nat else [])
    else if Nat.eqb n 4 then (if String.eqb sel "h3" then [40]%nat else [])
    else if Nat.eqb n 20 then (if String.eqb sel "a" then [21]%nat else [])
    else [];
  text := fun n =>
    if Nat.eqb n 20 then js "  Protector Forsikring ASA: Q2 2025 results "
    else if Nat.eqb n 22 then (js "27 Jun 2025" ++ [chNl] ++ js "07:45 CEST")%list
    else if Nat.eqb n 30 then js "Notice"
    else if Nat.eqb n 40 then js "Company press releases"
    else [];
  attr := fun n name =>
    if Nat.eqb n 21 then
      (if String.eqb name "href" then Some (js "/en/pd_press/1234567")
       else if String.eqb name "data-node-nid" then Some (js "1234567")
       else None)
    else None
|}.

(** A browser session in which every call goes through and the modal
    holds [c]. *)
Definition session (c : option jsstring) : Session := {|
  launch_ok := true; newPage_ok := true; setUserAgent_ok := true;
  setViewport_ok := true; goto_ok := true; waitForTimeout_ok := true;
  waitLink_ok := true; click_ok := true; waitModal_ok := true;
  evaluate := Ok c; evaluate_title := []; evaluate_date := [];
  close_ok := true
|}.

(** A session whose navigation to the listing times out. *)
Definition session_timeout : Session := {|
  launch_ok := true; newPage_ok := true; setUserAgent_ok := true;
  setViewport_ok := true; goto_ok := false; waitForTimeout_ok := true;
  waitLink_ok := true; click_ok := true; waitModal_ok := true;
  evaluate := Ok None; evaluate_title := []; evaluate_date := [];
  close_ok := true
|}.

(** A fresh world: an answering network, an empty collection, no browser
    running, no state file yet. *)
Definition world (ss : nat -> Session) : Sys := {|
  net := fun _ => true; reqs := 0; clock := 1751010300000;
  page := listing; items := []; strict_slugs := true;
  sessions := ss; launches := 0; browsers := [];
  disk := None; disk_writable := true
|}.

Definition release (t d : string) : Release := {|
  title := js t; dateText := orElse (js d) (js "Unknown date");
  url := js "#"; nodeId := None;
  id := []; rawDate := js d;
  content := None; publishDate := None; scrapedAt := None
|}.

Definition on_cutoff : Release :=
  release "Q2 2025 results"
    (String.append "27 Jun 2025" (String "010"%char "07:45 CEST")).
Definition day_before : Release := release "Share buy-back" "26 Jun 2025".
Definition undated : Release := release "Notice of meeting" "".

(** Three releases of a listing that prints the time of day for one of
    them only. *)
Definition jan09 : Release := release "Share buy-back" "9 Jan 2025".
Definition jan05_timed : Release :=
  release "Notice of meeting"
    (String.append "5 Jan 2025" (String "010"%char "07:45 CEST")).
Definition jan10 : Release := release "Q4 2024 results" "10 Jan 2025".

Definition jan02 : Release := release "Share buy-back" "2025-01-02".
Definition jan05 : Release := release "Q4 2024 results" "2025-01-05".

(** A release of the listing, with the node id of its modal. *)
Definition modal_release : Release := {|
  title := js "Protector Forsikring ASA: Q2 2025 results";
  dateText := js "27 Jun 2025";
  url := js "https://live.euronext.com/en/pd_press/1234567";
  nodeId := Some (js "1234567");
  id := js "2025-06-27-protector-forsikring-asa--q2-2025-results";
  rawDate := js "27 Jun 2025";
  content := None; publishDate := None; scrapedAt := None
|}.

(** The same release after the content step. *)
Definition full_release : Release :=
  Scraper.withContent modal_release
    (js "<div class=press-release-content><p>Second quarter results.</p></div>")
    1751010300000.

(** The same world with a CMS that takes any slug. *)
Definition lenient_world : Sys := {|
  net := fun _ => true; reqs := 0; clock := 1751010300000;
  page := listing; items := []; strict_slugs := false;
  sessions := fun _ => session None; launches := 0; browsers := [];
  disk := None; disk_writable := true
|}.

(** A state file whose error history is full: ten failed runs. *)
Definition full_history : Store := {|
  lastProcessed := None;
  processedReleases := [];
  stats := {| totalProcessed := 0; lastRunTime := None;
              stats_errors :=
                map (fun t => Index.fatalError t "Failed to connect to Webflow API")
                  [1; 2; 3; 4; 5; 6; 7; 8; 9; 10]%Z |}
|}.

(** The world of a run that finds that file and an API that does not
    answer. *)
Definition offline_world : Sys := {|
  net := fun _ => false; reqs := 0; clock := 1751010300000;
  page := listing; items := []; strict_slugs := true;
  sessions := fun _ => session None; launches := 0; browsers := [];
  disk := Some full_history; disk_writable := true
|}.

(** A listing table of five releases, dated 1 to 5 July 2025, oldest
    first. *)
Definition long_listing : Cheerio := {|
  query := fun sel =>
    if String.eqb sel "tr" then [1; 2; 3; 4; 5]%nat else [];
  find := fun n sel =>
    if (Nat.leb 1 n && Nat.leb n 5)%bool then
      (if String.eqb sel "td:nth-child(3)" then [100 + n]%nat
       else if String.eqb sel "td:first-child" then [200 + n]%nat
       else [])
    else [];
  text := fun n =>
    if (Nat.leb 101 n && Nat.leb n 105)%bool then
      (js "Press release number " ++ [N.of_nat (n - 100 + 48)])%list
    else if (Nat.leb 201 n && Nat.leb n 205)%bool then
      (js "0" ++ [N.of_nat (n - 200 + 48)] ++ js " Jul 2025")%list
    else [];
  attr := fun _ _ => None
|}.

Definition long_world : Sys := {|
  net := fun _ => true; reqs := 0; clock := 1751788800000;
  page := long_listing; items := []; strict_slugs := true;
  sessions := fun _ => session None; launches := 0; browsers := [];
  disk := None; disk_writable := true
|}.

End Sample.

(** ** The vocabulary of the properties *)

Module Spec.
Import JS Eff Model.

(** *** Clean HTML *)

(** White space in normal form: every white-space unit is a plain space
    and is followed by no other white space. *)
Fixpoint ws_normal (s : jsstring) : bool :=
  match s with
  | [] => true
  | c :: r =>
    if isSpace c then (c =? chSp)%N && (run isSpace r =? 0) && ws_normal r
    else ws_normal r
  end.

(** No position of [s] starts a match of [/>\s+</]. *)
Fixpoint gap_free (s : jsstring) : bool :=
  match s with
  | [] => true
  | _ :: r =>
    match re_between chGt isSpace chLt s with
    | Some (S _) => false
    | _ => gap_free r
    end
  end.

(** *** The list parser *)

Section OnPage.
Context `{Host}.
Variable config : Config.
Variable D : Cheerio.
Variable now : Z.

(** The records the rows of a selection yield, in document order. *)
Definition rowRecords (rows : list nat) : list Release :=
  flat_map (fun el => match Scraper.parseRow config D now el with
                      | Some r => [r]
                      | None => []
                      end) rows.

(** The records a row selector yields on the page. *)
Definition recordsOf (selector : string) : list Release :=
  rowRecords (query D selector).

End OnPage.

(** *** The sort *)

Section OnHost.
Context `{Host}.

(** The time value the comparator reads off a release. *)
Definition dateOf (r : Release) : option Z := Date_parse (Scraper.rawDateOrText r).



(** The order of a pair [a] before [b] that the specification asks of the
    output: the later date first when both texts parse, the greater text
    first otherwise. *)
Definition mayPrecede (a b : Release) : Prop :=
  match dateOf a, dateOf b with
  | Some ta, Some tb => (tb <= ta)%Z
  | _, _ =>
    (0 <= localeCompare (Scraper.rawDateOrText a) (Scraper.rawDateOrText b))%Z
  end.


(** The slug of a record: what the client derives for it, at the lookup
    and at the creation alike. *)
Definition slugOf (r : Release) : jsstring :=
  Webflow.generateUniqueSlug (title r) (publishDate r).

End OnHost.

(** *** The world *)

(** Browsers are numbered in the order of their launch: a running browser
    has a number below the next one. *)
Definition browsers_wf (s : Sys) : Prop :=
  Forall (fun b => b < launches s) (browsers s).

Definition slugs (s : Sys) : list jsstring := map item_slug (items s).

(** Every request is answered. *)
Definition reliable (s : Sys) : Prop := forall k, net s k = true.

(** The store on disk, as [loadProcessedData] reads it. *)
Definition stored (s : Sys) : Store :=
  match disk s with Some data => data | None => Index.freshStore end.

(** *** Results and outcomes *)


Definition bucket_sizes (r : Results) : nat :=
  length (created r) + length (skipped r) + length (errors r).

(** Where a single record goes, in the words of the specification: an
    existence hit sends it to [skipped], a creation that returns to
    [created], an exception from either call to [errors]. *)
Definition routed (itemExists : Release -> M Sys bool)
  (createItem : Release -> M Sys (option Item)) (pause : Z)
  (x : Release) (s : Sys) : Result Results * Sys :=
  match itemExists x s with
  | (Ok true, s1) =>
    (Ok {| created := []; skipped := [x]; errors := [] |}, s1)
  | (Ok false, s1) =>
    match createItem x s1 with
    | (Ok item, s2) =>
      (Ok {| created := [{| release := x; webflowItem := item |}];
             skipped := []; errors := [] |},
       set_clock s2 (clock s2 + pause)%Z)
    | (Throw e, s2) =>
      (Ok {| created := []; skipped := [];
             errors := [{| failed_release := x; error := e |}] |}, s2)
    end
  | (Throw e, s1) =>
    (Ok {| created := []; skipped := [];
           errors := [{| failed_release := x; error := e |}] |}, s1)
  end.


(** The releases a run extracted and the number it sent to the
    publisher, by its outcome. *)
Definition extracted (o : Index.Outcome) : list Release :=
  match o with
  | Index.Completed allReleases _ _ => allReleases
  | _ => []
  end.

Definition published (o : Index.Outcome) : nat :=
  match o with
  | Index.Completed _ _ results => bucket_sizes results
  | _ => 0
  end.


(** Two calls in a row on the same records: the two results and the
    collection they leave. *)
Definition twice (createItems : list Release -> M Sys Results)
  (l : list Release) (s : Sys) : Result Results * Result Results * list Item :=
  let '(r1, s1) := createItems l s in
  let '(r2, s2) := createItems l s1 in
  (r1, r2, items s2).

Definition sizes (r : Result Results) : option (nat * nat * nat) :=
  match r with
  | Ok x => Some (length (created x), length (skipped x), length (errors x))
  | Throw _ => None
  end.

End Spec.

(** ** webflow.js: [formatDate] *)

Module WebflowDates.
Import JS Eff Model.

Definition isUpper (c : cunit) : bool := ((65 <=? c) && (c <=? 90))%N.

(** [\w] *)
Definition isWord (c : cunit) : bool :=
  isLower c || isUpper c || isDigit c || (c =? ch "_")%N.

(** [new Date(t).toISOString()] *)
Definition toISOString (t : Z) : jsstring :=
  let tod := (t mod msPerDay)%Z in
  isoDate t ++ js "T" ++ pad2 (tod / 3600000) ++ js ":"
  ++ pad2 ((tod / 60000) mod 60) ++ js ":" ++ pad2 ((tod / 1000) mod 60)
  ++ js "." ++ digits 3 (tod mod 1000) ++ js "Z".

(** [/(\d{1,2})\s+(\w{3})\s+(\d{4})/] tried at the start of [s]: the three
    groups of the match.  Each quantifier takes all it can and giving back
    never helps: behind a shorter run of digits stands a digit and behind
    a shorter run of white space stands white space, where the pattern
    asks for white space, for a word unit, for a digit. *)
Definition matchDateAt (s : jsstring) : option (jsstring * jsstring * jsstring) :=
  let d := Nat.min 2 (run isDigit s) in
  let rest1 := skipn d s in
  let rest2 := skipn (run isSpace rest1) rest1 in
  let rest3 := skipn 3 rest2 in
  let rest4 := skipn (run isSpace rest3) rest3 in
  if Nat.leb 1 d && Nat.leb 1 (run isSpace rest1)
     && Nat.eqb (length (firstn 3 rest2)) 3 && forallb isWord (firstn 3 rest2)
     && Nat.leb 1 (run isSpace rest3)
     && Nat.eqb (length (firstn 4 rest4)) 4 && forallb isDigit (firstn 4 rest4)
  then Some (firstn d s, firstn 3 rest2, firstn 4 rest4)
  else None.

(** [dateString.match(...)]: the leftmost match. *)
Fixpoint matchDate (s : jsstring) : option (jsstring * jsstring * jsstring) :=
  match matchDateAt s with
  | Some groups => Some groups
  | None =>
    match s with
    | [] => None
    | _ :: r => matchDate r
    end
  end.

Definition monthMap : list (string * string) :=
  [("Jan", "01"); ("Feb", "02"); ("Mar", "03"); ("Apr", "04");
   ("May", "05"); ("Jun", "06"); ("Jul", "07"); ("Aug", "08");
   ("Sep", "09"); ("Oct", "10"); ("Nov", "11"); ("Dec", "12")]%string.

(** [`${monthMap[month]}`]: a key the map does not have prints as
    [undefined]. *)
Fixpoint monthText (map : list (string * string)) (month : jsstring) : jsstring :=
  match map with
  | [] => js "undefined"
  | (name, number) :: rest =>
    if eqs (js name) month then js number else monthText rest month
  end.

(** [day.padStart(2, '0')] *)
Definition padStart2 (day : jsstring) : jsstring :=
  match day with
  | [d] => [ch "0"; d]
  | [] => js "00"
  | _ => day
  end.

Section WithHost.
Context `{Host}.

(** [formatDate(dateString)], called when the clock reads [now].  Nothing
    in the [try] block throws on a string or on [undefined], so the
    [catch] arm is never entered. *)
Definition formatDate (now : Z) (dateString : option jsstring) : jsstring :=
  match dateString with
  | None | Some [] => toISOString now
  | Some dateString =>
    match Date_parse dateString with
    | Some t => toISOString t
    | None =>
      match matchDate dateString with
      | Some (day, month, year) =>
        year ++ js "-" ++ monthText monthMap month ++ js "-" ++ padStart2 day
        ++ js "T12:00:00.000Z"
      | None => toISOString now
      end
    end
  end.

End WithHost.
End WebflowDates.

(** ** index.js: the health check *)

Module Health.
Import JS Eff Model Utils.
Local Open Scope eff_scope.

Section WithHost.
Context `{Host}.
Variable config : Config.

Definition healthCheck : M Sys bool :=
  try_catch
    (webflowConnected <- Webflow.testConnection ;;
     if negb webflowConnected then throw "Webflow connection failed"
     else
       Scraper.fetchPressReleaseList config ;;
       ret true)
    (fun error => ret false).

End WithHost.
End Health.

(** ** The vocabulary of the further properties *)

Module Notions.
Import JS Eff Model.

(** The units a release key is made of: lower-case letters, digits, the
    hyphen, and the plus sign of a year beyond 9999. *)
Definition keyUnit (c : cunit) : bool :=
  isLower c || isDigit c || (c =? chDash)%N || (c =? ch "+")%N.

(** The units a slug is made of: lower-case letters, digits, the backslash
    and the hyphen. *)
Definition slugUnit (c : cunit) : bool :=
  isLower c || isDigit c || (c =? Webflow.backslash)%N || (c =? chDash)%N.

(** What every record of the list parser has: a title of more than ten
    units with no white space at either end, a date text and a link that
    are not empty, a key of at most 100 units of the key alphabet, no
    content yet, and, when the row carries a node id, the press-release
    link made from it. *)
Definition wellFormed (r : Release) : Prop :=
  10 < length (title r)
  /\ run isSpace (title r) = 0 /\ run isSpace (rev (title r)) = 0
  /\ dateText r <> [] /\ url r <> []
  /\ length (id r) <= 100 /\ forallb keyUnit (id r) = true
  /\ content r = None /\ publishDate r = None
  /\ (forall n, nodeId r = Some n ->
        n <> []
        /\ url r = (js "https://live.euronext.com/en/pd_press/" ++ n)%list).

(** *** Invariants of the world *)

(** A computation keeps a property of the world when the world it leaves
    has the property whenever the world it started in had it, whether it
    returns or throws. *)
Definition keeps {A} (I : Sys -> Prop) (m : M Sys A) : Prop :=
  forall s, I s -> I (snd (m s)).

(** The same for a computation that runs with a local variable in
    scope. *)
Definition keeps_local {L A} (I : Sys -> Prop) (m : M (Sys * L) A) : Prop :=
  forall s l, I s -> I (fst (snd (m (s, l)))).

(** Properties that do not depend on the request count, on the clock, on
    the browsers, on the collection. *)
Definition ignores_reqs (I : Sys -> Prop) : Prop :=
  forall s n, I s -> I (set_reqs s n).
Definition ignores_clock (I : Sys -> Prop) : Prop :=
  forall s t, I s -> I (set_clock s t).
Definition ignores_browsers (I : Sys -> Prop) : Prop :=
  forall s n l, I s -> I (set_browsers s n l).
Definition ignores_items (I : Sys -> Prop) : Prop :=
  forall s l, I s -> I (set_items s l).

End Notions.

(** ** More sample data *)

Module Cases.
Import JS Eff Model.
Local Open Scope string_scope.

(** A network that drops the first two requests and answers from the
    third on. *)
Definition flaky_world : Sys := {|
  net := fun k => Nat.leb 2 k; reqs := 0; clock := 1751010300000;
  page := Sample.long_listing; items := []; strict_slugs := true;
  sessions := fun _ => Sample.session None; launches := 0; browsers := [];
  disk := None; disk_writable := true
|}.

(** A configuration whose cutoff date is no date. *)
Definition bad_cutoff_config : Config := {|
  listUrl := listUrl Sample.config;
  baseUrl := baseUrl Sample.config;
  onlyAfterDate := Some (js "last week");
  euronext_retryAttempts := Some 3%nat;
  euronext_retryDelayMs := 2000;
  publishImmediately := false;
  webflow_retryAttempts := Some 3%nat;
  webflow_retryDelayMs := 1000;
  startHour := 6;
  endHour := 24
|}.


(** A configuration that publishes what it creates. *)
Definition publish_config : Config := {|
  listUrl := listUrl Sample.config;
  baseUrl := baseUrl Sample.config;
  onlyAfterDate := Some (js "2025-06-27");
  euronext_retryAttempts := Some 3%nat;
  euronext_retryDelayMs := 2000;
  publishImmediately := true;
  webflow_retryAttempts := Some 3%nat;
  webflow_retryDelayMs := 1000;
  startHour := 6;
  endHour := 24
|}.

(** A window meant to run from ten in the evening to six in the
    morning. *)
Definition wrap_config : Config := {|
  listUrl := listUrl Sample.config;
  baseUrl := baseUrl Sample.config;
  onlyAfterDate := Some (js "2025-06-27");
  euronext_retryAttempts := Some 3%nat;
  euronext_retryDelayMs := 2000;
  publishImmediately := false;
  webflow_retryAttempts := Some 3%nat;
  webflow_retryDelayMs := 1000;
  startHour := 22;
  endHour := 6
|}.

(** The item of [Sample.full_release], as a first run left it. *)
Definition held_item : Item := {|
  item_id := 0; item_isDraft := true;
  item_name := title Sample.full_release;
  item_slug := js "protectorforsikringasaq22025results-2025-06-27";
  item_body := content Sample.full_release; item_live := false
|}.

(** A collection that holds it, a CMS that takes any slug, and a network
    that drops one request. *)
Definition glitch_world : Sys := {|
  net := fun k => Nat.leb 1 k; reqs := 0; clock := 1751010300000;
  page := Sample.listing; items := [held_item]; strict_slugs := false;
  sessions := fun _ => Sample.session None; launches := 0; browsers := [];
  disk := None; disk_writable := true
|}.

(** Three in the morning, UTC, on 27 June 2025. *)
Definition night_world : Sys := {|
  net := fun _ => true; reqs := 0; clock := 1750993200000;
  page := Sample.long_listing; items := []; strict_slugs := true;
  sessions := fun _ => Sample.session None; launches := 0; browsers := [];
  disk := None; disk_writable := true
|}.

(** A listing page on which no selector finds anything. *)
Definition blank_page : Cheerio := {|
  query := fun _ => []; find := fun _ _ => []; text := fun _ => [];
  attr := fun _ _ => None
|}.

Definition blank_world : Sys := {|
  net := fun _ => true; reqs := 0; clock := 1751010300000;
  page := blank_page; items := []; strict_slugs := true;
  sessions := fun _ => Sample.session None; launches := 0; browsers := [];
  disk := None; disk_writable := true
|}.

(** A title of 120 letters. *)
Definition long_title : jsstring := repeat (ch "a") 120.

(** The page of a release, as the direct-navigation variant reads it. *)
Definition article : jsstring :=
  js "<div class=content>  <p>Protector Forsikring ASA reports its results for the second quarter.</p>  </div>".

Definition article_world : Sys :=
  Sample.world (fun _ => Sample.session (Some article)).

Definition article_release : Release := {|
  title := title Sample.modal_release;
  dateText := dateText Sample.modal_release;
  url := url Sample.modal_release;
  nodeId := nodeId Sample.modal_release;
  id := id Sample.modal_release;
  rawDate := rawDate Sample.modal_release;
  content := Some (Utils.cleanHtmlContent article);
  publishDate := Some (dateText Sample.modal_release);
  scrapedAt := Some 1751010300000%Z
|}.

End Cases.


(* ================================================================== *)
(** * Part II. Properties                                              *)
(* ================================================================== *)

Import JS Eff Model Spec.

Example isoDate_sample :
  isoDate 1751010300000%Z = js "2025-06-27"
  /\ Date_parse (Host := sample_host) (js "2025-06-27") = Some 1750982400000%Z
  /\ Date_parse (Host := sample_host) (js "27 Jun 2025") = Some 1750982400000%Z
  /\ Date_parse (Host := sample_host) (js "unknown") = None.
Proof. repeat split; vm_compute; reflexivity. Qed.

Example generateReleaseId_sample :
  Utils.generateReleaseId (H := sample_host) 0%Z
    (js "Protector Forsikring ASA: Q2 2025") (js "27 Jun 2025")
  = js "2025-06-27-protector-forsikring-asa--q2-2025".
Proof. vm_compute. reflexivity. Qed.

Example cleanHtmlContent_sample :
  Utils.cleanHtmlContent (js "  <p>  a   b </p>
   <p>c</p>  ") = js "<p> a b </p><p>c</p>".
Proof. reflexivity. Qed.

(** ** cleanHtmlContent *)

Section CleanHtml.

Let collapse := replaceAll (re_plus isSpace) [chSp].
Let degap := replaceAll (re_between chGt isSpace chLt) [chGt; chLt].

Lemma run_dropWhile p s : skipn (run p s) s = dropWhile p s.
Proof.
  induction s as [|c r IH]; simpl; [reflexivity|].
  destruct (p c); simpl; auto.
Qed.

Lemma run_0_dropWhile p s : run p s = 0 -> dropWhile p s = s.
Proof.
  destruct s as [|c r]; simpl; [reflexivity|].
  destruct (p c); [discriminate|reflexivity].
Qed.

Lemma ws_normal_tail c r : ws_normal (c :: r) = true -> ws_normal r = true.
Proof.
  simpl. destruct (isSpace c); [|auto].
  intros H. apply andb_true_iff in H. apply H.
Qed.

(** *** Step 1: [/\s+/g -> ' '] *)

Lemma replace_go_0 m rep c r :
  replace_go m rep 0 (c :: r)
  = match m (c :: r) with
    | Some (S n) => rep ++ replace_go m rep n r
    | _ => c :: replace_go m rep 0 r
    end.
Proof. reflexivity. Qed.

Lemma re_plus_space c r :
  isSpace c = true -> re_plus isSpace (c :: r) = Some (S (run isSpace r)).
Proof. intros H. unfold re_plus. simpl. now rewrite H. Qed.

Lemma re_plus_other c r :
  isSpace c = false -> re_plus isSpace (c :: r) = None.
Proof. intros H. unfold re_plus. simpl. now rewrite H. Qed.

Lemma collapse_go_normal s : forall k,
  ws_normal (replace_go (re_plus isSpace) [chSp] k s) = true
  /\ (k = run isSpace s ->
      run isSpace (replace_go (re_plus isSpace) [chSp] k s) = 0).
Proof.
  induction s as [|c r IH]; intros k; [split; reflexivity|].
  destruct k as [|k].
  - rewrite replace_go_0. destruct (isSpace c) eqn:Hc.
    + rewrite re_plus_space by exact Hc.
      destruct (IH (run isSpace r)) as [Hn Hr].
      split; [|simpl; rewrite Hc; discriminate].
      change ([chSp] ++ ?t) with (chSp :: t).
      cbn [ws_normal]. rewrite Hn, Hr by reflexivity. reflexivity.
    + rewrite re_plus_other by exact Hc.
      destruct (IH 0) as [Hn _].
      split; [cbn [ws_normal]; rewrite Hc; exact Hn|].
      intros _. cbn [run]. rewrite Hc. reflexivity.
  - cbn [replace_go]. destruct (IH k) as [Hn Hr]. split; [exact Hn|].
    cbn [run]. destruct (isSpace c); [|discriminate].
    intros E. apply Hr. congruence.
Qed.

Lemma collapse_normal s : ws_normal (collapse s) = true.
Proof. apply collapse_go_normal. Qed.

Lemma collapse_fixed s : ws_normal s = true -> collapse s = s.
Proof.
  unfold collapse, replaceAll.
  induction s as [|c r IH]; [reflexivity|].
  intros H. pose proof (ws_normal_tail _ _ H) as Hr.
  rewrite replace_go_0. cbn [ws_normal] in H.
  destruct (isSpace c) eqn:Hc.
  - rewrite re_plus_space by exact Hc.
    apply andb_true_iff in H. destruct H as [H _].
    apply andb_true_iff in H. destruct H as [Hs H0].
    apply N.eqb_eq in Hs. apply Nat.eqb_eq in H0.
    rewrite H0. cbn [app]. rewrite IH by exact Hr. congruence.
  - rewrite re_plus_other by exact Hc.
    rewrite IH by exact Hr. reflexivity.
Qed.

(** *** Step 2: [/>\s+</g -> '><'] *)

Lemma between_head c r n :
  re_between chGt isSpace chLt (c :: r) = Some n -> c = chGt.
Proof.
  simpl. destruct (c =? chGt)%N eqn:E; [|discriminate].
  intros _. now apply N.eqb_eq.
Qed.

(** The pass leaves the leading white space of its input, and the unit
    behind it, where they are. *)
Lemma degap_prefix s :
  run isSpace (degap s) = run isSpace s
  /\ nth_error (degap s) (run isSpace s) = nth_error s (run isSpace s).
Proof.
  unfold degap, replaceAll.
  induction s as [|c r [IH1 IH2]]; [split; reflexivity|].
  cbn [replace_go].
  destruct (re_between chGt isSpace chLt (c :: r)) as [[|n]|] eqn:E.
  - cbn [run]. destruct (isSpace c); [|split; reflexivity].
    rewrite IH1. split; [reflexivity|exact IH2].
  - apply between_head in E. subst c. split; reflexivity.
  - cbn [run]. destruct (isSpace c); [|split; reflexivity].
    rewrite IH1. split; [reflexivity|exact IH2].
Qed.

Lemma between_degap c r :
  re_between chGt isSpace chLt (c :: degap r)
  = re_between chGt isSpace chLt (c :: r).
Proof.
  destruct (degap_prefix r) as [H1 H2].
  unfold re_between. rewrite H1.
  destruct (run isSpace r); [reflexivity|].
  rewrite H2. reflexivity.
Qed.

Lemma degap_go_gap_free s : forall k,
  gap_free (replace_go (re_between chGt isSpace chLt) [chGt; chLt] k s) = true.
Proof.
  induction s as [|c r IH]; intros k; [reflexivity|].
  destruct k as [|k]; cbn [replace_go]; [|apply IH].
  destruct (re_between chGt isSpace chLt (c :: r)) as [[|n]|] eqn:E.
  - cbn [gap_free]. fold (replaceAll (re_between chGt isSpace chLt) [chGt; chLt] r).
    fold (degap r). rewrite between_degap, E. apply IH.
  - cbn [app]. set (t := replace_go _ _ n r).
    assert (Ht : gap_free t = true) by apply IH.
    cbn. exact Ht.
  - cbn [gap_free]. fold (replaceAll (re_between chGt isSpace chLt) [chGt; chLt] r).
    fold (degap r). rewrite between_degap, E. apply IH.
Qed.

Lemma degap_gap_free s : gap_free (degap s) = true.
Proof. apply degap_go_gap_free. Qed.

Lemma degap_fixed s : gap_free s = true -> degap s = s.
Proof.
  unfold degap, replaceAll.
  induction s as [|c r IH]; [reflexivity|].
  cbn [gap_free replace_go].
  destruct (re_between chGt isSpace chLt (c :: r)) as [[|n]|];
    try discriminate; intros H; rewrite IH by exact H; reflexivity.
Qed.

Lemma degap_go_normal s : forall k,
  ws_normal s = true ->
  ws_normal (replace_go (re_between chGt isSpace chLt) [chGt; chLt] k s) = true.
Proof.
  induction s as [|c r IH]; intros k H; [reflexivity|].
  pose proof (ws_normal_tail _ _ H) as Hr.
  destruct k as [|k]; cbn [replace_go]; [|apply IH; exact Hr].
  assert (Hkeep : ws_normal (c :: degap r) = true).
  { simpl in H |- *. destruct (isSpace c); [|apply IH; exact Hr].
    destruct (degap_prefix r) as [H1 _]. rewrite H1.
    apply andb_true_iff in H. destruct H as [H _]. rewrite H.
    apply IH; exact Hr. }
  destruct (re_between chGt isSpace chLt (c :: r)) as [[|n]|] eqn:E;
    try exact Hkeep.
  cbn [app]. cbn. apply IH; exact Hr.
Qed.

Lemma degap_normal s : ws_normal s = true -> ws_normal (degap s) = true.
Proof. apply degap_go_normal. Qed.

(** *** Step 3: [trim] *)

Lemma run_after_dropWhile p s : run p (dropWhile p s) = 0.
Proof.
  induction s as [|c r IH]; simpl; [reflexivity|].
  destruct (p c) eqn:E; [exact IH|]. simpl. now rewrite E.
Qed.

Lemma trimEnd_head s d t : trimEnd s = d :: t -> exists r, s = d :: r.
Proof.
  destruct s as [|c r]; simpl; [discriminate|].
  destruct (trimEnd r); [destruct (isSpace c)|]; intros E;
    inversion E; subst; eauto.
Qed.

Lemma trimEnd_prefix s : exists tl, s = trimEnd s ++ tl.
Proof.
  induction s as [|c r [tl IH]]; [exists []; reflexivity|].
  simpl. destruct (trimEnd r) as [|d t].
  - destruct (isSpace c); [exists (c :: r)|exists r]; reflexivity.
  - exists tl. simpl in IH |- *. now f_equal.
Qed.

Lemma trimEnd_idem s : trimEnd (trimEnd s) = trimEnd s.
Proof.
  induction s as [|c r IH]; [reflexivity|].
  simpl. destruct (trimEnd r) as [|d t] eqn:E.
  - destruct (isSpace c) eqn:Hc; simpl; [reflexivity|now rewrite Hc].
  - change (trimEnd (c :: d :: t)) with
      (match trimEnd (d :: t) with
       | [] => if isSpace c then [] else [c]
       | u => c :: u
       end).
    rewrite IH. reflexivity.
Qed.

Lemma trimEnd_run s : run isSpace s = 0 -> run isSpace (trimEnd s) = 0.
Proof.
  destruct s as [|c r]; [reflexivity|].
  simpl. destruct (isSpace c) eqn:Hc; [discriminate|]. intros _.
  destruct (trimEnd r); simpl; now rewrite Hc.
Qed.

Lemma trim_fixed s : trim (trim s) = trim s.
Proof.
  unfold trim, trimStart.
  rewrite (run_0_dropWhile isSpace (trimEnd (dropWhile isSpace s))).
  - apply trimEnd_idem.
  - apply trimEnd_run, run_after_dropWhile.
Qed.

Lemma ws_normal_dropWhile p s :
  ws_normal s = true -> ws_normal (dropWhile p s) = true.
Proof.
  induction s as [|c r IH]; [reflexivity|].
  intros H. cbn [dropWhile]. destruct (p c); [|exact H].
  apply IH. eapply ws_normal_tail; eauto.
Qed.

Lemma gap_free_tail c r : gap_free (c :: r) = true -> gap_free r = true.
Proof.
  cbn [gap_free].
  destruct (re_between chGt isSpace chLt (c :: r)) as [[|n]|];
    auto; discriminate.
Qed.

Lemma gap_free_dropWhile p s :
  gap_free s = true -> gap_free (dropWhile p s) = true.
Proof.
  induction s as [|c r IH]; [reflexivity|].
  intros H. cbn [dropWhile]. destruct (p c); [|exact H].
  apply IH. eapply gap_free_tail; eauto.
Qed.

Lemma ws_normal_prefix a b : ws_normal (a ++ b) = true -> ws_normal a = true.
Proof.
  induction a as [|c a IH]; [reflexivity|].
  cbn [app ws_normal]. destruct (isSpace c); [|exact IH].
  intros H. apply andb_true_iff in H. destruct H as [H Hn].
  apply andb_true_iff in H. destruct H as [Hc H0].
  rewrite Hc, (IH Hn), andb_true_r. simpl.
  destruct a as [|d a]; [reflexivity|].
  cbn [app run] in H0 |- *. destruct (isSpace d); [discriminate|reflexivity].
Qed.

Lemma run_prefix p a b d :
  nth_error a (run p a) = Some d ->
  run p (a ++ b) = run p a /\ nth_error (a ++ b) (run p a) = Some d.
Proof.
  induction a as [|c a IH]; [discriminate|].
  cbn [app run]. destruct (p c).
  - cbn [nth_error]. intros H. destruct (IH H) as [E1 E2].
    rewrite E1. split; [reflexivity|exact E2].
  - intros H. split; [reflexivity|exact H].
Qed.

Lemma between_prefix a b n :
  re_between chGt isSpace chLt a = Some n ->
  re_between chGt isSpace chLt (a ++ b) = Some n.
Proof.
  destruct a as [|c a]; [discriminate|].
  cbn [app]. unfold re_between.
  destruct (c =? chGt)%N; [|discriminate].
  destruct (run isSpace a) as [|k] eqn:Ek; [discriminate|].
  destruct (nth_error a (S k)) as [d|] eqn:Ed; [|discriminate].
  rewrite <- Ek in Ed. destruct (run_prefix isSpace a b d Ed) as [E1 E2].
  rewrite E1, Ek. rewrite Ek in E2. rewrite E2. auto.
Qed.

Lemma gap_free_prefix a b : gap_free (a ++ b) = true -> gap_free a = true.
Proof.
  induction a as [|c a IH]; [reflexivity|].
  change ((c :: a) ++ b) with (c :: (a ++ b)).
  cbn [gap_free]. change (c :: (a ++ b)) with ((c :: a) ++ b).
  destruct (re_between chGt isSpace chLt (c :: a)) as [[|n]|] eqn:E.
  - rewrite (between_prefix _ b _ E). exact IH.
  - rewrite (between_prefix _ b _ E). discriminate.
  - destruct (re_between chGt isSpace chLt ((c :: a) ++ b)) as [[|n]|];
      auto; discriminate.
Qed.

Lemma trim_keeps_normal s : ws_normal s = true -> ws_normal (trim s) = true.
Proof.
  intros H. unfold trim, trimStart.
  destruct (trimEnd_prefix (dropWhile isSpace s)) as [tl E].
  apply (ws_normal_prefix _ tl). rewrite <- E.
  now apply ws_normal_dropWhile.
Qed.

Lemma trim_keeps_gap_free s : gap_free s = true -> gap_free (trim s) = true.
Proof.
  intros H. unfold trim, trimStart.
  destruct (trimEnd_prefix (dropWhile isSpace s)) as [tl E].
  apply (gap_free_prefix _ tl). rewrite <- E.
  now apply gap_free_dropWhile.
Qed.

(** C8. [cleanHtmlContent] is idempotent: cleaning an already cleaned
    string changes nothing, for every input string. *)
Theorem cleanHtmlContent_idempotent (s : jsstring) :
  Utils.cleanHtmlContent (Utils.cleanHtmlContent s) = Utils.cleanHtmlContent s.
Proof.
  change (trim (degap (collapse (trim (degap (collapse s)))))
          = trim (degap (collapse s))).
  set (u := degap (collapse s)).
  assert (Hn : ws_normal (trim u) = true)
    by (apply trim_keeps_normal, degap_normal, collapse_normal).
  assert (Hg : gap_free (trim u) = true)
    by (apply trim_keeps_gap_free, degap_gap_free).
  rewrite (collapse_fixed _ Hn), (degap_fixed _ Hg).
  apply trim_fixed.
Qed.

End CleanHtml.

(** ** generateReleaseId *)

Section ReleaseId.
Context `{Host}.

Lemma generateReleaseId_length now title date :
  length (Utils.generateReleaseId now title date) <= 100.
Proof. unfold Utils.generateReleaseId, substring0. apply firstn_le_length. Qed.

Lemma generateReleaseId_parsed now title date t :
  Date_parse date = Some t ->
  Utils.generateReleaseId now title date
  = substring0 100 (isoDate t ++ [chDash] ++ Utils.cleanTitle title).
Proof. intros E. unfold Utils.generateReleaseId. now rewrite E. Qed.

Lemma generateReleaseId_fallback now title date :
  Date_parse date = None ->
  Utils.generateReleaseId now title date
  = substring0 100 (isoDate now ++ [chDash] ++ Utils.cleanTitle title).
Proof. intros E. unfold Utils.generateReleaseId. now rewrite E. Qed.

(** C1, as amended.  The key is a function of the normalized title and of
    the UTC day the date text parses to: two calls with the same normalized
    title and dates of the same day return the same key, whatever the clock
    reads at either call.  When the date text does not parse, the key takes
    the clock's UTC day instead, and two calls agree when they fall on the
    same day.  In every case the key has at most 100 units. *)
Theorem generateReleaseId_determined now1 now2 title1 title2 date1 date2 :
  Utils.cleanTitle title1 = Utils.cleanTitle title2 ->
  (exists t1 t2, Date_parse date1 = Some t1 /\ Date_parse date2 = Some t2
                 /\ isoDate t1 = isoDate t2)
  \/ (Date_parse date1 = None /\ Date_parse date2 = None
      /\ isoDate now1 = isoDate now2) ->
  Utils.generateReleaseId now1 title1 date1
  = Utils.generateReleaseId now2 title2 date2
  /\ length (Utils.generateReleaseId now1 title1 date1) <= 100.
Proof.
  intros Ht Hd. split; [|apply generateReleaseId_length].
  destruct Hd as [(t1 & t2 & E1 & E2 & Ed)|(E1 & E2 & Ed)].
  - rewrite (generateReleaseId_parsed _ _ _ _ E1),
      (generateReleaseId_parsed _ _ _ _ E2). congruence.
  - rewrite (generateReleaseId_fallback _ _ _ E1),
      (generateReleaseId_fallback _ _ _ E2). congruence.
Qed.

End ReleaseId.

(** Two titles that differ in case and punctuation, two spellings of one
    day, two clock readings a year apart: one key. *)
Lemma generateReleaseId_determined_witness :
  Utils.generateReleaseId (H := sample_host) 1751010300000
    (js "Q2 Report: 2025") (js "27 Jun 2025")
  = Utils.generateReleaseId (H := sample_host) 1782546300000
    (js "q2 report  2025") (js "2025-06-27")
  /\ length (Utils.generateReleaseId (H := sample_host) 1751010300000
               (js "Q2 Report: 2025") (js "27 Jun 2025")) <= 100.
Proof.
  apply (generateReleaseId_determined (H := sample_host)).
  - vm_compute. reflexivity.
  - left. exists 1750982400000%Z, 1750982400000%Z.
    repeat split; vm_compute; reflexivity.
Defined.

(** C1, as stated, fails: the scraper passes ['unknown'] for a row without
    date text; the key then carries the day of the call, and the same
    inputs give another key the next day. *)
Lemma generateReleaseId_clock_dependent :
  Utils.generateReleaseId (H := sample_host) 1751010300000
    (js "Annual General Meeting") (js "unknown")
  <> Utils.generateReleaseId (H := sample_host) (1751010300000 + 86400000)
    (js "Annual General Meeting") (js "unknown").
Proof. vm_compute. discriminate. Qed.

(** ** The list parser: first success wins *)

Section ListParser.
Context `{Host}.
Variable config : Config.
Variable D : Cheerio.
Variable now : Z.

Local Abbreviation rowRecords := (Spec.rowRecords config D now).
Local Abbreviation recordsOf := (Spec.recordsOf config D now).

Lemma eachRow_spec rows : forall found acc,
  Scraper.eachRow config D now rows (found, acc)
  = (found || nonEmpty (rowRecords rows), acc ++ rowRecords rows).
Proof.
  induction rows as [|el rows IH]; intros found acc; cbn [Scraper.eachRow].
  - cbn. now rewrite orb_false_r, app_nil_r.
  - cbn [rowRecords flat_map].
    destruct (Scraper.parseRow config D now el) as [r|].
    + cbn [snd]. rewrite IH. fold (rowRecords rows).
      cbn [app nonEmpty]. now rewrite orb_true_r, <- app_assoc.
    + rewrite IH. reflexivity.
Qed.

Lemma trySelectors_none sels : forall asked,
  (forall s, In s sels -> recordsOf s = []) ->
  Scraper.trySelectors config D now sels (false, []) asked
  = (false, [], asked ++ sels).
Proof.
  induction sels as [|sel sels IH]; intros asked Hno; cbn [Scraper.trySelectors fst].
  - now rewrite app_nil_r.
  - rewrite eachRow_spec. fold (recordsOf sel).
    rewrite (Hno sel) by (left; reflexivity). cbn [nonEmpty orb app].
    rewrite IH by (intros s Hs; apply Hno; right; exact Hs).
    now rewrite <- app_assoc.
Qed.

Lemma trySelectors_found rest rs asked :
  rs <> [] ->
  Scraper.trySelectors config D now rest (true, rs) asked = (true, rs, asked).
Proof. intros _. destruct rest; reflexivity. Qed.

Lemma trySelectors_first pre sel post : forall asked,
  (forall s, In s pre -> recordsOf s = []) ->
  recordsOf sel <> [] ->
  Scraper.trySelectors config D now (pre ++ sel :: post) (false, []) asked
  = (true, recordsOf sel, asked ++ pre ++ [sel]).
Proof.
  induction pre as [|p pre IH]; intros asked Hno Hsel;
    cbn [app Scraper.trySelectors fst]; rewrite eachRow_spec.
  - fold (recordsOf sel). destruct (recordsOf sel) as [|r rs] eqn:E;
      [congruence|]. cbn [nonEmpty orb app].
    apply trySelectors_found. discriminate.
  - fold (recordsOf p). rewrite (Hno p) by (left; reflexivity).
    cbn [nonEmpty orb app]. rewrite IH; auto.
    + now rewrite <- app_assoc.
    + intros s Hs. apply Hno. right. exact Hs.
Qed.

(** C6. The first row selector of the chain that yields a record decides
    the page: the records returned are exactly the records of that
    selector, and the selectors handed to cheerio are those up to and
    including it, none of the later ones. *)
Theorem first_success_wins pre sel post :
  Scraper.selectors = pre ++ sel :: post ->
  (forall s, In s pre -> recordsOf s = []) ->
  recordsOf sel <> [] ->
  Scraper.parseListing config D now = (true, recordsOf sel, pre ++ [sel]).
Proof.
  intros E Hno Hsel. unfold Scraper.parseListing. rewrite E.
  apply (trySelectors_first pre sel post []); assumption.
Qed.

(** When no selector yields a record, all of them are tried and the page
    gives nothing. *)
Lemma parseListing_nothing :
  (forall s, In s Scraper.selectors -> recordsOf s = []) ->
  Scraper.parseListing config D now = (false, [], Scraper.selectors).
Proof. intros Hno. apply (trySelectors_none _ [] Hno). Qed.

End ListParser.

(** On the sample listing the chain stops at its third selector, and the
    heading under [.row], which a later selector would have taken for a
    release, is never looked at. *)
Lemma first_success_wins_witness :
  Scraper.parseListing (H := sample_host) Sample.config Sample.listing 0
  = (true,
     recordsOf (H := sample_host) Sample.config Sample.listing 0 ".table-row",
     ["tr"; "tbody tr"; ".table-row"]%string).
Proof.
  apply (first_success_wins (H := sample_host) Sample.config Sample.listing 0
           ["tr"; "tbody tr"]%string ".table-row"%string
           [".list-item"; ".press-release-item"; "[data-testid=table-row]";
            ".row"; "tr[role=row]"]%string).
  - reflexivity.
  - intros s [E|[E|[]]]; subst s; vm_compute; reflexivity.
  - vm_compute. discriminate.
Defined.

(** ** The cutoff filter *)

Section CutoffFilter.
Context `{Host}.





End CutoffFilter.


(** The release of the evening before and the one without a date go. *)
Example cutoff_filter_sample :
  filter (Scraper.isRecent (H := sample_host) 1750982400000)
    [Sample.day_before; Sample.on_cutoff; Sample.undated] = [Sample.on_cutoff].
Proof. vm_compute. reflexivity. Qed.

(** ** The sort *)

Section SortFacts.
Context {A : Type} (cmp : A -> A -> Z).


Lemma sort_insert_perm x front : Permutation (sort_insert cmp x front) (x :: front).
Proof.
  induction front as [|y rest IH]; cbn; [reflexivity|].
  destruct (cmp x y <? 0)%Z; [|reflexivity].
  rewrite IH. apply perm_swap.
Qed.

Lemma sort_fold_perm a : forall front,
  Permutation (fold_left (fun front x => sort_insert cmp x front) a front)
              (a ++ front).
Proof.
  induction a as [|x a IH]; intros front; cbn [fold_left app]; [reflexivity|].
  rewrite IH, sort_insert_perm. symmetry. apply Permutation_middle.
Qed.

Lemma sort_perm a : Permutation a (sort cmp a).
Proof.
  unfold sort. rewrite <- Permutation_rev, sort_fold_perm.
  now rewrite app_nil_r.
Qed.

(** When the comparator is the difference of a key, on the elements that
    satisfy [P], the sort puts such elements in descending order of the
    key. *)
Variable key : A -> Z.
Variable P : A -> Prop.
Hypothesis cmp_key : forall x y, P x -> P y -> cmp x y = (key y - key x)%Z.







End SortFacts.

Section Sorter.
Context `{Host}.



End Sorter.


(** No order of these three releases has every pair as specified: each of
    them has to stand before another. *)
Lemma sorter_mixed_list_cycle :
  ~ mayPrecede (H := sample_host) Sample.jan09 Sample.jan10
  /\ ~ mayPrecede (H := sample_host) Sample.jan10 Sample.jan05_timed
  /\ ~ mayPrecede (H := sample_host) Sample.jan05_timed Sample.jan09.
Proof. repeat split; intros Hp; vm_compute in Hp; apply Hp; reflexivity. Qed.


(** ** The browser of the content step *)

(** Run the calls of a session whose outcomes the context gives. *)
Ltac drive :=
  repeat (cbn;
          match goal with
          | H : ?f (sessions ?s ?k) = _ |- context [?f (sessions ?s ?k)] =>
            rewrite H
          end).

Section Browser.

Lemma remove_last k l :
  ~ In k l -> remove Nat.eq_dec k (l ++ [k]) = l.
Proof.
  intros Hk. rewrite remove_app, (notin_remove Nat.eq_dec l k Hk).
  cbn. destruct (Nat.eq_dec k k); [apply app_nil_r|congruence].
Qed.

Lemma wf_fresh s : browsers_wf s -> ~ In (launches s) (browsers s).
Proof.
  unfold browsers_wf. rewrite Forall_forall. intros Hwf Hin.
  specialize (Hwf _ Hin). lia.
Qed.

(** C3 fails on the modal variant.  When a call between the launch and the
    inner [try] block throws (here the navigation to the listing), the
    outer [catch] returns the fallback record and nothing closes the
    browser: it is still running when the call returns. *)
Theorem browser_left_open (release : Release) (s : Sys) :
  nodeId release <> None ->
  launch_ok (sessions s (launches s)) = true ->
  newPage_ok (sessions s (launches s)) = true ->
  setUserAgent_ok (sessions s (launches s)) = true ->
  setViewport_ok (sessions s (launches s)) = true ->
  goto_ok (sessions s (launches s)) = false ->
  fst (Scraper.fetchPressReleaseContent release s)
  = Ok (Scraper.withContent release (Scraper.fallbackContent release) (clock s))
  /\ browsers (snd (Scraper.fetchPressReleaseContent release s))
     = browsers s ++ [launches s].
Proof.
  intros Hn Hl Hp Hu Hv Hg.
  unfold Scraper.fetchPressReleaseContent.
  destruct (nodeId release); [|congruence].
  unfold try_catch, bind, Scraper.launch, Scraper.step.
  drive. split; reflexivity.
Qed.

(** X1. On the other exits of the modal variant the browser is closed: once
    the listing is loaded, whether the modal gives content, gives none, or a
    selector fails. *)
Lemma browser_closed_after_navigation (release : Release) (s : Sys) :
  browsers_wf s ->
  launch_ok (sessions s (launches s)) = true ->
  newPage_ok (sessions s (launches s)) = true ->
  setUserAgent_ok (sessions s (launches s)) = true ->
  setViewport_ok (sessions s (launches s)) = true ->
  goto_ok (sessions s (launches s)) = true ->
  close_ok (sessions s (launches s)) = true ->
  browsers (snd (Scraper.fetchPressReleaseContent release s)) = browsers s.
Proof.
  intros Hwf Hl Hp Hu Hv Hg Hc. apply wf_fresh in Hwf.
  unfold Scraper.fetchPressReleaseContent.
  destruct (nodeId release); [|reflexivity].
  unfold try_catch, bind, Scraper.launch, Scraper.step,
    Scraper.page_evaluate, Scraper.close, Utils.sleep, modify.
  drive.
  destruct (waitLink_ok (sessions s (launches s))) eqn:Hwl; drive;
    [|now rewrite remove_last].
  destruct (click_ok (sessions s (launches s))) eqn:Hck; drive;
    [|now rewrite remove_last].
  destruct (waitModal_ok (sessions s (launches s))) eqn:Hwm; drive;
    [|now rewrite remove_last].
  destruct (evaluate (sessions s (launches s))) as [[[|c r]|]|e] eqn:He; drive;
    rewrite ?remove_last by exact Hwf; drive;
    rewrite ?(notin_remove Nat.eq_dec _ _ Hwf); reflexivity.
Qed.

(** *** The direct-navigation variant closes its browser in a [finally] *)

Lemma retry_loop_invariant {A} (fn : M Sys A) (I : Sys -> Prop) :
  (forall s, I s -> I (snd (fn s))) ->
  (forall s t, I s -> I (set_clock s t)) ->
  forall left delay s, I s -> I (snd (Utils.retry_loop fn left delay s)).
Proof.
  intros Hfn Hclock left delay.
  induction left as [|k IH]; intros s Hs; [exact Hs|].
  cbn [Utils.retry_loop]. unfold try_catch, bind.
  specialize (Hfn s Hs). destruct (fn s) as [[a|e] s1]; cbn in *; [exact Hfn|].
  destruct k as [|k]; [exact Hfn|].
  unfold Utils.sleep, modify. cbn. apply IH, Hclock, Hfn.
Qed.

Lemma direct_attempt_closes (release : Release) (s : Sys) :
  browsers_wf s ->
  close_ok (sessions s (launches s)) = true ->
  let s' := snd (ScraperDirect.attempt release s) in
  browsers s' = browsers s /\ launches s' = S (launches s)
  /\ sessions s' = sessions s.
Proof.
  intros Hwf Hc. pose proof (wf_fresh s Hwf) as Hk.
  unfold ScraperDirect.attempt, bind, try_finally, Scraper.launch,
    Scraper.step, Scraper.page_evaluate, Scraper.close, get, throw, ret.
  destruct (launch_ok (sessions s (launches s))) eqn:Hl; drive; [|auto].
  destruct (newPage_ok (sessions s (launches s))) eqn:H1; drive;
    [|rewrite remove_last by exact Hk; auto].
  destruct (setUserAgent_ok (sessions s (launches s))) eqn:H2; drive;
    [|rewrite remove_last by exact Hk; auto].
  destruct (goto_ok (sessions s (launches s))) eqn:H3; drive;
    [|rewrite remove_last by exact Hk; auto].
  destruct (waitForTimeout_ok (sessions s (launches s))) eqn:H4; drive;
    [|rewrite remove_last by exact Hk; auto].
  destruct (evaluate (sessions s (launches s))) as [mc|e] eqn:H5; drive;
    [|rewrite remove_last by exact Hk; auto].
  match goal with
  | |- context [if ?b then _ else _] => destruct b
  end; drive; rewrite remove_last by exact Hk; auto.
Qed.

(** X2. In the direct-navigation variant every browser launched by a call is
    closed when the call returns, whatever happens in between and however many
    attempts are made. *)
Lemma direct_browser_always_closed (config : Config) (release : Release) (s : Sys) :
  browsers_wf s ->
  (forall k, close_ok (sessions s k) = true) ->
  browsers (snd (ScraperDirect.fetchPressReleaseContent config release s))
  = browsers s.
Proof.
  intros Hwf Hc. unfold ScraperDirect.fetchPressReleaseContent, Utils.retry.
  set (I := fun s' : Sys =>
              browsers s' = browsers s /\ browsers_wf s'
              /\ sessions s' = sessions s).
  assert (HI : I s) by (repeat split; assumption).
  apply (retry_loop_invariant (ScraperDirect.attempt release) I); [| |exact HI].
  - intros s1 (Hb & Hw & Hs).
    destruct (direct_attempt_closes release s1 Hw) as (Eb & El & Es).
    { rewrite Hs. apply Hc. }
    repeat split; try congruence.
    unfold browsers_wf in *. rewrite Eb, El.
    eapply Forall_impl; [|exact Hw]. cbn. lia.
  - intros s1 t (Hb & Hw & Hs). repeat split; assumption.
Qed.

End Browser.

(** A release with a node id, a browser whose navigation times out: the
    call returns the fallback record and leaves browser 0 running. *)
Lemma browser_left_open_witness :
  fst (Scraper.fetchPressReleaseContent Sample.modal_release
         (Sample.world (fun _ => Sample.session_timeout)))
  = Ok (Scraper.withContent Sample.modal_release
          (Scraper.fallbackContent Sample.modal_release) 1751010300000)
  /\ browsers (snd (Scraper.fetchPressReleaseContent Sample.modal_release
                      (Sample.world (fun _ => Sample.session_timeout))))
     = [0].
Proof.
  apply (browser_left_open Sample.modal_release
           (Sample.world (fun _ => Sample.session_timeout)));
    try reflexivity.
  discriminate.
Defined.

(** ** The publisher *)

Section Bulk.
Variable itemExists : Release -> M Sys bool.
Variable createItem : Release -> M Sys (option Item).
Variable pause : Z.

(** What one round of the loop does with its record: an existence hit
    sends it to [skipped], a creation that returns to [created], an
    exception from either call to [errors]. *)
Lemma bulk_step_spec (x : Release) (s : Sys) (r : Results) :
  Webflow.bulk_step itemExists createItem pause x (s, r)
  = match itemExists x s with
    | (Ok true, s1) => (Ok tt, (s1, Webflow.push_skipped x r))
    | (Ok false, s1) =>
      match createItem x s1 with
      | (Ok item, s2) =>
        (Ok tt, (set_clock s2 (clock s2 + pause)%Z,
                 Webflow.push_created {| release := x; webflowItem := item |} r))
      | (Throw e, s2) =>
        (Ok tt, (s2, Webflow.push_errors {| failed_release := x; error := e |} r))
      end
    | (Throw e, s1) =>
      (Ok tt, (s1, Webflow.push_errors {| failed_release := x; error := e |} r))
    end.
Proof.
  unfold Webflow.bulk_step, try_catch, bind, lift, update. cbn [fst snd].
  destruct (itemExists x s) as [[[|]|e] s1]; cbn [fst snd]; try reflexivity.
  destruct (createItem x s1) as [[item|e] s2]; reflexivity.
Qed.

(** The same for the whole call, on a single record. *)
Lemma bulk_single (x : Release) (s : Sys) :
  Webflow.bulk itemExists createItem pause [x] s
  = routed itemExists createItem pause x s.
Proof.
  unfold Webflow.bulk, routed, scope, bind. cbn [for_of]. unfold bind.
  rewrite bulk_step_spec.
  destruct (itemExists x s) as [[[|]|e] s1]; try reflexivity.
  destruct (createItem x s1) as [[item|e] s2]; reflexivity.
Qed.







End Bulk.

Section Partition.
Context `{Host}.
Variable config : Config.


End Partition.

Section Idempotent.
Context `{Host}.
Variable config : Config.

#[local] Arguments Webflow.generateUniqueSlug : simpl never.
#[local] Arguments Webflow.holds : simpl never.

Lemma eqs_eq a : forall b, eqs a b = true <-> a = b.
Proof.
  induction a as [|x a IH]; intros [|y b]; cbn; try (split; congruence).
  rewrite andb_true_iff, N.eqb_eq, IH. split.
  - intros [-> ->]. reflexivity.
  - intros E. inversion E. auto.
Qed.

Lemma holds_In slug l : Webflow.holds slug l = true <-> In slug (map item_slug l).
Proof.
  unfold Webflow.holds. rewrite existsb_exists, in_map_iff. split.
  - intros (i & Hi & E). apply eqs_eq in E. eauto.
  - intros (i & E & Hi). exists i. split; [exact Hi|]. now apply eqs_eq.
Qed.

Lemma holds_not_In slug l :
  ~ In slug (map item_slug l) -> Webflow.holds slug l = false.
Proof.
  intros Hn. destruct (Webflow.holds slug l) eqn:E; [|reflexivity].
  apply holds_In in E. contradiction.
Qed.

Lemma go_live_slugs k l : map item_slug (map (Webflow.go_live k) l) = map item_slug l.
Proof.
  rewrite map_map. apply map_ext. intros i. unfold Webflow.go_live.
  destruct (Nat.eqb (item_id i) k); reflexivity.
Qed.

Lemma itemExists_reliable r s :
  reliable s ->
  Webflow.itemExists r s
  = (Ok (Webflow.holds (slugOf r) (items s)), set_reqs s (S (reqs s))).
Proof.
  intros Hrel. unfold Webflow.itemExists, try_catch, bind, Webflow.get_items,
    Axios.request. rewrite Hrel. reflexivity.
Qed.

(** With an answering network, one attempt at least, and a slug the
    collection does not hold, [createItem] adds one item under that slug. *)
Lemma createItemAs_reliable slug r s :
  reliable s ->
  webflow_retryAttempts config <> Some 0 ->
  Webflow.holds slug (items s) = false ->
  exists item s',
    Webflow.createItemAs config slug r s = (Ok (Some item), s')
    /\ slugs s' = slugs s ++ [slug]
    /\ net s' = net s.
Proof.
  intros Hrel Hatt Hfree. unfold slugs in *.
  unfold Webflow.createItemAs, Webflow.publishItem, Utils.retry.
  destruct (match webflow_retryAttempts config with
            | Some n => n
            | None => 3
            end) as [|k] eqn:Ek.
  { destruct (webflow_retryAttempts config) as [[|n]|]; congruence. }
  cbn [Utils.retry_loop].
  unfold try_catch, bind, Webflow.post_item, Webflow.post_publish, Axios.request.
  rewrite Hrel. cbn. rewrite Hfree, andb_false_r.
  destruct (publishImmediately config); cbn.
  - rewrite Hrel. cbn. rewrite existsb_app. cbn. rewrite Nat.eqb_refl, orb_true_r.
    cbn. eexists; eexists. split; [reflexivity|]. cbn. split; [|reflexivity].
    rewrite go_live_slugs, map_app. reflexivity.
  - eexists; eexists. split; [reflexivity|]. cbn. split; [|reflexivity].
    rewrite map_app. reflexivity.
Qed.

Lemma createItem_reliable r s :
  reliable s ->
  webflow_retryAttempts config <> Some 0 ->
  Webflow.holds (slugOf r) (items s) = false ->
  exists item s',
    Webflow.createItem config r s = (Ok (Some item), s')
    /\ slugs s' = slugs s ++ [slugOf r]
    /\ net s' = net s.
Proof. apply createItemAs_reliable. Qed.

Lemma first_pass (l : list Release) : forall s r,
  reliable s ->
  webflow_retryAttempts config <> Some 0 ->
  NoDup (map slugOf l) ->
  (forall x, In x l -> ~ In (slugOf x) (slugs s)) ->
  exists s' cs,
    for_of l (Webflow.bulk_step Webflow.itemExists (Webflow.createItem config) 2000)
      (s, r)
    = (Ok tt, (s', {| created := created r ++ cs; skipped := skipped r;
                      errors := errors r |}))
    /\ map release cs = l
    /\ Forall (fun c => webflowItem c <> None) cs
    /\ reliable s'
    /\ slugs s' = slugs s ++ map slugOf l.
Proof.
  induction l as [|x l IH]; intros s r Hrel Hatt Hnd Hfree.
  - exists s, []. cbn. rewrite !app_nil_r. destruct r. repeat split; auto.
  - cbn [for_of]. unfold bind at 1. rewrite bulk_step_spec.
    rewrite itemExists_reliable by exact Hrel.
    rewrite holds_not_In by (apply Hfree; left; reflexivity).
    destruct (createItem_reliable x (set_reqs s (S (reqs s))))
      as (item & s2 & E & Hs2 & Hn2); [exact Hrel|exact Hatt| |].
    { apply holds_not_In. apply Hfree. left. reflexivity. }
    rewrite E. cbn [map] in Hnd. inversion Hnd as [|? ? Hx Hnd']; subst.
    set (s3 := set_clock s2 (clock s2 + 2000)%Z).
    assert (Hs3 : slugs s3 = slugs s ++ [slugOf x]) by exact Hs2.
    destruct (IH s3 (Webflow.push_created
                       {| release := x; webflowItem := Some item |} r))
      as (s' & cs & E' & Hcs & Hsome & Hrel' & Hslugs).
    + intros k. change (net s3 k) with (net s2 k). rewrite Hn2. apply Hrel.
    + exact Hatt.
    + exact Hnd'.
    + intros y Hy. rewrite Hs3, in_app_iff. intros [Hin|[Heq|[]]].
      * apply (Hfree y); [right; exact Hy|exact Hin].
      * apply Hx. rewrite Heq. apply in_map. exact Hy.
    + exists s', ({| release := x; webflowItem := Some item |} :: cs).
      rewrite E'. cbn [Webflow.push_created created skipped errors].
      rewrite <- app_assoc. cbn [app map release].
      split; [reflexivity|]. split; [now rewrite Hcs|].
      split; [constructor; [discriminate|exact Hsome]|].
      split; [exact Hrel'|].
      rewrite Hslugs, Hs3, <- app_assoc. reflexivity.
Qed.

Lemma second_pass (l : list Release) : forall s r,
  reliable s ->
  (forall x, In x l -> In (slugOf x) (slugs s)) ->
  exists s',
    for_of l (Webflow.bulk_step Webflow.itemExists (Webflow.createItem config) 2000)
      (s, r)
    = (Ok tt, (s', {| created := created r; skipped := skipped r ++ l;
                      errors := errors r |}))
    /\ items s' = items s.
Proof.
  induction l as [|x l IH]; intros s r Hrel Hheld.
  - exists s. cbn. rewrite app_nil_r. destruct r. split; reflexivity.
  - cbn [for_of]. unfold bind at 1. rewrite bulk_step_spec.
    rewrite itemExists_reliable by exact Hrel.
    assert (Hx : Webflow.holds (slugOf x) (items s) = true)
      by (apply holds_In, Hheld; left; reflexivity).
    rewrite Hx.
    destruct (IH (set_reqs s (S (reqs s))) (Webflow.push_skipped x r))
      as (s' & E & Hitems).
    + exact Hrel.
    + intros y Hy. apply Hheld. right. exact Hy.
    + exists s'. rewrite E. cbn [Webflow.push_skipped created skipped errors].
      rewrite <- app_assoc. split; [reflexivity|exact Hitems].
Qed.

(** X3. The client of today is idempotent. For records with distinct slugs,
    none of them in the collection, a network that answers and a client that
    is allowed one attempt at least: the first call creates them all, one item
    each; the second call, on the collection the first one left, skips them
    all and leaves the collection as it is. The slug looked up is the slug
    written. *)
Lemma createItems_idempotent (pressReleases : list Release) (s : Sys) :
  reliable s ->
  webflow_retryAttempts config <> Some 0 ->
  NoDup (map slugOf pressReleases) ->
  (forall x, In x pressReleases -> ~ In (slugOf x) (slugs s)) ->
  exists r1 s1 r2 s2,
    Webflow.createItems config pressReleases s = (Ok r1, s1)
    /\ map release (created r1) = pressReleases
    /\ length (created r1) = length pressReleases
    /\ skipped r1 = [] /\ errors r1 = []
    /\ slugs s1 = slugs s ++ map slugOf pressReleases
    /\ Webflow.createItems config pressReleases s1 = (Ok r2, s2)
    /\ skipped r2 = pressReleases
    /\ length (skipped r2) = length pressReleases
    /\ created r2 = [] /\ errors r2 = []
    /\ items s2 = items s1.
Proof.
  intros Hrel Hatt Hnd Hfree.
  destruct (first_pass pressReleases s
              {| created := []; skipped := []; errors := [] |}
              Hrel Hatt Hnd Hfree)
    as (s1 & cs & E1 & Hcs & _ & Hrel1 & Hslugs).
  destruct (second_pass pressReleases s1
              {| created := []; skipped := []; errors := [] |} Hrel1)
    as (s2 & E2 & Hitems).
  { intros x Hx. rewrite Hslugs, in_app_iff. right. apply in_map. exact Hx. }
  exists {| created := cs; skipped := []; errors := [] |}, s1,
         {| created := []; skipped := pressReleases; errors := [] |}, s2.
  unfold Webflow.createItems, Webflow.bulk, scope, bind.
  rewrite E1, E2. cbn.
  repeat split; auto.
  rewrite <- (length_map release cs). now rewrite Hcs.
Qed.

End Idempotent.

(** ** The error history of the state file *)

Section ErrorHistory.
Context `{Host}.
Variable config : Config.

Lemma lastn_length {A} n (l : list A) : length (lastn n l) <= n.
Proof. unfold lastn. rewrite length_skipn. lia. Qed.

(** The store a completed run writes keeps ten errors at most. *)
Lemma updatedProcessedData_bounded processedData t entries results :
  length (stats_errors (stats
            (Index.updatedProcessedData processedData t entries results))) <= 10.
Proof. cbn. apply lastn_length. Qed.

(** The store a failed run writes has one error more than the one it
    read. *)
Lemma withFatalError_grows processedData t message :
  length (stats_errors (stats (Index.withFatalError processedData t message)))
  = S (length (stats_errors (stats processedData))).
Proof. cbn. rewrite length_app. cbn. lia. Qed.

(** C7 fails on the fatal path.  A run that passes the schedule gate and
    finds the CMS unreachable exits with status 1 after appending the
    failure to the history it read, without cutting it: the history on
    disk is one entry longer than before, whatever its length was. *)
Theorem fatal_run_history_grows (testMode : bool) (s : Sys) :
  negb testMode && negb (Utils.isWithinScheduledHours config (clock s)) = false ->
  net s (reqs s) = false ->
  disk_writable s = true ->
  fst (Index.run config testMode s) = Ok (Index.Exit1 "Failed to connect to Webflow API")
  /\ length (stats_errors (stats (stored (snd (Index.run config testMode s)))))
     = S (length (stats_errors (stats (stored s)))).
Proof.
  intros Hgate Hnet Hw.
  unfold Index.run, Index.runSteps, Index.onFatal, try_catch, bind,
    Index.loadProcessedData, Scraper.now.
  cbn [fst snd]. rewrite Hgate.
  unfold Webflow.testConnection, Webflow.getCollectionInfo, try_catch, bind,
    Webflow.get_collection, Axios.request, throw, ret.
  rewrite Hnet. cbn. unfold Index.saveProcessedData. cbn. rewrite Hw. cbn.
  split; [reflexivity|]. unfold stored. rewrite length_app. cbn. lia.
Qed.

End ErrorHistory.

(** Ten errors on file, an API that does not answer: the run leaves
    eleven. *)
Lemma fatal_run_history_grows_witness :
  fst (Index.run (H := sample_host) Sample.config true Sample.offline_world)
  = Ok (Index.Exit1 "Failed to connect to Webflow API")
  /\ length (stats_errors (stats (stored
       (snd (Index.run (H := sample_host) Sample.config true Sample.offline_world)))))
     = 11.
Proof.
  apply (fatal_run_history_grows (H := sample_host) Sample.config true
           Sample.offline_world); reflexivity.
Defined.

(** ** The cap on a run *)

Section Cap.
Context `{Host}.
Variable config : Config.





(** When the listing is served at the first request, the list returned is
    the page's records, filtered by the cutoff and sorted. *)
Lemma fetchPressReleaseList_answered (s : Sys) (cutoffDate : Z) :
  net s (reqs s) = true ->
  euronext_retryAttempts config <> Some 0 ->
  Date_parse (orElse (match onlyAfterDate config with Some v => v | None => [] end)
                (js "2025-06-27")) = Some cutoffDate ->
  Scraper.fetchPressReleaseList config s
  = (Ok (Some (sort Scraper.compareReleases
                 (filter (Scraper.isRecent cutoffDate)
                    (snd (fst (Scraper.parseListing config (page s) (clock s))))))),
     set_reqs s (S (reqs s))).
Proof.
  intros Hnet Hatt Hcut. unfold Scraper.fetchPressReleaseList, Utils.retry.
  destruct (match euronext_retryAttempts config with
            | Some n => n
            | None => 3
            end) as [|k] eqn:Ek.
  { destruct (euronext_retryAttempts config) as [[|n]|]; congruence. }
  cbn [Utils.retry_loop].
  unfold try_catch, bind, Scraper.axios_get_page, Axios.request, Scraper.now, ret.
  rewrite Hnet. cbn [page clock set_reqs]. rewrite Hcut. reflexivity.
Qed.





End Cap.


(** Five releases pass the filter; a test run extracts and publishes the
    three newest, a normal run all five. *)
Example run_capped_sample :
  (exists o, fst (Index.run (H := sample_host) Sample.config true Sample.long_world) = Ok o
             /\ map dateText (extracted o)
                = [js "05 Jul 2025"; js "04 Jul 2025"; js "03 Jul 2025"]
             /\ published o = 3)
  /\ (exists o, fst (Index.run (H := sample_host) Sample.config false Sample.long_world) = Ok o
                /\ length (extracted o) = 5 /\ published o = 5).
Proof. split; eexists; (split; [vm_compute; reflexivity|]); split; reflexivity. Qed.

(** ** Calling the publisher twice *)

Section LegacyLookup.
Variable config : Config.

#[local] Arguments Webflow.holds : simpl never.
#[local] Arguments Webflow.generateSlug : simpl never.

Lemma legacy_itemExists_reliable i s :
  reliable s ->
  WebflowLegacy.itemExists i s
  = (Ok (Webflow.holds (Webflow.generateSlug i) (items s)),
     set_reqs s (S (reqs s))).
Proof.
  intros Hrel. unfold WebflowLegacy.itemExists, try_catch, bind,
    Webflow.get_items, Axios.request. rewrite Hrel. reflexivity.
Qed.

(** C2 fails on the earlier variant of the client.  It writes the slug of
    the title and looks up the slug of the release id, which carries the
    date in front.  For a record on which the two slugs differ, on an
    empty collection and an answering network: the first call creates the
    record, and the second call does not skip it; it tries to create it
    once more, and the record ends in [created] or in [errors]. *)
Theorem legacy_lookup_misses (r : Release) (s : Sys) :
  reliable s ->
  webflow_retryAttempts config <> Some 0 ->
  items s = [] ->
  Webflow.generateSlug (id r) <> Webflow.generateSlug (title r) ->
  exists r1 s1 r2 s2,
    WebflowLegacy.createItems config [r] s = (Ok r1, s1)
    /\ length (created r1) = 1 /\ skipped r1 = [] /\ errors r1 = []
    /\ slugs s1 = [Webflow.generateSlug (title r)]
    /\ WebflowLegacy.createItems config [r] s1 = (Ok r2, s2)
    /\ skipped r2 = []
    /\ length (created r2) + length (errors r2) = 1.
Proof.
  intros Hrel Hatt Hempty Hdiff.
  destruct (createItemAs_reliable config (Webflow.generateSlug (title r)) r
              (set_reqs s (S (reqs s))))
    as (item & s2 & E & Hs2 & Hn2); [exact Hrel|exact Hatt| |].
  { cbn [items set_reqs]. rewrite Hempty. reflexivity. }
  unfold slugs in Hs2. cbn [items set_reqs] in Hs2. rewrite Hempty in Hs2.
  cbn [map app] in Hs2.
  set (s1 := set_clock s2 (clock s2 + 1000)%Z).
  assert (Hrel1 : reliable s1).
  { intros k. change (net s1 k) with (net s2 k). rewrite Hn2. apply Hrel. }
  assert (Hmiss : Webflow.holds (Webflow.generateSlug (id r)) (items s1) = false).
  { apply holds_not_In. change (items s1) with (items s2). rewrite Hs2.
    intros [Heq|[]]. apply Hdiff. symmetry. exact Heq. }
  assert (E1 : WebflowLegacy.createItems config [r] s
               = (Ok {| created := [{| release := r; webflowItem := Some item |}];
                        skipped := []; errors := [] |}, s1)).
  { unfold WebflowLegacy.createItems. rewrite bulk_single. unfold routed.
    rewrite legacy_itemExists_reliable by exact Hrel.
    rewrite Hempty. change (Webflow.holds _ []) with false.
    unfold WebflowLegacy.createItem. rewrite E. reflexivity. }
  assert (E2 : exists r2 s2',
             WebflowLegacy.createItems config [r] s1 = (Ok r2, s2')
             /\ skipped r2 = []
             /\ length (created r2) + length (errors r2) = 1).
  { unfold WebflowLegacy.createItems. rewrite bulk_single. unfold routed.
    rewrite legacy_itemExists_reliable by exact Hrel1. rewrite Hmiss.
    destruct (WebflowLegacy.createItem config r (set_reqs s1 (S (reqs s1))))
      as [[item'|e] s3]; eexists; eexists; repeat split. }
  destruct E2 as (r2 & s2' & E2 & Hsk & Hlen).
  exists {| created := [{| release := r; webflowItem := Some item |}];
            skipped := []; errors := [] |}, s1, r2, s2'.
  repeat split; auto.
Qed.

End LegacyLookup.

(** The release of the sample listing: its id starts with the date, its
    title does not. *)
Lemma legacy_lookup_misses_witness :
  exists r1 s1 r2 s2,
    WebflowLegacy.createItems Sample.config [Sample.full_release]
      (Sample.world (fun _ => Sample.session None)) = (Ok r1, s1)
    /\ length (created r1) = 1 /\ skipped r1 = [] /\ errors r1 = []
    /\ slugs s1 = [Webflow.generateSlug (title Sample.full_release)]
    /\ WebflowLegacy.createItems Sample.config [Sample.full_release] s1
       = (Ok r2, s2)
    /\ skipped r2 = []
    /\ length (created r2) + length (errors r2) = 1.
Proof.
  apply (legacy_lookup_misses Sample.config Sample.full_release
           (Sample.world (fun _ => Sample.session None))).
  - intros k. reflexivity.
  - discriminate.
  - reflexivity.
  - vm_compute. discriminate.
Defined.

(** The two calls on the sample release.  A CMS that is strict about slugs
    refuses the second creation, and the record lands in [errors]; a
    lenient one stores the release a second time under the same slug. *)
Example legacy_createItems_twice_sample :
  (let '(r1, r2, collection) :=
     twice (WebflowLegacy.createItems Sample.config) [Sample.full_release]
       (Sample.world (fun _ => Sample.session None)) in
   sizes r1 = Some (1, 0, 0) /\ sizes r2 = Some (0, 0, 1)
   /\ length collection = 1)
  /\ (let '(r1, r2, collection) :=
        twice (WebflowLegacy.createItems Sample.config) [Sample.full_release]
          (Sample.lenient_world) in
      sizes r1 = Some (1, 0, 0) /\ sizes r2 = Some (1, 0, 0)
      /\ map item_slug collection
         = [js "protectorforsikringasaq22025results";
            js "protectorforsikringasaq22025results"])
  /\ Webflow.generateSlug (id Sample.full_release)
     = js "2025-06-27-protector-forsikring-asa-q2-2025-results".
Proof. vm_compute. repeat split. Qed.

(** The same two calls on the client of today: created, then skipped. *)
Example createItems_twice_sample :
  let '(r1, r2, collection) :=
    twice (Webflow.createItems (H := sample_host) Sample.config)
      [Sample.full_release] (Sample.world (fun _ => Sample.session None)) in
  sizes r1 = Some (1, 0, 0) /\ sizes r2 = Some (0, 1, 0)
  /\ map item_slug collection
     = [js "protectorforsikringasaq22025results-2025-06-27"].
Proof. vm_compute. repeat split. Qed.

Lemma createItems_idempotent_sample :
  exists r1 s1 r2 s2,
    Webflow.createItems (H := sample_host) Sample.config
      [Sample.jan05; Sample.jan02] Sample.long_world = (Ok r1, s1)
    /\ map release (created r1) = [Sample.jan05; Sample.jan02]
    /\ length (created r1) = 2
    /\ skipped r1 = [] /\ errors r1 = []
    /\ slugs s1 = slugs Sample.long_world
                  ++ map (slugOf (H := sample_host)) [Sample.jan05; Sample.jan02]
    /\ Webflow.createItems (H := sample_host) Sample.config
         [Sample.jan05; Sample.jan02] s1 = (Ok r2, s2)
    /\ skipped r2 = [Sample.jan05; Sample.jan02]
    /\ length (skipped r2) = 2
    /\ created r2 = [] /\ errors r2 = []
    /\ items s2 = items s1.
Proof.
  apply (createItems_idempotent (H := sample_host) Sample.config
           [Sample.jan05; Sample.jan02] Sample.long_world).
  - intros k. reflexivity.
  - discriminate.
  - vm_compute. apply NoDup_cons; [intros [E|[]]; discriminate|].
    apply NoDup_cons; [intros []|apply NoDup_nil].
  - intros x _ [].
Defined.


(* ================================================================== *)
(** * Part III. Further properties of the code                         *)
(* ================================================================== *)

(** ** What [cleanHtmlContent] returns *)

Section CleanHtmlShape.

Lemma run_le p s : run p s <= length s.
Proof.
  induction s as [|c r IH]; cbn; [lia|]. destruct (p c); cbn; lia.
Qed.

Lemma run_all p s : forallb p s = true -> run p s = length s.
Proof.
  induction s as [|c r IH]; cbn; [reflexivity|].
  destruct (p c); cbn; [|discriminate]. intros E. now rewrite IH.
Qed.

Lemma run_app_head p a b : a <> [] -> run p a = 0 -> run p (a ++ b) = 0.
Proof.
  destruct a as [|c a]; [congruence|]. cbn. intros _.
  destruct (p c); [discriminate|reflexivity].
Qed.

Lemma trimEnd_last s : run isSpace (rev (trimEnd s)) = 0.
Proof.
  induction s as [|c r IH]; [reflexivity|]. cbn [trimEnd].
  destruct (trimEnd r) as [|d t] eqn:E.
  - destruct (isSpace c) eqn:Ec; cbn; [reflexivity|now rewrite Ec].
  - change (rev (c :: d :: t)) with (rev (d :: t) ++ [c]).
    apply run_app_head; [|exact IH].
    cbn. intros E'. now apply app_eq_nil in E'.
Qed.

Lemma trimEnd_length s : length (trimEnd s) <= length s.
Proof.
  destruct (trimEnd_prefix s) as [tl E]. rewrite E at 2.
  rewrite length_app. lia.
Qed.

Lemma dropWhile_length p s : length (dropWhile p s) <= length s.
Proof.
  induction s as [|c r IH]; cbn; [lia|]. destruct (p c); cbn; lia.
Qed.

Lemma trim_length s : length (trim s) <= length s.
Proof.
  unfold trim, trimStart.
  pose proof (trimEnd_length (dropWhile isSpace s)).
  pose proof (dropWhile_length isSpace s). lia.
Qed.

(** A replacement that is no longer than what it replaces never lengthens
    the string. *)
Lemma replace_go_length m rep :
  (forall s n, m s = Some (S n) -> length rep <= S n /\ S n <= length s) ->
  forall s k, length (replace_go m rep k s) <= length s - k.
Proof.
  intros Hm. induction s as [|c r IH]; intros k; cbn [replace_go]; [cbn; lia|].
  destruct k as [|k]; [|specialize (IH k); cbn; lia].
  destruct (m (c :: r)) as [[|n]|] eqn:E.
  - specialize (IH 0). cbn. lia.
  - destruct (Hm _ _ E) as [H1 H2]. specialize (IH n).
    rewrite length_app. cbn in *. lia.
  - specialize (IH 0). cbn. lia.
Qed.

Lemma re_plus_bounds p s n : re_plus p s = Some (S n) -> S n <= length s.
Proof.
  unfold re_plus. pose proof (run_le p s).
  destruct (run p s) eqn:E; [discriminate|]. intros E'. inversion E'. lia.
Qed.

Lemma re_between_bounds a p b s n :
  re_between a p b s = Some (S n) -> 2 <= S n /\ S n <= length s.
Proof.
  destruct s as [|c r]; cbn [re_between]; [discriminate|].
  destruct (c =? a)%N; [|discriminate].
  destruct (run p r) as [|k] eqn:E; [discriminate|].
  destruct (nth_error r (S k)) as [d|] eqn:En; [|discriminate].
  destruct (d =? b)%N; [|discriminate].
  intros E'. inversion E'. cbn [length].
  assert (S k < length r) by (apply nth_error_Some; congruence).
  lia.
Qed.

Lemma replace_go_skip_all m rep s : forall k,
  length s <= k -> replace_go m rep k s = [].
Proof.
  induction s as [|c r IH]; intros k Hk; [reflexivity|].
  destruct k as [|k]; cbn in *; [lia|]. apply IH. lia.
Qed.

(** X4. The cleaned string is in normal form: every white-space unit in it is
    a plain space with no white space behind it, no white space stands between
    [>] and [<], and it neither starts nor ends with white space. *)
Theorem cleanHtmlContent_normal_form (html : jsstring) :
  ws_normal (Utils.cleanHtmlContent html) = true
  /\ gap_free (Utils.cleanHtmlContent html) = true
  /\ run isSpace (Utils.cleanHtmlContent html) = 0
  /\ run isSpace (rev (Utils.cleanHtmlContent html)) = 0.
Proof.
  unfold Utils.cleanHtmlContent.
  split; [apply trim_keeps_normal, degap_normal, collapse_normal|].
  split; [apply trim_keeps_gap_free, degap_gap_free|].
  split; [|apply trimEnd_last].
  unfold trim, trimStart. apply trimEnd_run, run_after_dropWhile.
Qed.

Lemma cleanHtmlContent_length (html : jsstring) :
  length (Utils.cleanHtmlContent html) <= length html.
Proof.
  unfold Utils.cleanHtmlContent, replaceAll.
  etransitivity; [apply trim_length|].
  etransitivity.
  { apply replace_go_length. intros s n E.
    apply re_between_bounds in E. cbn. lia. }
  rewrite Nat.sub_0_r.
  etransitivity.
  { apply replace_go_length. intros s n E.
    apply re_plus_bounds in E. cbn. lia. }
  lia.
Qed.

(** X5. Cleaning never lengthens a string, and a string of white space only,
    the empty string included, is cleaned to the empty string. *)
Theorem cleanHtmlContent_shrinks (html : jsstring) :
  length (Utils.cleanHtmlContent html) <= length html
  /\ (forallb isSpace html = true -> Utils.cleanHtmlContent html = []).
Proof.
  split; [apply cleanHtmlContent_length|].
  intros Hb. unfold Utils.cleanHtmlContent, replaceAll.
  destruct html as [|c r]; [reflexivity|].
  cbn [replace_go]. unfold re_plus. rewrite (run_all _ _ Hb).
  cbn [length]. rewrite (replace_go_skip_all _ _ r (length r)) by lia.
  reflexivity.
Qed.

End CleanHtmlShape.

(** Spaces, a line break and a tab: nothing is left. *)
Lemma cleanHtmlContent_shrinks_witness :
  Utils.cleanHtmlContent (js "  " ++ [chNl; 9%N] ++ js " ") = [].
Proof.
  apply (proj2 (cleanHtmlContent_shrinks (js "  " ++ [chNl; 9%N] ++ js " "))).
  reflexivity.
Defined.

(** ** Keys and slugs *)

Import Notions.

Section Alphabets.
Context `{Host}.

Lemma replace_one_flat_map p rep s :
  replaceAll (re_one p) rep s = flat_map (fun c => if p c then rep else [c]) s.
Proof.
  unfold replaceAll. induction s as [|c r IH]; [reflexivity|].
  cbn [replace_go re_one flat_map]. destruct (p c); now rewrite IH.
Qed.

Lemma replace_go_forallb (q : cunit -> bool) m rep :
  forallb q rep = true ->
  forall s k, forallb q s = true -> forallb q (replace_go m rep k s) = true.
Proof.
  intros Hrep. induction s as [|c r IH]; intros k Hs; [reflexivity|].
  cbn in Hs. apply andb_true_iff in Hs as [Hc Hr]. cbn [replace_go].
  destruct k as [|k]; [|now apply IH].
  destruct (m (c :: r)) as [[|n]|].
  - cbn. rewrite Hc. now apply IH.
  - rewrite forallb_app, Hrep. now apply IH.
  - cbn. rewrite Hc. now apply IH.
Qed.

Lemma forallb_firstn {A} (q : A -> bool) n : forall l,
  forallb q l = true -> forallb q (firstn n l) = true.
Proof.
  induction n as [|n IH]; intros [|x l]; cbn; try reflexivity.
  intros E. apply andb_true_iff in E as [Hx Hl]. now rewrite Hx, IH.
Qed.

Lemma forallb_dropWhile (q p : cunit -> bool) s :
  forallb q s = true -> forallb q (dropWhile p s) = true.
Proof.
  induction s as [|c r IH]; [reflexivity|]. intros E. cbn [dropWhile].
  destruct (p c); [|exact E]. cbn in E. apply andb_true_iff in E as [_ Hr].
  now apply IH.
Qed.

Lemma forallb_trim (q : cunit -> bool) s :
  forallb q s = true -> forallb q (trim s) = true.
Proof.
  intros E. unfold trim, trimStart.
  apply (forallb_dropWhile q isSpace) in E.
  destruct (trimEnd_prefix (dropWhile isSpace s)) as [tl Etl].
  rewrite Etl, forallb_app in E. now apply andb_true_iff in E as [E _].
Qed.

Lemma digit_unit z : isDigit (48 + Z.to_N (z mod 10))%N = true.
Proof.
  pose proof (Z.mod_pos_bound z 10 eq_refl) as B.
  unfold isDigit. apply andb_true_iff. split; apply N.leb_le; lia.
Qed.

Lemma digits_digits n : forall z, forallb isDigit (digits n z) = true.
Proof.
  induction n as [|n IH]; intros z; [reflexivity|].
  cbn [digits]. rewrite forallb_app, IH. cbn [forallb]. now rewrite digit_unit.
Qed.

Lemma decimal_go_digits fuel : forall z acc,
  forallb isDigit acc = true -> forallb isDigit (decimal_go fuel z acc) = true.
Proof.
  induction fuel as [|k IH]; intros z acc Hacc; [exact Hacc|].
  cbn [decimal_go].
  assert (Hacc' : forallb isDigit ((48 + Z.to_N (z mod 10))%N :: acc) = true)
    by (cbn [forallb]; now rewrite digit_unit).
  destruct (z <? 10)%Z; [exact Hacc'|now apply IH].
Qed.

Lemma forallb_weaken {A} (p q : A -> bool) l :
  (forall x, p x = true -> q x = true) ->
  forallb p l = true -> forallb q l = true.
Proof.
  intros Hpq. rewrite !forallb_forall. auto.
Qed.

Lemma isoDate_units t : forallb keyUnit (isoDate t) = true.
Proof.
  assert (Hd : forall n z, forallb keyUnit (digits n z) = true).
  { intros n z. apply (forallb_weaken isDigit); [|apply digits_digits].
    intros x Hx. unfold keyUnit. rewrite Hx. now rewrite orb_true_r. }
  unfold isoDate. destruct (civil_from_days (t / msPerDay)) as [[y m] d].
  rewrite !forallb_app. unfold pad2. rewrite !Hd. cbn [forallb].
  change (keyUnit chDash) with true. cbn [andb].
  rewrite andb_true_r. unfold isoYear.
  destruct ((0 <=? y)%Z && (y <=? 9999)%Z); [apply Hd|].
  cbn [forallb]. rewrite Hd. destruct (y <? 0)%Z; reflexivity.
Qed.

Lemma cleanTitle_units title : forallb keyUnit (Utils.cleanTitle title) = true.
Proof.
  unfold Utils.cleanTitle. rewrite replace_one_flat_map.
  apply forallb_forall. intros x Hx. apply in_flat_map in Hx as (c & _ & Hx).
  destruct (isLower c || isDigit c) eqn:E; cbn in Hx; destruct Hx as [<-|[]].
  - unfold keyUnit. now rewrite E.
  - reflexivity.
Qed.

(** X6. A release key has at most 100 units and is made of lower-case letters,
    digits and hyphens only (and the plus sign with which a year beyond 9999
    is printed), whatever the title and the date text hold. *)
Theorem generateReleaseId_alphabet (now : Z) (title date : jsstring) :
  length (Utils.generateReleaseId now title date) <= 100
  /\ forallb keyUnit (Utils.generateReleaseId now title date) = true.
Proof.
  unfold Utils.generateReleaseId, substring0.
  split; [apply firstn_le_length|]. apply forallb_firstn.
  rewrite !forallb_app, cleanTitle_units. cbn [forallb].
  change (keyUnit chDash) with true.
  destruct (Date_parse date); now rewrite isoDate_units.
Qed.

Lemma slug_filter_units s :
  forallb slugUnit
    (replaceAll
       (re_one (fun c => negb (isLower c || isDigit c
                               || (c =? Webflow.backslash)%N || (c =? chDash)%N)))
       [] s) = true.
Proof.
  rewrite replace_one_flat_map. apply forallb_forall. intros x Hx.
  apply in_flat_map in Hx as (c & _ & Hx).
  destruct (isLower c || isDigit c || (c =? Webflow.backslash)%N
            || (c =? chDash)%N) eqn:E; cbn in Hx; [|contradiction].
  destruct Hx as [<-|[]]. exact E.
Qed.

Lemma generateSlug_units title :
  forallb slugUnit (Webflow.generateSlug title) = true.
Proof.
  unfold Webflow.generateSlug, substring0, replaceAll.
  apply forallb_firstn, forallb_trim.
  apply replace_go_forallb; [reflexivity|].
  apply replace_go_forallb; [reflexivity|].
  apply slug_filter_units.
Qed.

Lemma decimal_units y : forallb slugUnit (decimal y) = true.
Proof.
  assert (Hd : forall z, forallb slugUnit (decimal_go 20 z []) = true).
  { intros z. apply (forallb_weaken isDigit); [|now apply decimal_go_digits].
    intros x Hx. unfold slugUnit. rewrite Hx. now rewrite orb_true_r. }
  unfold decimal. destruct (y <? 0)%Z; [|apply Hd].
  cbn [forallb]. now rewrite Hd.
Qed.

(** X7. A slug is at most 100 units long and made of lower-case letters,
    digits, hyphens and backslashes only: nothing else of a title or of a date
    gets into it. *)
Theorem generateUniqueSlug_alphabet (title : jsstring) (publishDate : option jsstring) :
  length (Webflow.generateUniqueSlug title publishDate) <= 100
  /\ forallb slugUnit (Webflow.generateUniqueSlug title publishDate) = true.
Proof.
  unfold Webflow.generateUniqueSlug, substring0.
  split; [apply firstn_le_length|].
  apply forallb_firstn. rewrite forallb_app, generateSlug_units. cbn [andb].
  destruct (match publishDate with Some d => Date_parse d | None => None end)
    as [t|]; [|reflexivity].
  destruct (civil_from_days _) as [[y m] d].
  assert (Hd : forall n z, forallb slugUnit (digits n z) = true).
  { intros n z. apply (forallb_weaken isDigit); [|apply digits_digits].
    intros x Hx. unfold slugUnit. rewrite Hx. now rewrite orb_true_r. }
  rewrite !forallb_app. unfold pad2. rewrite !Hd, decimal_units. reflexivity.
Qed.

(** X8. The slug of a title is the first part of the slug of a release; the
    date follows it only as far as 100 units go. Without a date that parses
    nothing follows; and when the title alone fills the 100 units, the date
    does not show at all: two releases with that title get the same slug
    whatever their dates. *)
Theorem generateUniqueSlug_prefix (title : jsstring) (publishDate : option jsstring) :
  exists datePart,
    Webflow.generateUniqueSlug title publishDate
    = Webflow.generateSlug title ++ datePart
    /\ length datePart <= 100 - length (Webflow.generateSlug title)
    /\ ((match publishDate with Some d => Date_parse d | None => None end) = None
        -> datePart = []).
Proof.
  unfold Webflow.generateUniqueSlug, substring0.
  set (base := Webflow.generateSlug title).
  assert (Hb : length base <= 100) by apply firstn_le_length.
  set (part := match
                 match publishDate with Some d => Date_parse d | None => None end
               with Some t => _ | None => [] end).
  exists (firstn (100 - length base) part).
  rewrite firstn_app, (firstn_all2 base) by exact Hb.
  split; [reflexivity|]. split; [apply firstn_le_length|].
  intros E. subst part. rewrite E. now rewrite firstn_nil.
Qed.

(** X9. White space is taken out of a title, not turned into a hyphen: the
    words on its two sides run together in the slug. *)
Theorem generateSlug_joins_words (a b : jsstring) (c : cunit) :
  isSpace c = true ->
  Webflow.generateSlug (a ++ c :: b) = Webflow.generateSlug (a ++ b).
Proof.
  intros Hc. unfold Webflow.generateSlug. do 4 f_equal.
  rewrite !replace_one_flat_map. unfold toLowerCase.
  rewrite !flat_map_app. cbn [flat_map]. rewrite flat_map_app. f_equal.
  rewrite <- (app_nil_l (flat_map _ (flat_map lowerUnit b))) at 2.
  f_equal.
  assert (E : lowerUnit c = [c] /\ slugUnit c = false).
  { unfold isSpace in Hc. unfold lowerUnit, slugUnit, isLower, isDigit,
      Webflow.backslash, chDash, ch. cbn.
    repeat match type of Hc with
           | (_ || _)%bool = true => apply orb_true_iff in Hc as [Hc|Hc]
           | (_ && _)%bool = true => apply andb_true_iff in Hc as [Hc Hc']
           end;
    repeat match goal with
           | H : (_ <=? _)%N = true |- _ => apply N.leb_le in H
           | H : (_ =? _)%N = true |- _ => apply N.eqb_eq in H
           end;
    (split;
     [repeat match goal with
             | |- context [(?x <=? ?y)%N] =>
               destruct (N.leb_spec x y); cbn [andb orb]; try lia
             | |- context [(?x =? ?y)%N] =>
               destruct (N.eqb_spec x y); cbn [andb orb]; try lia
             end; try reflexivity
     |repeat match goal with
             | |- context [(?x <=? ?y)%N] =>
               destruct (N.leb_spec x y); cbn [andb orb]; try lia
             | |- context [(?x =? ?y)%N] =>
               destruct (N.eqb_spec x y); cbn [andb orb]; try lia
             end; try reflexivity]). }
  destruct E as [E1 E2]. rewrite E1. cbn [flat_map].
  unfold slugUnit in E2. rewrite E2. reflexivity.
Qed.

End Alphabets.

(** ** [formatDate] *)

Section FormatDate.
Context `{Host}.
Import WebflowDates.

Lemma run_app_exact p a b :
  forallb p a = true -> run p b = 0 -> run p (a ++ b) = length a.
Proof.
  induction a as [|c a IH]; cbn; intros Ha Hb; [exact Hb|].
  apply andb_true_iff in Ha as [Hc Ha]. now rewrite Hc, IH.
Qed.

Lemma skipn_app_exact {A} (a b : list A) : skipn (length a) (a ++ b) = b.
Proof. induction a; cbn; auto. Qed.

Lemma firstn_app_exact {A} (a b : list A) : firstn (length a) (a ++ b) = a.
Proof. induction a; cbn; [reflexivity|now f_equal]. Qed.

Lemma firstn_app_len {A} n (a b : list A) : length a = n -> firstn n (a ++ b) = a.
Proof. intros <-. apply firstn_app_exact. Qed.

Lemma skipn_app_len {A} n (a b : list A) : length a = n -> skipn n (a ++ b) = b.
Proof. intros <-. apply skipn_app_exact. Qed.

Lemma word_not_space c : isWord c = true -> isSpace c = false.
Proof.
  unfold isWord, isLower, isUpper, isDigit, isSpace, ch. cbn.
  intros Hw.
  repeat match type of Hw with
         | (_ || _)%bool = true => apply orb_true_iff in Hw as [Hw|Hw]
         end;
  repeat match goal with
         | H : (_ && _)%bool = true |- _ => apply andb_true_iff in H as [? ?]
         | H : (_ <=? _)%N = true |- _ => apply N.leb_le in H
         | H : (_ =? _)%N = true |- _ => apply N.eqb_eq in H
         end;
  repeat match goal with
         | |- context [(?x <=? ?y)%N] =>
           destruct (N.leb_spec x y); cbn [andb orb]; try lia
         | |- context [(?x =? ?y)%N] =>
           destruct (N.eqb_spec x y); cbn [andb orb]; try lia
         end; reflexivity.
Qed.

Lemma digit_is_word c : isDigit c = true -> isWord c = true.
Proof. intros E. unfold isWord. rewrite E. now rewrite !orb_true_r. Qed.

Lemma run_head_false p c r : p c = false -> run p (c :: r) = 0.
Proof. intros E. cbn. now rewrite E. Qed.

(** X10. A date text in the listing's format, day, month word and year set
    apart by white space, that the engine's date parser does not read is
    turned into noon UTC of that day, whatever follows the year. The month is
    looked up by its English three-letter name; any other word of three prints
    as [undefined] in the result. *)
Theorem formatDate_listing_text (now : Z) (day gap1 month gap2 year rest : jsstring) :
  (length day = 1 \/ length day = 2) -> forallb isDigit day = true ->
  gap1 <> [] -> forallb isSpace gap1 = true ->
  length month = 3 -> forallb isWord month = true ->
  gap2 <> [] -> forallb isSpace gap2 = true ->
  length year = 4 -> forallb isDigit year = true ->
  Date_parse (day ++ gap1 ++ month ++ gap2 ++ year ++ rest) = None ->
  formatDate now (Some (day ++ gap1 ++ month ++ gap2 ++ year ++ rest))
  = year ++ js "-" ++ monthText monthMap month ++ js "-" ++ padStart2 day
    ++ js "T12:00:00.000Z".
Proof.
  intros Hdl Hd Hg1 Hs1 Hml Hm Hg2 Hs2 Hyl Hy Hparse.
  assert (Hday : day <> []) by (destruct day; [cbn in Hdl; lia|discriminate]).
  assert (Hm0 : run isSpace (month ++ gap2 ++ year ++ rest) = 0).
  { destruct month as [|c m]; [discriminate|]. cbn in Hm.
    apply andb_true_iff in Hm as [Hc _]. apply run_head_false.
    now apply word_not_space. }
  assert (Hg10 : run isDigit (gap1 ++ month ++ gap2 ++ year ++ rest) = 0).
  { destruct gap1 as [|c g]; [congruence|]. cbn in Hs1.
    apply andb_true_iff in Hs1 as [Hc _]. apply run_head_false.
    destruct (isDigit c) eqn:E; [|reflexivity].
    apply digit_is_word, word_not_space in E. congruence. }
  assert (Hy0 : run isSpace (year ++ rest) = 0).
  { destruct year as [|c y]; [discriminate|]. cbn in Hy.
    apply andb_true_iff in Hy as [Hc _]. apply run_head_false.
    now apply word_not_space, digit_is_word. }
  assert (Hmatch : matchDateAt (day ++ gap1 ++ month ++ gap2 ++ year ++ rest)
                   = Some (day, month, year)).
  { unfold matchDateAt. cbv zeta.
    rewrite (run_app_exact isDigit day _ Hd Hg10).
    replace (Nat.min 2 (length day)) with (length day) by lia.
    rewrite (skipn_app_exact day), (firstn_app_exact day).
    rewrite (run_app_exact isSpace gap1 _ Hs1 Hm0).
    rewrite (skipn_app_exact gap1).
    rewrite (firstn_app_len 3 month _ Hml), (skipn_app_len 3 month _ Hml).
    rewrite (run_app_exact isSpace gap2 _ Hs2 Hy0).
    rewrite (skipn_app_exact gap2).
    rewrite (firstn_app_len 4 year _ Hyl).
    rewrite Hm, Hy, Hml, Hyl.
    destruct gap1 as [|? ?]; [congruence|]. destruct gap2 as [|? ?]; [congruence|].
    destruct day as [|? ?]; [congruence|]. reflexivity. }
  unfold formatDate.
  destruct (day ++ gap1 ++ month ++ gap2 ++ year ++ rest) as [|c text] eqn:Et.
  { apply app_eq_nil in Et as [Et _]. congruence. }
  rewrite Hparse. cbn [matchDate]. rewrite Hmatch. reflexivity.
Qed.

End FormatDate.

(** A title that fills the slug: the releases of two days get one slug. *)
Lemma generateUniqueSlug_prefix_witness :
  Webflow.generateUniqueSlug (H := sample_host) Cases.long_title
    (Some (js "2025-01-05"))
  = Webflow.generateUniqueSlug (H := sample_host) Cases.long_title
      (Some (js "2025-01-02")).
Proof.
  destruct (generateUniqueSlug_prefix (H := sample_host) Cases.long_title
              (Some (js "2025-01-05"))) as (p1 & E1 & L1 & _).
  destruct (generateUniqueSlug_prefix (H := sample_host) Cases.long_title
              (Some (js "2025-01-02"))) as (p2 & E2 & L2 & _).
  rewrite E1, E2.
  assert (Hl : length (Webflow.generateSlug Cases.long_title) = 100)
    by (vm_compute; reflexivity).
  rewrite Hl in L1, L2.
  destruct p1; [|cbn in L1; lia]. destruct p2; [|cbn in L2; lia].
  reflexivity.
Defined.

Lemma generateSlug_joins_words_witness :
  Webflow.generateSlug (js "Q2" ++ chSp :: js "results")
  = Webflow.generateSlug (js "Q2" ++ js "results").
Proof.
  apply (generateSlug_joins_words (js "Q2") (js "results") chSp).
  reflexivity.
Defined.

(** ** Retries *)

Section Retry.
Context {A : Type}.
Variable answer : M Sys A.

Lemma retry_loop_step (fn : M Sys A) (n : nat) (delay : Z) (s : Sys) :
  Utils.retry_loop fn (S n) delay s
  = match fn s with
    | (Ok a, s') => (Ok (Some a), s')
    | (Throw e, s') =>
      match n with
      | O => (Throw e, s')
      | S _ => Utils.retry_loop fn n delay (set_clock s' (clock s' + delay)%Z)
      end
    end.
Proof.
  cbn [Utils.retry_loop]. unfold try_catch, bind, Utils.sleep, modify, ret, throw.
  destruct (fn s) as [[a|e] s']; [reflexivity|]. destruct n; reflexivity.
Qed.

(** A function that fails as a request does when the network is down. *)
Lemma retry_loop_fails (fn : M Sys A) (e : string) (delay : Z) (n : nat) :
  (forall s, net s (reqs s) = false ->
             fn s = (Throw e, set_reqs s (S (reqs s)))) ->
  forall s,
  (forall k, k < S n -> net s (reqs s + k) = false) ->
  exists s',
    Utils.retry_loop fn (S n) delay s = (Throw e, s')
    /\ reqs s' = reqs s + S n
    /\ clock s' = (clock s + Z.of_nat n * delay)%Z
    /\ net s' = net s /\ items s' = items s /\ strict_slugs s' = strict_slugs s
    /\ browsers s' = browsers s /\ launches s' = launches s
    /\ disk s' = disk s.
Proof.
  intros Hfn. induction n as [|n IH]; intros s Hnet;
    pose proof (Hnet 0 (Nat.lt_0_succ _)) as H0; rewrite Nat.add_0_r in H0;
    rewrite retry_loop_step, (Hfn s H0).
  - eexists. split; [reflexivity|]. cbn. repeat split; lia.
  - match goal with
    | |- context [Utils.retry_loop _ _ _ ?s1] =>
      destruct (IH s1) as (s' & E & Hr & Hc & Hn & Hi & Hs & Hb & Hl & Hd)
    end.
    { intros k Hk. cbn. rewrite <- Nat.add_succ_r. apply Hnet. lia. }
    exists s'. split; [exact E|]. cbn in Hr, Hc.
    repeat split; try assumption; lia.
Qed.

Lemma retry_loop_unreachable (delay : Z) (n : nat) : forall s,
  (forall k, k < S n -> net s (reqs s + k) = false) ->
  exists s',
    Utils.retry_loop (Axios.request answer) (S n) delay s
    = (Throw "Request failed", s')
    /\ reqs s' = reqs s + S n
    /\ clock s' = (clock s + Z.of_nat n * delay)%Z
    /\ net s' = net s /\ items s' = items s /\ strict_slugs s' = strict_slugs s
    /\ browsers s' = browsers s /\ launches s' = launches s
    /\ disk s' = disk s.
Proof.
  apply retry_loop_fails. intros s Hnet. unfold Axios.request.
  now rewrite Hnet.
Qed.

(** X11. [retry] on a request that is never answered: with [n] attempts
    allowed, one at least, it sends [n] requests, pauses for [delay] between
    them ([n - 1] times) and then throws the error of the last one; nothing
    but the request count and the clock has changed. *)
Theorem retry_gives_up (delay : Z) (n : nat) (s : Sys) :
  0 < n ->
  (forall k, k < n -> net s (reqs s + k) = false) ->
  exists s',
    Utils.retry (Axios.request answer) (Some n) delay s
    = (Throw "Request failed", s')
    /\ reqs s' = reqs s + n
    /\ clock s' = (clock s + (Z.of_nat n - 1) * delay)%Z
    /\ items s' = items s /\ browsers s' = browsers s /\ disk s' = disk s.
Proof.
  intros Hn Hnet. destruct n as [|n]; [lia|].
  destruct (retry_loop_unreachable delay n s Hnet)
    as (s' & E & Hr & Hc & _ & Hi & _ & Hb & _ & Hd).
  exists s'. unfold Utils.retry. split; [exact E|].
  repeat split; try assumption. rewrite Hc. lia.
Qed.

(** X12. [retry] on a request that is answered at the attempt after [k]
    failures, [k] below the number of attempts allowed: it returns what the
    server answers to that request, [k] pauses later, and leaves the remaining
    attempts unused. *)
Theorem retry_recovers (delay : Z) (n k : nat) (s : Sys) (a : A) (t : Sys) :
  k < n ->
  (forall j, j < k -> net s (reqs s + j) = false) ->
  net s (reqs s + k) = true ->
  answer (set_clock (set_reqs s (reqs s + S k))
            (clock s + Z.of_nat k * delay)%Z) = (Ok a, t) ->
  Utils.retry (Axios.request answer) (Some n) delay s = (Ok (Some a), t).
Proof.
  unfold Utils.retry. revert n s a t.
  induction k as [|k IH]; intros n s a t Hk Hfail Hok Ha.
  - destruct n as [|n]; [lia|]. rewrite retry_loop_step.
    unfold Axios.request.
    rewrite Nat.add_0_r in Hok. rewrite Hok.
    replace (set_reqs s (S (reqs s)))
      with (set_clock (set_reqs s (reqs s + 1)) (clock s + Z.of_nat 0 * delay)%Z).
    { rewrite Ha. reflexivity. }
    unfold set_clock, set_reqs.
    cbn [net reqs clock page items strict_slugs sessions launches browsers
         disk disk_writable].
    f_equal; lia.
  - destruct n as [|[|n]]; [lia|lia|]. rewrite retry_loop_step.
    unfold Axios.request at 1.
    pose proof (Hfail 0 (Nat.lt_0_succ _)) as H0. rewrite Nat.add_0_r in H0.
    rewrite H0.
    apply IH.
    + lia.
    + intros j Hj. cbn. rewrite <- Nat.add_succ_r. apply Hfail. lia.
    + cbn. rewrite <- Nat.add_succ_r. exact Hok.
    + rewrite <- Ha. f_equal. unfold set_clock, set_reqs.
      cbn [net reqs clock page items strict_slugs sessions launches browsers
           disk disk_writable].
      f_equal; lia.
Qed.

End Retry.

(** ** What [retry] returns *)

Section RetryResult.
Context {A : Type}.
Variable fn : M Sys A.

Lemma retry_loop_result (delay : Z) (n : nat) : forall s,
  match Utils.retry_loop fn n delay s with
  | (Ok (Some a), s') => exists s0, fn s0 = (Ok a, s')
  | (Ok None, s') => n = 0 /\ s' = s
  | (Throw e, s') => 0 < n /\ exists s0, fn s0 = (Throw e, s')
  end.
Proof.
  induction n as [|n IH]; intros s; [now split|].
  rewrite retry_loop_step. destruct (fn s) as [[a|e] s1] eqn:E.
  - now exists s.
  - destruct n as [|n]; [split; [lia|now exists s]|].
    specialize (IH (set_clock s1 (clock s1 + delay)%Z)).
    destruct (Utils.retry_loop fn (S n) delay _) as [[[a|]|e'] s2].
    + exact IH.
    + destruct IH as [IH _]. discriminate.
    + destruct IH as [_ IH]. split; [lia|exact IH].
Qed.

(** X13. What [retry] returns is what a call of [fn] returned, and what it
    throws is what a call of [fn] threw, with the world as that call left it.
    It returns [undefined] only when the number of attempts is 0, and then
    leaves the world as it was; left out, the number of attempts is 3. *)
Theorem retry_result (attempts : option nat) (delay : Z) (s : Sys) :
  match Utils.retry fn attempts delay s with
  | (Ok (Some a), s') => exists s0, fn s0 = (Ok a, s')
  | (Ok None, s') => attempts = Some 0 /\ s' = s
  | (Throw e, s') => attempts <> Some 0 /\ exists s0, fn s0 = (Throw e, s')
  end
  /\ Utils.retry fn None delay s = Utils.retry fn (Some 3) delay s.
Proof.
  split; [|reflexivity].
  unfold Utils.retry.
  pose proof (retry_loop_result delay
                (match attempts with Some n => n | None => 3 end) s) as P.
  destruct (Utils.retry_loop fn _ delay s) as [[[a|]|e] s'].
  - exact P.
  - destruct P as [P ->]. split; [|reflexivity].
    destruct attempts as [n|]; [now subst|discriminate].
  - destruct P as [P Q]. split; [|exact Q].
    intros ->. lia.
Qed.

End RetryResult.

(** ** The records of the list parser *)

Section ParserRecords.
Context `{Host}.
Variable config : Config.

Lemma trim_ends s : run isSpace (trim s) = 0 /\ run isSpace (rev (trim s)) = 0.
Proof.
  unfold trim, trimStart. split; [|apply trimEnd_last].
  apply trimEnd_run, run_after_dropWhile.
Qed.

Lemma findTitle_shape D el sels title link nodeId :
  Scraper.findTitle D el sels = (title, link, nodeId) ->
  (run isSpace title = 0 /\ run isSpace (rev title) = 0)
  /\ (nodeId <> [] ->
      link = Some (js "https://live.euronext.com/en/pd_press/" ++ nodeId)).
Proof.
  induction sels as [|titleSel rest IH]; cbn [Scraper.findTitle].
  - intros E. inversion E. split; [split; reflexivity|congruence].
  - destruct (nonEmpty (Scraper.first (find D el titleSel))
              && nonEmpty (trim (Scraper.textOf D (Scraper.first (find D el titleSel)))));
      [|exact IH].
    destruct (Scraper.orU (Scraper.attrOf D (Scraper.first (find D el titleSel))
                             "data-node-nid") _) as [[|c r]|];
      intros E; inversion E; subst; (split; [apply trim_ends|congruence]).
Qed.

Lemma parseRow_record D now el r :
  Scraper.parseRow config D now el = Some r -> wellFormed r.
Proof.
  unfold Scraper.parseRow.
  generalize (Scraper.findDate D el Scraper.dateSelectors) as dt. intros dt.
  destruct (nonEmpty (find D el "th")); [discriminate|].
  destruct (Scraper.findTitle D el Scraper.titleSelectors) as [[t link] nid] eqn:ET.
  apply findTitle_shape in ET as [[Ht1 Ht2] Hlink].
  destruct (nonEmpty t && (10 <? length t)) eqn:Eok; [|discriminate].
  apply andb_true_iff in Eok as [_ Hlen]. apply Nat.ltb_lt in Hlen.
  intros E. inversion E; subst r; clear E. unfold wellFormed. cbn [title dateText
    url id content publishDate nodeId].
  split; [exact Hlen|]. split; [exact Ht1|]. split; [exact Ht2|].
  split. { destruct dt; cbn; discriminate. }
  split. { destruct link as [[|c l]|]; try (cbn; discriminate).
           match goal with
           | |- (if ?b then _ else _) <> _ => destruct b; [discriminate|]
           end.
           intros E. apply app_eq_nil in E as [_ E]. discriminate. }
  split; [apply firstn_le_length|].
  split.
  { unfold Utils.generateReleaseId, substring0. apply forallb_firstn.
    rewrite !forallb_app, cleanTitle_units. cbn [forallb].
    change (keyUnit chDash) with true.
    destruct (Date_parse _); now rewrite isoDate_units. }
  split; [reflexivity|]. split; [reflexivity|].
  intros n En. destruct nid as [|c l]; [discriminate|]. inversion En; subst n.
  split; [discriminate|].
  rewrite Hlink by discriminate.
  change (js "https://live.euronext.com/en/pd_press/" ++ c :: l)
    with (104%N :: (skipn 1 (js "https://live.euronext.com/en/pd_press/") ++ c :: l)).
  reflexivity.
Qed.

Lemma rowRecords_wellFormed D now rows :
  Forall wellFormed (Spec.rowRecords config D now rows).
Proof.
  apply Forall_forall. intros r Hr. unfold Spec.rowRecords in Hr.
  apply in_flat_map in Hr as (el & _ & Hr).
  destruct (Scraper.parseRow config D now el) as [r'|] eqn:E; [|contradiction].
  destruct Hr as [<-|[]]. exact (parseRow_record _ _ _ _ E).
Qed.

Lemma trySelectors_wellFormed D now sels : forall st asked,
  fst st = nonEmpty (snd st) ->
  Forall wellFormed (snd st) ->
  Forall wellFormed (snd (fst (Scraper.trySelectors config D now sels st asked)))
  /\ fst (fst (Scraper.trySelectors config D now sels st asked))
     = nonEmpty (snd (fst (Scraper.trySelectors config D now sels st asked))).
Proof.
  induction sels as [|selector rest IH]; intros [found acc] asked Hf Hacc;
    cbn [Scraper.trySelectors fst snd] in *; [auto|].
  destruct found; [cbn [fst snd]; auto|].
  rewrite eachRow_spec. apply IH; cbn [fst snd].
  - destruct acc; [|discriminate]. reflexivity.
  - apply Forall_app. split; [exact Hacc|apply rowRecords_wellFormed].
Qed.

(** X14. Every record the list parser returns is well formed, whatever the
    page holds: its title has more than ten units and no white space at either
    end, its date text and its link are not empty, its key has at most 100
    units, all from the key alphabet, it has no content yet, and a node id
    comes with the press-release link made from it. The parser reports success
    exactly when it returns a record. *)
Theorem parseListing_records (D : Cheerio) (now : Z) :
  Forall wellFormed (snd (fst (Scraper.parseListing config D now)))
  /\ fst (fst (Scraper.parseListing config D now))
     = nonEmpty (snd (fst (Scraper.parseListing config D now))).
Proof.
  unfold Scraper.parseListing. apply trySelectors_wellFormed.
  - reflexivity.
  - constructor.
Qed.

End ParserRecords.

(** ** The list the scraper returns *)

Section ListFetch.
Context `{Host}.
Variable config : Config.

Local Abbreviation cutoffDateStr :=
  (orElse (match onlyAfterDate config with Some v => v | None => [] end)
     (js "2025-06-27")).

(** X15. When the listing is served at the first request and the cutoff date
    parses, the list returned holds exactly the records of the page that pass
    the cutoff filter, each as often as the page has it: sorting drops and
    adds nothing. All of them are well-formed records. *)
Theorem fetchPressReleaseList_selection (s : Sys) (cutoffDate : Z) :
  net s (reqs s) = true ->
  euronext_retryAttempts config <> Some 0 ->
  Date_parse cutoffDateStr = Some cutoffDate ->
  exists out,
    Scraper.fetchPressReleaseList config s
    = (Ok (Some out), set_reqs s (S (reqs s)))
    /\ Permutation out
         (filter (Scraper.isRecent cutoffDate)
            (snd (fst (Scraper.parseListing config (page s) (clock s)))))
    /\ Forall (fun r => Scraper.isRecent cutoffDate r = true) out
    /\ Forall wellFormed out.
Proof.
  intros Hnet Hatt Hcut.
  rewrite (fetchPressReleaseList_answered config s cutoffDate Hnet Hatt Hcut).
  eexists. split; [reflexivity|].
  set (records := snd (fst (Scraper.parseListing config (page s) (clock s)))).
  assert (P : Permutation (sort Scraper.compareReleases
                             (filter (Scraper.isRecent cutoffDate) records))
                (filter (Scraper.isRecent cutoffDate) records))
    by (symmetry; apply sort_perm).
  split; [exact P|]. split.
  - apply (Permutation_Forall (Permutation_sym P)).
    apply Forall_forall. intros r Hr. now apply filter_In in Hr.
  - apply (Permutation_Forall (Permutation_sym P)).
    apply Forall_forall. intros r Hr. apply filter_In in Hr as [Hr _].
    destruct (trySelectors_wellFormed config (page s) (clock s)
                Scraper.selectors (false, []) [] eq_refl (Forall_nil _))
      as [Hw _].
    rewrite Forall_forall in Hw. now apply Hw.
Qed.

Let listAttempt : M Sys (list Release) :=
  Eff.bind Scraper.axios_get_page (fun D =>
  Eff.bind Scraper.now (fun t =>
    let releases := snd (fst (Scraper.parseListing config D t)) in
    match Date_parse cutoffDateStr with
    | None => throw "RangeError: Invalid time value"
    | Some cutoffDate =>
      let recentReleases := filter (Scraper.isRecent cutoffDate) releases in
      ret (sort Scraper.compareReleases recentReleases)
    end)).

Lemma listAttempt_bad_cutoff s :
  net s (reqs s) = true ->
  Date_parse cutoffDateStr = None ->
  listAttempt s
  = (Throw "RangeError: Invalid time value", set_reqs s (S (reqs s))).
Proof.
  intros Hnet Hcut. unfold listAttempt, bind, Scraper.axios_get_page,
    Axios.request, Scraper.now. rewrite Hnet, Hcut. reflexivity.
Qed.

Lemma fetchPressReleaseList_bad_cutoff_loop (n : nat) : forall s,
  reliable s ->
  Date_parse cutoffDateStr = None ->
  exists s',
    Utils.retry_loop listAttempt (S n) (euronext_retryDelayMs config) s
    = (Throw "RangeError: Invalid time value", s')
    /\ reqs s' = reqs s + S n
    /\ clock s' = (clock s + Z.of_nat n * euronext_retryDelayMs config)%Z.
Proof.
  induction n as [|n IH]; intros s Hrel Hcut; rewrite retry_loop_step,
    listAttempt_bad_cutoff by (apply Hrel || exact Hcut).
  - eexists. split; [reflexivity|]. cbn. split; lia.
  - match goal with
    | |- context [Utils.retry_loop _ _ _ ?s1] =>
      destruct (IH s1) as (s' & E & Hr & Hc); [exact Hrel|exact Hcut|]
    end.
    exists s'. split; [exact E|]. cbn in Hr, Hc. split; lia.
Qed.

(** X16. A cutoff date in the configuration that does not parse makes every
    attempt fail after the page has been fetched and parsed: with [n] attempts
    allowed the listing is requested [n] times, with the retry pause in
    between, and the call throws the [RangeError] of [toISOString]. *)
Theorem fetchPressReleaseList_bad_cutoff (n : nat) (s : Sys) :
  reliable s ->
  euronext_retryAttempts config = Some n ->
  0 < n ->
  Date_parse cutoffDateStr = None ->
  exists s',
    Scraper.fetchPressReleaseList config s
    = (Throw "RangeError: Invalid time value", s')
    /\ reqs s' = reqs s + n
    /\ clock s' = (clock s + (Z.of_nat n - 1) * euronext_retryDelayMs config)%Z.
Proof.
  intros Hrel Hatt Hn Hcut. destruct n as [|n]; [lia|].
  destruct (fetchPressReleaseList_bad_cutoff_loop n s Hrel Hcut)
    as (s' & E & Hr & Hc).
  exists s'. unfold Scraper.fetchPressReleaseList, Utils.retry. rewrite Hatt.
  split; [exact E|]. split; [exact Hr|]. rewrite Hc. lia.
Qed.

End ListFetch.

(** ** The content step *)

Section ContentStep.




End ContentStep.

(** ** The direct-navigation variant: what it returns *)

Section DirectContent.
Variable config : Config.

Ltac closing :=
  cbn;
  match goal with
  | |- context [close_ok ?x] => destruct (close_ok x); cbn; discriminate
  end.

Lemma direct_attempt_result (x r : Release) (s s' : Sys) :
  ScraperDirect.attempt x s = (Ok r, s') ->
  exists c,
    evaluate (sessions s (launches s)) = Ok (Some c)
    /\ 50 <= length (trim c)
    /\ content r = Some (Utils.cleanHtmlContent c)
    /\ id r = id x /\ url r = url x /\ dateText r = dateText x
    /\ title r = orElse (evaluate_title (sessions s (launches s))) (title x).
Proof.
  unfold ScraperDirect.attempt, bind, try_finally, Scraper.launch,
    Scraper.step, Scraper.page_evaluate, Scraper.close, get, throw, ret.
  destruct (launch_ok (sessions s (launches s))) eqn:Hl; drive; [|discriminate].
  destruct (newPage_ok (sessions s (launches s))) eqn:H1; drive;
    [|closing].
  destruct (setUserAgent_ok (sessions s (launches s))) eqn:H2; drive;
    [|closing].
  destruct (goto_ok (sessions s (launches s))) eqn:H3; drive;
    [|closing].
  destruct (waitForTimeout_ok (sessions s (launches s))) eqn:H4; drive;
    [|closing].
  destruct (evaluate (sessions s (launches s))) as [mc|e] eqn:H5; drive;
    [|closing].
  destruct mc as [[|u c]|]; cbn [nonEmpty negb orb]; [closing| |closing].
  match goal with
  | |- context [if ?b then _ else _] => destruct b eqn:Hc
  end; [closing|].
  apply Nat.leb_gt in Hc. cbn.
  match goal with
  | |- context [close_ok ?x] => destruct (close_ok x); cbn; [|discriminate]
  end.
  intros E. inversion E; subst.
  exists (u :: c). cbn. repeat split; auto.
Qed.

(** X18. The direct-navigation variant returns a release only with the content
    of a page that gave at least 50 units, white space at the ends not
    counted, and hands it on cleaned; key, link and date text are those of the
    release asked for. It returns [undefined] only when the number of attempts
    is 0. *)
Theorem direct_content (x : Release) (s s' : Sys) (result : option Release) :
  ScraperDirect.fetchPressReleaseContent config x s = (Ok result, s') ->
  match result with
  | Some r =>
    exists c,
      50 <= length (trim c)
      /\ content r = Some (Utils.cleanHtmlContent c)
      /\ id r = id x /\ url r = url x /\ dateText r = dateText x
  | None => euronext_retryAttempts config = Some 0
  end.
Proof.
  intros E. unfold ScraperDirect.fetchPressReleaseContent, Utils.retry in E.
  pose proof (retry_loop_result (ScraperDirect.attempt x)
                (euronext_retryDelayMs config)
                (match euronext_retryAttempts config with
                 | Some n => n
                 | None => 3
                 end) s) as P.
  rewrite E in P. destruct result as [r|].
  - destruct P as (s0 & E0).
    destruct (direct_attempt_result x r s0 s' E0)
      as (c & _ & Hc & Hr & Hi & Hu & Hd & _).
    exists c. auto.
  - destruct P as [P _].
    destruct (euronext_retryAttempts config) as [n|]; [now subst|discriminate].
Qed.

End DirectContent.

(** ** What a stage leaves alone *)

Section Keeps.
Variable I : Sys -> Prop.

Lemma keeps_ret {A} (a : A) : keeps I (ret a).
Proof. intros s Hs. exact Hs. Qed.

Lemma keeps_throw {A} e : keeps I (throw (A := A) e).
Proof. intros s Hs. exact Hs. Qed.

Lemma keeps_bind {A B} (m : M Sys A) (k : A -> M Sys B) :
  keeps I m -> (forall a, keeps I (k a)) -> keeps I (bind m k).
Proof.
  intros Hm Hk s Hs. unfold bind. specialize (Hm s Hs).
  destruct (m s) as [[a|e] s1]; cbn in *; [now apply Hk|exact Hm].
Qed.

Lemma keeps_try_catch {A} (m : M Sys A) (h : string -> M Sys A) :
  keeps I m -> (forall e, keeps I (h e)) -> keeps I (try_catch m h).
Proof.
  intros Hm Hh s Hs. unfold try_catch. specialize (Hm s Hs).
  destruct (m s) as [[a|e] s1]; cbn in *; [exact Hm|now apply Hh].
Qed.

Lemma keeps_request {A} (answer : M Sys A) :
  ignores_reqs I -> keeps I answer -> keeps I (Axios.request answer).
Proof.
  intros Hr Ha s Hs. unfold Axios.request.
  destruct (net s (reqs s)); [apply Ha|]; apply Hr, Hs.
Qed.

Lemma keeps_sleep ms : ignores_clock I -> keeps I (Utils.sleep ms).
Proof. intros Hc s Hs. apply Hc, Hs. Qed.

Lemma keeps_retry {A} (fn : M Sys A) attempts delay :
  ignores_clock I -> keeps I fn -> keeps I (Utils.retry fn attempts delay).
Proof.
  intros Hc Hfn s Hs. unfold Utils.retry.
  apply (retry_loop_invariant fn I); auto.
Qed.

Lemma keeps_local_lift {L A} (m : M Sys A) :
  keeps I m -> keeps_local (L := L) I (lift m).
Proof.
  intros Hm s l Hs. unfold lift. cbn [fst snd]. specialize (Hm s Hs).
  destruct (m s) as [r s1]. exact Hm.
Qed.

Lemma keeps_local_update {L} (f : L -> L) : keeps_local I (update f).
Proof. intros s l Hs. exact Hs. Qed.

Lemma keeps_local_ret {L A} (a : A) : keeps_local (L := L) I (ret a).
Proof. intros s l Hs. exact Hs. Qed.

Lemma keeps_local_bind {L A B} (m : M (Sys * L) A) (k : A -> M (Sys * L) B) :
  keeps_local I m -> (forall a, keeps_local I (k a)) -> keeps_local I (bind m k).
Proof.
  intros Hm Hk s l Hs. unfold bind. specialize (Hm s l Hs).
  destruct (m (s, l)) as [[a|e] [s1 l1]]; cbn in *; [now apply Hk|exact Hm].
Qed.

Lemma keeps_local_try_catch {L A} (m : M (Sys * L) A) (h : string -> M (Sys * L) A) :
  keeps_local I m -> (forall e, keeps_local I (h e)) ->
  keeps_local I (try_catch m h).
Proof.
  intros Hm Hh s l Hs. unfold try_catch. specialize (Hm s l Hs).
  destruct (m (s, l)) as [[a|e] [s1 l1]]; cbn in *; [exact Hm|now apply Hh].
Qed.

Lemma keeps_local_for_of {L A} (l : list A) (body : A -> M (Sys * L) unit) :
  (forall x, In x l -> keeps_local I (body x)) -> keeps_local I (for_of l body).
Proof.
  induction l as [|x l IH]; intros Hb; cbn [for_of].
  - apply keeps_local_ret.
  - apply keeps_local_bind; [apply Hb; now left|].
    intros _. apply IH. intros y Hy. apply Hb. now right.
Qed.

Lemma keeps_scope {L A} (l0 : L) (m : M (Sys * L) A) :
  keeps_local I m -> keeps I (scope l0 m).
Proof.
  intros Hm s Hs. unfold scope. specialize (Hm s l0 Hs).
  destruct (m (s, l0)) as [r [s1 l1]]. exact Hm.
Qed.

End Keeps.

(** *** The publisher *)

Section PublisherKeeps.
Context `{Host}.
Variable config : Config.
Variable I : Sys -> Prop.
Variable allowed : jsstring -> Prop.
Hypothesis I_reqs : ignores_reqs I.
Hypothesis I_clock : ignores_clock I.
Hypothesis I_post : forall isDraft name slug body,
  allowed slug -> keeps I (Webflow.post_item isDraft name slug body).
Hypothesis I_publish : forall itemId, keeps I (Webflow.post_publish itemId).

Lemma itemExists_keeps x : keeps I (Webflow.itemExists x).
Proof.
  unfold Webflow.itemExists. apply keeps_try_catch.
  - apply keeps_bind; [|intros l; apply keeps_ret].
    apply keeps_request; [exact I_reqs|]. intros s Hs. exact Hs.
  - intros e. apply keeps_ret.
Qed.

Lemma legacy_itemExists_keeps i : keeps I (WebflowLegacy.itemExists i).
Proof.
  unfold WebflowLegacy.itemExists. apply keeps_try_catch.
  - apply keeps_bind; [|intros l; apply keeps_ret].
    apply keeps_request; [exact I_reqs|]. intros s Hs. exact Hs.
  - intros e. apply keeps_ret.
Qed.

Lemma publishItem_keeps k : keeps I (Webflow.publishItem config k).
Proof. apply keeps_retry; [exact I_clock|apply I_publish]. Qed.

Lemma createItemAs_keeps slug x :
  allowed slug -> keeps I (Webflow.createItemAs config slug x).
Proof.
  intros Hs. unfold Webflow.createItemAs. apply keeps_retry; [exact I_clock|].
  apply keeps_bind; [now apply I_post|]. intros item.
  apply keeps_bind; [|intros _; apply keeps_ret].
  destruct (publishImmediately config); [|apply keeps_ret].
  apply keeps_bind; [apply publishItem_keeps|intros _; apply keeps_ret].
Qed.

Lemma bulk_keeps itemExists createItem pause (l : list Release) :
  (forall x, In x l -> keeps I (itemExists x)) ->
  (forall x, In x l -> keeps I (createItem x)) ->
  keeps I (Webflow.bulk itemExists createItem pause l).
Proof.
  intros He Hc. unfold Webflow.bulk. apply keeps_scope.
  apply keeps_local_bind; [|intros _; intros s r Hs; exact Hs].
  apply keeps_local_for_of. intros x Hx. unfold Webflow.bulk_step.
  apply keeps_local_try_catch; [|intros e; apply keeps_local_update].
  apply keeps_local_bind; [apply keeps_local_lift, He, Hx|].
  intros [|]; [apply keeps_local_update|].
  apply keeps_local_bind; [apply keeps_local_lift, Hc, Hx|]. intros item.
  apply keeps_local_bind; [apply keeps_local_update|]. intros _.
  apply keeps_local_lift, keeps_sleep, I_clock.
Qed.

Lemma createItems_keeps (l : list Release) :
  (forall x, In x l -> allowed (slugOf x)) ->
  keeps I (Webflow.createItems config l).
Proof.
  intros Hl. apply bulk_keeps.
  - intros x _. apply itemExists_keeps.
  - intros x Hx. apply createItemAs_keeps, Hl, Hx.
Qed.

Lemma legacy_createItems_keeps (l : list Release) :
  (forall x, In x l -> allowed (Webflow.generateSlug (title x))) ->
  keeps I (WebflowLegacy.createItems config l).
Proof.
  intros Hl. apply bulk_keeps.
  - intros x _. apply legacy_itemExists_keeps.
  - intros x Hx. apply createItemAs_keeps, Hl, Hx.
Qed.

End PublisherKeeps.

(** *** What the publisher does to the collection *)

Section PublisherFacts.
Context `{Host}.
Variable config : Config.

#[local] Arguments Webflow.generateUniqueSlug : simpl never.
#[local] Arguments Webflow.holds : simpl never.

Lemma post_item_slugs isDraft name slug body s :
  slugs (snd (Webflow.post_item isDraft name slug body s)) = slugs s
  \/ (slugs (snd (Webflow.post_item isDraft name slug body s)) = slugs s ++ [slug]
      /\ (strict_slugs s = true -> ~ In slug (slugs s))).
Proof.
  unfold Webflow.post_item, Axios.request.
  destruct (net s (reqs s)); [|now left]. cbn [strict_slugs items set_reqs].
  destruct (strict_slugs s && Webflow.holds slug (items s)) eqn:E; [now left|].
  right. unfold slugs. cbn. rewrite map_app. split; [reflexivity|].
  intros Hs. rewrite Hs in E. cbn in E. intros Hin.
  apply holds_In in Hin. congruence.
Qed.


Lemma post_publish_slugs itemId s :
  slugs (snd (Webflow.post_publish itemId s)) = slugs s
  /\ strict_slugs (snd (Webflow.post_publish itemId s)) = strict_slugs s.
Proof.
  unfold Webflow.post_publish, Axios.request.
  destruct (net s (reqs s)); [|now split]. cbn [items set_reqs].
  destruct (existsb _ (items s)); [|now split].
  unfold slugs. cbn. now rewrite go_live_slugs.
Qed.

(** X19. The publisher only ever adds to the collection: after a call, the
    slugs of the collection are those it held before, in their order,
    followed by slugs of records of the call.  No item is removed or
    renamed, whatever the network and the CMS do.  This holds for the
    client and for its earlier variant, each with the slugs it derives. *)
Theorem createItems_only_appends (pressReleases : list Release) (s : Sys) :
  (exists added,
     slugs (snd (Webflow.createItems config pressReleases s)) = slugs s ++ added
     /\ Forall (fun slug => In slug (map slugOf pressReleases)) added)
  /\ (exists added,
        slugs (snd (WebflowLegacy.createItems config pressReleases s))
        = slugs s ++ added
        /\ Forall (fun slug =>
                     In slug (map (fun x => Webflow.generateSlug (title x))
                                pressReleases)) added).
Proof.
  assert (K : forall allowed : jsstring -> Prop,
            let I := fun s' : Sys =>
                       exists added, slugs s' = slugs s ++ added
                                     /\ Forall allowed added in
            ignores_reqs I /\ ignores_clock I
            /\ (forall isDraft name slug body,
                  allowed slug ->
                  keeps I (Webflow.post_item isDraft name slug body))
            /\ (forall itemId, keeps I (Webflow.post_publish itemId))
            /\ I s).
  { intros allowed I. repeat split.
    - intros s1 n Hs. exact Hs.
    - intros s1 t Hs. exact Hs.
    - intros isDraft name slug body Hslug s1 (added & E & HF).
      destruct (post_item_slugs isDraft name slug body s1) as [E1|[E1 _]].
      + exists added. now rewrite E1.
      + exists (added ++ [slug]). rewrite E1, E, <- app_assoc.
        split; [reflexivity|]. apply Forall_app. split; [exact HF|].
        now constructor.
    - intros itemId s1 (added & E & HF). exists added.
      destruct (post_publish_slugs itemId s1) as [E1 _]. now rewrite E1.
    - exists []. now rewrite app_nil_r. }
  split.
  - destruct (K (fun slug => In slug (map slugOf pressReleases)))
      as (Hr & Hc & Hp & Hq & Hs).
    apply (createItems_keeps config _ _ Hr Hc Hp Hq); [|exact Hs].
    intros x Hx. now apply in_map.
  - destruct (K (fun slug => In slug (map (fun x => Webflow.generateSlug (title x))
                                        pressReleases)))
      as (Hr & Hc & Hp & Hq & Hs).
    apply (legacy_createItems_keeps config _ _ Hr Hc Hp Hq); [|exact Hs].
    intros x Hx. exact (in_map (fun x => Webflow.generateSlug (title x)) _ _ Hx).
Qed.


(** X21. With an answering network, one attempt at least and a slug the
    collection does not hold, [createItem] stores one item under the slug of
    the release, with its title and content, in one request, or in two when it
    publishes. [publishImmediately] decides both flags: the item is a draft
    exactly when it is off, and live in the collection exactly when it is on. *)
Theorem createItem_publishes (x : Release) (s : Sys) :
  reliable s ->
  webflow_retryAttempts config <> Some 0 ->
  Webflow.holds (slugOf x) (items s) = false ->
  exists item kept s',
    Webflow.createItem config x s = (Ok (Some item), s')
    /\ item_slug item = slugOf x /\ item_name item = title x
    /\ item_body item = content x
    /\ item_isDraft item = negb (publishImmediately config)
    /\ In kept (items s')
    /\ item_id kept = item_id item /\ item_slug kept = slugOf x
    /\ item_live kept = publishImmediately config
    /\ length (items s') = S (length (items s))
    /\ reqs s' = reqs s + (if publishImmediately config then 2 else 1).
Proof.
  intros Hrel Hatt Hfree.
  unfold Webflow.createItem, Webflow.createItemAs, Webflow.publishItem, Utils.retry.
  fold (slugOf x).
  destruct (match webflow_retryAttempts config with
            | Some n => n
            | None => 3
            end) as [|k] eqn:Ek.
  { destruct (webflow_retryAttempts config) as [[|n]|]; congruence. }
  rewrite retry_loop_step.
  unfold bind at 1, Webflow.post_item, Axios.request.
  rewrite Hrel. cbn [strict_slugs items set_reqs]. rewrite Hfree, andb_false_r.
  destruct (publishImmediately config) eqn:Hp; cbn [negb].
  - unfold bind. rewrite retry_loop_step.
    unfold Webflow.post_publish, Axios.request.
    cbn [net reqs items set_items set_reqs item_id]. rewrite Hrel.
    rewrite existsb_app. cbn [existsb item_id]. rewrite Nat.eqb_refl, orb_true_r.
    cbn [ret]. eexists; eexists; eexists. split; [reflexivity|].
    cbn [item_slug item_name item_body item_isDraft item_id items set_items
         set_reqs reqs].
    repeat (split; [reflexivity|]).
    split.
    { rewrite map_app. apply in_or_app. right. cbn [map].
      unfold Webflow.go_live at 1. cbn [item_id]. rewrite Nat.eqb_refl.
      left. reflexivity. }
    cbn. repeat (split; [reflexivity|]).
    split; [|lia]. rewrite length_map, length_app. cbn. lia.
  - unfold bind. cbn [ret]. eexists; eexists; eexists. split; [reflexivity|].
    cbn [item_slug item_name item_body item_isDraft item_id items set_items
         set_reqs reqs].
    repeat (split; [reflexivity|]).
    split; [apply in_or_app; right; left; reflexivity|].
    cbn. repeat (split; [reflexivity|]).
    split; [|lia]. rewrite length_app. cbn. lia.
Qed.

Lemma itemExists_returns (x : Release) (s : Sys) :
  exists b,
    Webflow.itemExists x s = (Ok b, set_reqs s (S (reqs s)))
    /\ (net s (reqs s) = false -> b = false).
Proof.
  unfold Webflow.itemExists, try_catch, bind, Webflow.get_items, Axios.request.
  destruct (net s (reqs s)); eexists; (split; [reflexivity|]);
    congruence.
Qed.

Lemma createItem_unreachable (x : Release) (n : nat) (s : Sys) :
  webflow_retryAttempts config = Some (S n) ->
  (forall k, k < S n -> net s (reqs s + k) = false) ->
  exists s',
    Webflow.createItem config x s = (Throw "Request failed", s')
    /\ reqs s' = reqs s + S n /\ net s' = net s /\ items s' = items s.
Proof.
  intros Hatt Hnet. unfold Webflow.createItem, Webflow.createItemAs, Utils.retry.
  rewrite Hatt.
  match goal with
  | |- context [Utils.retry_loop ?fn _ ?d _] =>
    destruct (retry_loop_fails fn "Request failed" d n) with (s := s)
      as (s' & E & Hr & _ & Hn & Hi & _)
  end.
  - intros s0 H0. unfold bind, Webflow.post_item, Axios.request.
    now rewrite H0.
  - exact Hnet.
  - exists s'. auto.
Qed.

Lemma createItems_unreachable_loop (n : nat) (l : list Release) : forall s r,
  webflow_retryAttempts config = Some (S n) ->
  (forall k, net s k = false) ->
  exists s',
    for_of l (Webflow.bulk_step Webflow.itemExists (Webflow.createItem config) 2000)
      (s, r)
    = (Ok tt,
       (s', {| created := created r; skipped := skipped r;
               errors := errors r
                         ++ map (fun x => {| failed_release := x;
                                             error := "Request failed" |}) l |}))
    /\ reqs s' = reqs s + length l * S (S n)
    /\ items s' = items s /\ net s' = net s.
Proof.
  induction l as [|x l IH]; intros s r Hatt Hnet.
  - exists s. cbn. rewrite app_nil_r. destruct r. repeat split; lia.
  - cbn [for_of]. unfold bind at 1. rewrite bulk_step_spec.
    destruct (itemExists_returns x s) as (b & E & Hb).
    rewrite E, (Hb (Hnet _)).
    destruct (createItem_unreachable x n (set_reqs s (S (reqs s))) Hatt)
      as (s1 & E1 & Hr1 & Hn1 & Hi1).
    { intros k _. apply Hnet. }
    rewrite E1.
    destruct (IH s1 (Webflow.push_errors
                       {| failed_release := x; error := "Request failed" |} r)
                Hatt) as (s' & E' & Hr' & Hi' & Hn').
    { intros k. rewrite Hn1. apply Hnet. }
    exists s'. rewrite E'. cbn [Webflow.push_errors created skipped errors map].
    rewrite <- app_assoc. split; [reflexivity|].
    cbn in Hr1, Hi1, Hn1. cbn [length].
    repeat split; try congruence. lia.
Qed.

(** X22. When the API does not answer, every record goes to [errors], in the
    order given and with the error of the request; nothing is created or
    skipped and the collection is as before. Each record costs one request for
    the existence check and one for each attempt at creating it. *)
Theorem createItems_unreachable (n : nat) (pressReleases : list Release) (s : Sys) :
  webflow_retryAttempts config = Some n ->
  0 < n ->
  (forall k, net s k = false) ->
  exists s',
    Webflow.createItems config pressReleases s
    = (Ok {| created := []; skipped := [];
             errors := map (fun x => {| failed_release := x;
                                        error := "Request failed" |})
                         pressReleases |}, s')
    /\ items s' = items s
    /\ reqs s' = reqs s + length pressReleases * (1 + n).
Proof.
  intros Hatt Hn Hnet. destruct n as [|n]; [lia|].
  destruct (createItems_unreachable_loop n pressReleases s
              {| created := []; skipped := []; errors := [] |} Hatt Hnet)
    as (s' & E & Hr & Hi & _).
  exists s'. unfold Webflow.createItems, Webflow.bulk, scope, bind.
  rewrite E. cbn. repeat split; assumption.
Qed.




(** X24. The existence check fails open: when its request is not answered the
    record counts as new. If the request that follows is answered by a CMS
    that takes any slug, the record is created again, whether or not the
    collection holds its slug already. *)
Theorem itemExists_fails_open (x : Release) (s : Sys) :
  net s (reqs s) = false ->
  net s (S (reqs s)) = true ->
  strict_slugs s = false ->
  publishImmediately config = false ->
  webflow_retryAttempts config <> Some 0 ->
  exists item s',
    Webflow.createItems config [x] s
    = (Ok {| created := [{| release := x; webflowItem := Some item |}];
             skipped := []; errors := [] |}, s')
    /\ slugs s' = slugs s ++ [slugOf x]
    /\ (In (slugOf x) (slugs s) -> ~ NoDup (slugs s')).
Proof.
  intros Hget Hpost Hlen Hpub Hatt.
  unfold Webflow.createItems. rewrite bulk_single. unfold routed.
  destruct (itemExists_returns x s) as (b & E & Hb). rewrite E, (Hb Hget).
  unfold Webflow.createItem, Webflow.createItemAs, Utils.retry.
  destruct (match webflow_retryAttempts config with
            | Some n => n
            | None => 3
            end) as [|k] eqn:Ek.
  { destruct (webflow_retryAttempts config) as [[|n]|]; congruence. }
  rewrite retry_loop_step. unfold bind, Webflow.post_item, Axios.request.
  cbn [net reqs set_reqs strict_slugs items]. rewrite Hpost, Hlen, Hpub.
  cbn [andb ret]. eexists; eexists. split; [reflexivity|].
  unfold slugs. cbn [items set_items set_clock set_reqs]. rewrite map_app.
  cbn [map item_slug]. split; [reflexivity|].
  intros Hin Hnd. apply NoDup_remove_2 in Hnd. rewrite app_nil_r in Hnd.
  exact (Hnd Hin).
Qed.

End PublisherFacts.

(** *** The scraper *)

Section ScraperKeeps.
Context `{Host}.
Variable config : Config.
Variable I : Sys -> Prop.
Hypothesis I_reqs : ignores_reqs I.
Hypothesis I_clock : ignores_clock I.
Hypothesis I_browsers : ignores_browsers I.

Lemma launch_keeps : keeps I Scraper.launch.
Proof.
  intros s Hs. unfold Scraper.launch.
  destruct (launch_ok _); apply I_browsers, Hs.
Qed.

Lemma step_keeps ok what k : keeps I (Scraper.step ok what k).
Proof. intros s Hs. unfold Scraper.step. destruct (ok _); exact Hs. Qed.

Lemma page_evaluate_keeps k : keeps I (Scraper.page_evaluate k).
Proof. intros s Hs. exact Hs. Qed.

Lemma close_keeps k : keeps I (Scraper.close k).
Proof.
  intros s Hs. unfold Scraper.close.
  destruct (close_ok _); [apply I_browsers|]; exact Hs.
Qed.

Lemma now_keeps : keeps I Scraper.now.
Proof. intros s Hs. exact Hs. Qed.

Lemma fallback_keeps x : keeps I (Scraper.fallback x).
Proof.
  unfold Scraper.fallback. apply keeps_bind; [apply now_keeps|].
  intros t. apply keeps_ret.
Qed.

Ltac keeps_step :=
  first [ apply keeps_ret | apply keeps_throw | apply now_keeps
        | apply fallback_keeps | apply launch_keeps | apply step_keeps
        | apply page_evaluate_keeps | apply close_keeps
        | apply keeps_sleep; exact I_clock
        | apply keeps_bind; [|intros ?]
        | apply keeps_try_catch; [|intros ?] ].

Lemma fetchPressReleaseContent_keeps x :
  keeps I (Scraper.fetchPressReleaseContent x).
Proof.
  unfold Scraper.fetchPressReleaseContent.
  destruct (nodeId x); [|apply fallback_keeps].
  repeat keeps_step.
  - match goal with
    | |- keeps _ (match ?c with _ => _ end) => destruct c as [[|u r]|]
    end; repeat keeps_step.
  - match goal with
    | |- keeps _ (match ?c with _ => _ end) => destruct c
    end; repeat keeps_step.
Qed.

Lemma fetchPressReleaseList_keeps : keeps I (Scraper.fetchPressReleaseList config).
Proof.
  unfold Scraper.fetchPressReleaseList. apply keeps_retry; [exact I_clock|].
  apply keeps_bind.
  - apply keeps_request; [exact I_reqs|]. intros s Hs. exact Hs.
  - intros D. apply keeps_bind; [apply now_keeps|]. intros t.
    cbv zeta. destruct (Date_parse _); [apply keeps_ret|apply keeps_throw].
Qed.

Lemma getLatestReleases_keeps limit : keeps I (Scraper.getLatestReleases config limit).
Proof.
  unfold Scraper.getLatestReleases.
  apply keeps_try_catch; [|intros e; apply keeps_throw].
  apply keeps_bind; [apply fetchPressReleaseList_keeps|].
  intros [releases|]; [|apply keeps_throw].
  cbv zeta. apply keeps_scope.
  apply keeps_local_bind; [|intros _; intros s l Hs; exact Hs].
  apply keeps_local_for_of. intros x _. unfold Scraper.collect.
  apply keeps_local_try_catch; [|intros e; apply keeps_local_ret].
  apply keeps_local_bind;
    [apply keeps_local_lift, fetchPressReleaseContent_keeps|].
  intros full. apply keeps_local_bind; [apply keeps_local_update|].
  intros _. apply keeps_local_lift, keeps_sleep, I_clock.
Qed.

Lemma testConnection_keeps : keeps I Webflow.testConnection.
Proof.
  unfold Webflow.testConnection, Webflow.getCollectionInfo, Webflow.get_collection.
  apply keeps_try_catch; [|intros e; apply keeps_ret].
  apply keeps_bind; [|intros _; apply keeps_ret].
  apply keeps_try_catch; [|intros e; apply keeps_throw].
  apply keeps_request; [exact I_reqs|apply keeps_ret].
Qed.

End ScraperKeeps.

Section Stages.
Context `{Host}.
Variable config : Config.

Lemma createItems_keeps_frame (I : Sys -> Prop) (l : list Release) :
  ignores_reqs I -> ignores_clock I -> ignores_items I ->
  keeps I (Webflow.createItems config l).
Proof.
  intros Hr Hc Hi.
  apply (createItems_keeps config I (fun _ => True)); auto.
  - intros isDraft name slug body _ s Hs.
    unfold Webflow.post_item, Axios.request.
    destruct (net s (reqs s)); [|apply Hr, Hs]. cbn [strict_slugs items set_reqs].
    destruct (strict_slugs s && _); [apply Hr, Hs|apply Hi, Hr, Hs].
  - intros itemId s Hs. unfold Webflow.post_publish, Axios.request.
    destruct (net s (reqs s)); [|apply Hr, Hs]. cbn [items set_reqs].
    destruct (existsb _ _); [apply Hi, Hr, Hs|apply Hr, Hs].
Qed.

(** X25. The stages keep to their own part of the world. The scraper never
    writes to the CMS collection or to the state file; the publisher never
    starts or closes a browser and never touches the state file either. *)
Theorem stages_keep_apart (limit : nat) (pressReleases : list Release) (s : Sys) :
  (items (snd (Scraper.getLatestReleases config limit s)) = items s
   /\ disk (snd (Scraper.getLatestReleases config limit s)) = disk s)
  /\ (browsers (snd (Webflow.createItems config pressReleases s)) = browsers s
      /\ launches (snd (Webflow.createItems config pressReleases s)) = launches s
      /\ disk (snd (Webflow.createItems config pressReleases s)) = disk s).
Proof.
  split.
  - apply (getLatestReleases_keeps config
             (fun s' => items s' = items s /\ disk s' = disk s));
      try (intros ? **; assumption). now split.
  - apply (createItems_keeps_frame
             (fun s' => browsers s' = browsers s /\ launches s' = launches s
                        /\ disk s' = disk s));
      try (intros ? **; assumption). now repeat split.
Qed.

End Stages.

(** ** The schedule gate and the state file *)

Section Schedule.
Context `{Host}.
Variable config : Config.

Lemma currentHour_range (t : Z) :
  (0 <= ((t + tzOffset t) mod msPerDay) / 3600000 <= 23)%Z.
Proof.
  pose proof (Z.mod_pos_bound (t + tzOffset t) msPerDay eq_refl) as B.
  unfold msPerDay in *. split.
  - apply Z.div_pos; lia.
  - apply Z.lt_succ_r. apply Z.div_lt_upper_bound; lia.
Qed.

Lemma window_empty (t : Z) :
  (endHour config <= startHour config)%Z ->
  Utils.isWithinScheduledHours config t = false.
Proof.
  intros Hw. unfold Utils.isWithinScheduledHours. cbv zeta.
  apply andb_false_iff.
  destruct (Z.leb_spec (startHour config)
              (((t + tzOffset t) mod msPerDay) / 3600000)%Z); [right|now left].
  apply Z.ltb_ge. lia.
Qed.

(** X26. The window of the schedule is [startHour] up to, not including,
    [endHour], on the hour of the local day, which runs from 0 to 23. A window
    whose end is not after its start is never open, so a window meant to wrap
    around midnight lets no run through; a window from 0 to 24 is always open. *)
Theorem scheduled_hours_window (t : Z) :
  ((endHour config <= startHour config)%Z ->
   Utils.isWithinScheduledHours config t = false)
  /\ ((startHour config <= 0)%Z -> (24 <= endHour config)%Z ->
      Utils.isWithinScheduledHours config t = true)
  /\ (Utils.isWithinScheduledHours config t = true ->
      (startHour config <= 23)%Z /\ (1 <= endHour config)%Z).
Proof.
  pose proof (currentHour_range t) as B. unfold Utils.isWithinScheduledHours.
  cbv zeta. set (h := (((t + tzOffset t) mod msPerDay) / 3600000)%Z) in *.
  repeat split.
  - apply window_empty.
  - intros Hs He. apply andb_true_iff. split; [apply Z.leb_le|apply Z.ltb_lt]; lia.
  - apply andb_true_iff in H0 as [H1 _]. apply Z.leb_le in H1. lia.
  - apply andb_true_iff in H0 as [_ H2]. apply Z.ltb_lt in H2. lia.
Qed.

(** X27. Outside the window a scheduled run does nothing: it sends no request,
    starts no browser and writes no file. With a window that is never open
    this is all a scheduled run ever does. *)
Theorem run_outside_hours (s : Sys) :
  (Utils.isWithinScheduledHours config (clock s) = false ->
   Index.run config false s = (Ok Index.OutsideHours, s))
  /\ ((endHour config <= startHour config)%Z ->
      Index.run config false s = (Ok Index.OutsideHours, s)).
Proof.
  assert (Hout : Utils.isWithinScheduledHours config (clock s) = false ->
                 Index.run config false s = (Ok Index.OutsideHours, s)).
  { intros Hw. unfold Index.run, Index.runSteps, try_catch, bind,
      Index.loadProcessedData, Scraper.now. cbn [fst snd]. rewrite Hw.
    reflexivity. }
  split; [exact Hout|]. intros Hw. apply Hout.
  now apply window_empty.
Qed.

End Schedule.

Section StateFile.
Context `{Host}.
Variable config : Config.

Lemma onFatal_spec (message : string) (s : Sys) :
  Index.onFatal message s
  = (Ok (Index.Exit1 message),
     if disk_writable s
     then set_disk s (Some (Index.withFatalError (stored s) (clock s) message))
     else s).
Proof. reflexivity. Qed.

Lemma same_disk_keeps {A} (m : M Sys A) (s : Sys) :
  keeps (fun s' => disk s' = disk s /\ disk_writable s' = disk_writable s) m ->
  disk (snd (m s)) = disk s /\ disk_writable (snd (m s)) = disk_writable s.
Proof. intros Hk. apply Hk. now split. Qed.

Lemma testConnection_disk s :
  disk (snd (Webflow.testConnection s)) = disk s
  /\ disk_writable (snd (Webflow.testConnection s)) = disk_writable s.
Proof.
  apply same_disk_keeps, testConnection_keeps. intros ? **; assumption.
Qed.

Lemma getLatestReleases_disk limit s :
  disk (snd (Scraper.getLatestReleases config limit s)) = disk s
  /\ disk_writable (snd (Scraper.getLatestReleases config limit s))
     = disk_writable s.
Proof.
  apply same_disk_keeps, getLatestReleases_keeps; intros ? **; assumption.
Qed.

Lemma createItems_disk l s :
  disk (snd (Webflow.createItems config l s)) = disk s
  /\ disk_writable (snd (Webflow.createItems config l s)) = disk_writable s.
Proof.
  apply same_disk_keeps, createItems_keeps_frame; intros ? **; assumption.
Qed.

(** What the [try] block of [run] leaves on disk: the store it read, but
    for a run that completes, which writes the updated store. *)
Lemma runSteps_store (testMode : bool) (s : Sys) :
  match Index.runSteps config testMode s with
  | (Ok (Index.Completed allReleases newReleases results), s') =>
    exists s3 entries,
      Index.processedEntries (clock s3) (created results) = Some entries
      /\ newReleases = Index.filterNewReleases allReleases (stored s)
      /\ disk s3 = disk s
      /\ s' = (if disk_writable s
               then set_disk s3
                      (Some (Index.updatedProcessedData (stored s) (clock s3)
                               entries results))
               else s3)
  | (_, s') => disk s' = disk s /\ disk_writable s' = disk_writable s
  end.
Proof.
  unfold Index.runSteps, bind, Index.loadProcessedData, Scraper.now, ret, throw.
  cbn [fst snd]. fold (stored s).
  destruct (negb testMode && negb (Utils.isWithinScheduledHours config (clock s)));
    [now split|].
  destruct (testConnection_disk s) as [D1 W1].
  destruct (Webflow.testConnection s) as [[[|]|e] s1]; cbn [negb snd] in *;
    try (now split).
  destruct (getLatestReleases_disk (if testMode then 3 else 10) s1) as [D2 W2].
  destruct (Scraper.getLatestReleases config (if testMode then 3 else 10) s1)
    as [[allReleases|e] s2]; cbn [snd] in *; [|split; congruence].
  destruct (length allReleases =? 0); [split; congruence|].
  destruct (length (Index.filterNewReleases allReleases (stored s)) =? 0);
    [split; congruence|].
  destruct (createItems_disk
              (Index.filterNewReleases allReleases (stored s)) s2) as [D3 W3].
  destruct (Webflow.createItems config
              (Index.filterNewReleases allReleases (stored s)) s2)
    as [[results|e] s3]; cbn [snd] in *; [|split; congruence].
  destruct (Index.processedEntries (clock s3) (created results)) as [entries|] eqn:E;
    [|split; congruence].
  unfold Index.saveProcessedData. exists s3, entries.
  split; [exact E|]. split; [reflexivity|]. split; [congruence|].
  replace (disk_writable s3) with (disk_writable s) by congruence.
  reflexivity.
Qed.

Lemma run_store (testMode : bool) (s : Sys) :
  match Index.run config testMode s with
  | (Ok (Index.Completed allReleases newReleases results), s') =>
    exists t entries,
      Index.processedEntries t (created results) = Some entries
      /\ newReleases = Index.filterNewReleases allReleases (stored s)
      /\ stored s' = (if disk_writable s
                      then Index.updatedProcessedData (stored s) t entries results
                      else stored s)
  | (Ok (Index.Exit1 message), s') =>
    stored s' = stored s
    \/ exists t, stored s' = Index.withFatalError (stored s) t message
  | (_, s') => stored s' = stored s
  end.
Proof.
  unfold Index.run, try_catch.
  pose proof (runSteps_store testMode s) as P.
  destruct (Index.runSteps config testMode s) as [[o|e] s1].
  - destruct o as [| | |allR newR results|msg];
      try (destruct P as [D W]; unfold stored; now rewrite D).
    + destruct P as (s3 & entries & E & En & D & ->).
      exists (clock s3), entries. split; [exact E|]. split; [exact En|].
      destruct (disk_writable s); [reflexivity|]. unfold stored. now rewrite D.
    + destruct P as [D W]. left. unfold stored. now rewrite D.
  - destruct P as [D W]. rewrite onFatal_spec. rewrite W.
    assert (Es : stored s1 = stored s) by (unfold stored; now rewrite D).
    destruct (disk_writable s); [right|left; exact Es].
    exists (clock s1). rewrite Es. reflexivity.
Qed.

Lemma processedEntries_ids t l : forall entries,
  Index.processedEntries t l = Some entries ->
  map p_id entries = map (fun c => id (release c)) l.
Proof.
  induction l as [|c l IH]; cbn; intros entries E.
  - inversion E. reflexivity.
  - destruct (webflowItem c); [|discriminate].
    destruct (Index.processedEntries t l) as [rest|]; [|discriminate].
    inversion E. cbn. now rewrite (IH rest).
Qed.

Lemma filter_nothing {A} (f : A -> bool) l :
  (forall x, In x l -> f x = false) -> filter f l = [].
Proof.
  induction l as [|x l IH]; intros Hf; [reflexivity|]. cbn.
  rewrite (Hf x) by now left. apply IH. intros y Hy. apply Hf. now right.
Qed.

Lemma eqs_refl a : eqs a a = true.
Proof. now apply eqs_eq. Qed.

(** X28. The state file is append-only across runs. Whatever a run meets and
    however it ends, the processed releases on disk after it are those on disk
    before it, in their order, followed by what the run added, and the count
    of processed releases has not gone down. *)
Theorem run_store_append_only (testMode : bool) (s : Sys) :
  exists added,
    processedReleases (stored (snd (Index.run config testMode s)))
    = processedReleases (stored s) ++ added
    /\ totalProcessed (stats (stored s))
       <= totalProcessed (stats (stored (snd (Index.run config testMode s)))).
Proof.
  pose proof (run_store testMode s) as P.
  destruct (Index.run config testMode s) as [[o|e] s']; cbn [snd].
  - destruct o as [| | |allR newR results|msg];
      try (rewrite P; exists []; rewrite app_nil_r; split; [reflexivity|lia]).
    + destruct P as (t & entries & _ & _ & ->).
      destruct (disk_writable s).
      * exists entries. cbn. split; [reflexivity|lia].
      * exists []. rewrite app_nil_r. split; [reflexivity|lia].
    + destruct P as [->|(t & ->)]; exists []; rewrite app_nil_r;
        (split; [reflexivity|cbn; lia]).
  - rewrite P. exists []. rewrite app_nil_r. split; [reflexivity|lia].
Qed.

(** X29. A run that completes and can write the state file records exactly the
    releases it created: their keys are appended to the processed releases,
    the count grows by their number, the error history holds ten entries at
    most, and none of the created releases would pass [filterNewReleases]
    again. The releases it sent to the publisher were those of the extracted
    ones whose key was not on file. *)
Theorem run_records_created (testMode : bool) (s s' : Sys)
  (allReleases newReleases : list Release) (results : Results) :
  Index.run config testMode s
  = (Ok (Index.Completed allReleases newReleases results), s') ->
  disk_writable s = true ->
  map p_id (processedReleases (stored s'))
  = map p_id (processedReleases (stored s))
    ++ map (fun c => id (release c)) (created results)
  /\ totalProcessed (stats (stored s'))
     = totalProcessed (stats (stored s)) + length (created results)
  /\ length (stats_errors (stats (stored s'))) <= 10
  /\ Index.filterNewReleases (map release (created results)) (stored s') = []
  /\ (forall r, In r newReleases ->
                ~ In (id r) (map (fun c => id (release c)) (created results)) ->
                In r (Index.filterNewReleases newReleases (stored s')))
  /\ newReleases = Index.filterNewReleases allReleases (stored s).
Proof.
  intros E Hw. pose proof (run_store testMode s) as P. rewrite E in P.
  destruct P as (t & entries & He & Hn & Hs). rewrite Hw in Hs. rewrite Hs.
  apply processedEntries_ids in He.
  split; [cbn; now rewrite map_app, He|].
  split; [reflexivity|].
  split; [apply updatedProcessedData_bounded|].
  split; [|split; [|exact Hn]].
  - unfold Index.filterNewReleases.
    cbn [processedReleases Index.updatedProcessedData].
    rewrite map_app, He.
    apply filter_nothing. intros r Hr. apply negb_false_iff, existsb_exists.
    apply in_map_iff in Hr as (c & <- & Hc).
    exists (id (release c)). split; [|apply eqs_refl].
    apply in_or_app. right.
    exact (in_map (fun c => id (release c)) _ _ Hc).
  - intros r Hr Hnot. unfold Index.filterNewReleases.
    cbn [processedReleases Index.updatedProcessedData].
    rewrite map_app, He. apply filter_In. split; [exact Hr|].
    rewrite Hn in Hr. unfold Index.filterNewReleases in Hr.
    apply filter_In in Hr as [_ Hold]. rewrite existsb_app.
    apply negb_true_iff in Hold. rewrite Hold. cbn [orb].
    apply negb_true_iff, not_true_is_false. intros Ex.
    apply existsb_exists in Ex as (i & Hi & Heq). apply eqs_eq in Heq.
    subst i. contradiction.
Qed.

End StateFile.

(** ** The health check *)

Section HealthCheck.
Context `{Host}.
Variable config : Config.

Lemma testConnection_spec (s : Sys) :
  Webflow.testConnection s = (Ok (net s (reqs s)), set_reqs s (S (reqs s))).
Proof.
  unfold Webflow.testConnection, Webflow.getCollectionInfo, Webflow.get_collection,
    try_catch, bind, Axios.request, ret, throw.
  now destruct (net s (reqs s)).
Qed.

(** X30. The health check never throws and changes nothing but the request
    count and the clock. It fails after one request when the CMS does not
    answer; it passes when the CMS answers and the listing is served, and it
    does not look at what the listing holds: a page without a single release
    passes as well. *)
Theorem healthCheck_verdict (s : Sys) :
  (exists healthy, fst (Health.healthCheck config s) = Ok healthy)
  /\ (items (snd (Health.healthCheck config s)) = items s
      /\ browsers (snd (Health.healthCheck config s)) = browsers s
      /\ launches (snd (Health.healthCheck config s)) = launches s
      /\ disk (snd (Health.healthCheck config s)) = disk s)
  /\ (net s (reqs s) = false ->
      Health.healthCheck config s = (Ok false, set_reqs s (S (reqs s))))
  /\ (net s (reqs s) = true -> net s (S (reqs s)) = true ->
      euronext_retryAttempts config <> Some 0 ->
      Date_parse (orElse (match onlyAfterDate config with
                          | Some v => v
                          | None => []
                          end) (js "2025-06-27")) <> None ->
      Health.healthCheck config s = (Ok true, set_reqs s (S (S (reqs s))))).
Proof.
  split; [|split; [|split]].
  - unfold Health.healthCheck, try_catch, bind. rewrite testConnection_spec.
    destruct (net s (reqs s)); cbn [negb]; [|now eexists].
    destruct (Scraper.fetchPressReleaseList config _) as [[r|e] s1]; now eexists.
  - set (I := fun s' : Sys => items s' = items s /\ browsers s' = browsers s
                              /\ launches s' = launches s /\ disk s' = disk s).
    assert (K : keeps I (Health.healthCheck config)).
    { unfold Health.healthCheck.
      apply keeps_try_catch; [|intros e; apply keeps_ret].
      apply keeps_bind.
      - apply testConnection_keeps. intros ? **; assumption.
      - intros b. destruct (negb b); [apply keeps_throw|].
        apply keeps_bind; [|intros _; apply keeps_ret].
        apply fetchPressReleaseList_keeps; intros ? **; assumption. }
    apply K. now repeat split.
  - intros Hnet. unfold Health.healthCheck, try_catch, bind.
    rewrite testConnection_spec, Hnet. reflexivity.
  - intros Hnet Hnet' Hatt Hcut. unfold Health.healthCheck, try_catch, bind.
    rewrite testConnection_spec, Hnet. cbn [negb].
    destruct (Date_parse _) as [cutoffDate|] eqn:Ec; [|congruence].
    rewrite (fetchPressReleaseList_answered config
               (set_reqs s (S (reqs s))) cutoffDate Hnet' Hatt Ec).
    reflexivity.
Qed.

End HealthCheck.

(** ** The properties on sample data *)

(** The modal gives no content, every call goes through: no browser is
    left. *)
Lemma browser_closed_after_navigation_witness :
  browsers (snd (Scraper.fetchPressReleaseContent Sample.modal_release
                   (Sample.world (fun _ => Sample.session None)))) = [].
Proof.
  apply (browser_closed_after_navigation Sample.modal_release
           (Sample.world (fun _ => Sample.session None)));
    [constructor|reflexivity..].
Defined.

(** Three attempts whose navigation times out: no browser is left. *)
Lemma direct_browser_always_closed_witness :
  browsers (snd (ScraperDirect.fetchPressReleaseContent Sample.config
                   Sample.modal_release
                   (Sample.world (fun _ => Sample.session_timeout)))) = [].
Proof.
  apply (direct_browser_always_closed Sample.config Sample.modal_release
           (Sample.world (fun _ => Sample.session_timeout)));
    [constructor|intros k; reflexivity].
Defined.

(** Three attempts on a network that is down: three requests, two pauses
    of a second. *)
Lemma retry_gives_up_witness :
  exists s',
    Utils.retry (Axios.request (ret tt)) (Some 3) 1000 Sample.offline_world
    = (Throw "Request failed", s')
    /\ reqs s' = 3
    /\ clock s' = 1751010302000%Z
    /\ items s' = [] /\ browsers s' = []
    /\ disk s' = Some Sample.full_history.
Proof.
  apply (retry_gives_up (ret tt) 1000 3 Sample.offline_world);
    [lia|intros k Hk; reflexivity].
Defined.

(** Two requests dropped, the third answered: two pauses of two
    seconds. *)
Lemma retry_recovers_witness :
  Utils.retry (Axios.request (ret tt)) (Some 3) 2000 Cases.flaky_world
  = (Ok (Some tt), set_clock (set_reqs Cases.flaky_world 3) 1751010304000%Z).
Proof.
  apply (retry_recovers (ret tt) 2000 3 2 Cases.flaky_world tt);
    [lia
    |intros j Hj; destruct j as [|[|j]]; [reflexivity|reflexivity|lia]
    |reflexivity|reflexivity].
Defined.

(** The listing of five releases, all after the cutoff. *)
Lemma fetchPressReleaseList_selection_witness :
  exists out,
    Scraper.fetchPressReleaseList (H := sample_host) Sample.config Sample.long_world
    = (Ok (Some out), set_reqs Sample.long_world 1)
    /\ Permutation out
         (filter (Scraper.isRecent (H := sample_host) 1750982400000)
            (snd (fst (Scraper.parseListing (H := sample_host) Sample.config
                         Sample.long_listing 1751788800000))))
    /\ Forall (fun r => Scraper.isRecent (H := sample_host) 1750982400000 r = true) out
    /\ Forall wellFormed out.
Proof.
  apply (fetchPressReleaseList_selection (H := sample_host) Sample.config
           Sample.long_world 1750982400000);
    [reflexivity|discriminate|vm_compute; reflexivity].
Defined.

(** A cutoff that reads "last week": three requests, then the
    [RangeError]. *)
Lemma fetchPressReleaseList_bad_cutoff_witness :
  exists s',
    Scraper.fetchPressReleaseList (H := sample_host) Cases.bad_cutoff_config
      Sample.long_world
    = (Throw "RangeError: Invalid time value", s')
    /\ reqs s' = 3
    /\ clock s' = 1751788804000%Z.
Proof.
  apply (fetchPressReleaseList_bad_cutoff (H := sample_host)
           Cases.bad_cutoff_config 3 Sample.long_world);
    [intros k; reflexivity|reflexivity|lia|vm_compute; reflexivity].
Defined.


(** A release published at once: the item goes live, in two requests. *)
Lemma createItem_publishes_witness :
  exists item kept s',
    Webflow.createItem (H := sample_host) Cases.publish_config
      Sample.full_release Sample.long_world = (Ok (Some item), s')
    /\ item_slug item = js "protectorforsikringasaq22025results-2025-06-27"
    /\ item_name item = title Sample.full_release
    /\ item_body item = content Sample.full_release
    /\ item_isDraft item = false
    /\ In kept (items s')
    /\ item_id kept = item_id item
    /\ item_slug kept = js "protectorforsikringasaq22025results-2025-06-27"
    /\ item_live kept = true
    /\ length (items s') = 1
    /\ reqs s' = 2.
Proof.
  apply (createItem_publishes (H := sample_host) Cases.publish_config
           Sample.full_release Sample.long_world);
    [intros k; reflexivity|discriminate|reflexivity].
Defined.

(** Two records, an API that is down, three attempts: eight requests, two
    errors. *)
Lemma createItems_unreachable_witness :
  exists s',
    Webflow.createItems (H := sample_host) Sample.config
      [Sample.jan05; Sample.jan02] Sample.offline_world
    = (Ok {| created := []; skipped := [];
             errors := [{| failed_release := Sample.jan05; error := "Request failed" |};
                        {| failed_release := Sample.jan02; error := "Request failed" |}] |},
       s')
    /\ items s' = []
    /\ reqs s' = 8.
Proof.
  apply (createItems_unreachable (H := sample_host) Sample.config 3
           [Sample.jan05; Sample.jan02] Sample.offline_world);
    [reflexivity|lia|intros k; reflexivity].
Defined.


(** The collection holds the release; the listing request is dropped: a
    second item is created under the same slug. *)
Lemma itemExists_fails_open_witness :
  exists item s',
    Webflow.createItems (H := sample_host) Sample.config [Sample.full_release]
      Cases.glitch_world
    = (Ok {| created := [{| release := Sample.full_release;
                            webflowItem := Some item |}];
             skipped := []; errors := [] |}, s')
    /\ slugs s' = [js "protectorforsikringasaq22025results-2025-06-27";
                   js "protectorforsikringasaq22025results-2025-06-27"]
    /\ (In (slugOf (H := sample_host) Sample.full_release) (slugs Cases.glitch_world)
        -> ~ NoDup (slugs s')).
Proof.
  apply (itemExists_fails_open (H := sample_host) Sample.config
           Sample.full_release Cases.glitch_world);
    [reflexivity|reflexivity|reflexivity|reflexivity|discriminate].
Defined.

(** From ten in the evening to six in the morning: closed at eleven at
    night. *)
Lemma scheduled_hours_window_witness :
  Utils.isWithinScheduledHours (H := sample_host) Cases.wrap_config 1751065200000
  = false.
Proof.
  apply (proj1 (scheduled_hours_window (H := sample_host) Cases.wrap_config
                  1751065200000)).
  cbn. lia.
Defined.

(** Three in the morning, a window from six: nothing happens. *)
Lemma run_outside_hours_witness :
  Index.run (H := sample_host) Sample.config false Cases.night_world
  = (Ok Index.OutsideHours, Cases.night_world).
Proof.
  apply (proj1 (run_outside_hours (H := sample_host) Sample.config
                  Cases.night_world)).
  vm_compute. reflexivity.
Defined.

(** A test run on the listing of five releases: three are created and
    recorded. *)
Lemma run_records_created_witness :
  exists s' allReleases newReleases results,
    Index.run (H := sample_host) Sample.config true Sample.long_world
    = (Ok (Index.Completed allReleases newReleases results), s')
    /\ length (created results) = 3
    /\ map p_id (processedReleases (stored s'))
       = map p_id (processedReleases (stored Sample.long_world))
         ++ map (fun c => id (release c)) (created results)
    /\ totalProcessed (stats (stored s')) = 0 + length (created results)
    /\ Index.filterNewReleases (map release (created results)) (stored s') = [].
Proof.
  eexists; eexists; eexists; eexists.
  split; [vm_compute; reflexivity|]. split; [reflexivity|].
  refine (let P := run_records_created (H := sample_host) Sample.config true
                     Sample.long_world _ _ _ _ _ _ in _).
  destruct P as (P1 & P2 & _ & P4 & _).
  split; [exact P1|]. split; [exact P2|exact P4].
  Unshelve. all: try (vm_compute; reflexivity).
Defined.

(** The page of a release with enough content. *)
Lemma direct_content_witness :
  exists c,
    50 <= length (trim c)
    /\ content Cases.article_release = Some (Utils.cleanHtmlContent c)
    /\ id Cases.article_release = id Sample.modal_release
    /\ url Cases.article_release = url Sample.modal_release
    /\ dateText Cases.article_release = dateText Sample.modal_release.
Proof.
  apply (direct_content Sample.config Sample.modal_release Cases.article_world
           (set_browsers Cases.article_world 1 []) (Some Cases.article_release)).
  vm_compute. reflexivity.
Defined.

(** The CMS answers, the listing is served, and it holds nothing: the
    check passes. *)
Lemma healthCheck_verdict_witness :
  Health.healthCheck (H := sample_host) Sample.config Cases.blank_world
  = (Ok true, set_reqs Cases.blank_world 2).
Proof.
  apply (proj2 (proj2 (proj2 (healthCheck_verdict (H := sample_host)
                                Sample.config Cases.blank_world))));
    [reflexivity|reflexivity|discriminate|vm_compute; discriminate].
Defined.

(** The date as the listing prints it, time of day included. *)
Lemma formatDate_listing_text_witness :
  WebflowDates.formatDate (H := sample_host) 0
    (Some (js "27" ++ js " " ++ js "Jun" ++ js " " ++ js "2025"
           ++ chNl :: js "07:45 CEST"))
  = js "2025-06-27T12:00:00.000Z".
Proof.
  apply (formatDate_listing_text (H := sample_host) 0 (js "27") (js " ")
           (js "Jun") (js " ") (js "2025") (chNl :: js "07:45 CEST"));
    try reflexivity; try discriminate.
  right. reflexivity.
Defined.
